(** * Creative Engine dashboard: a shallow embedding of the UI actions

    The repository is a React front end over a backend-as-a-service.  Its
    behaviour lives in a handful of asynchronous event handlers:

    - [CreativeGenerator]: [loadCreatives], [generateCreatives],
      [downloadAsZip];
    - [ProjectForm]: [handleLogoSelect], [handleProductSelect], the two
      [onClear] closures and [handleSubmit];
    - [Dashboard]: [loadProjects], [handleProjectCreated], [handleLogout].

    Each handler is embedded as a computation in a small state-and-exception
    monad.  The state holds the remote tables, the browser's object-URL
    registry, the chronological trace of observable effects and the React
    state of the mounted component.  What the outside world answers during one
    run of a handler (session present or not, HTTP outcome, query errors, image
    fetch failures, ...) is an explicit argument of the handler, so that a
    run is a total function of the start state and of those answers.

    One handler runs to completion before the next starts: the model does not
    interleave two pending handlers. *)

From Stdlib Require Import ZArith Ascii String.
From stdpp Require Import base numbers list strings pretty gmap sorting.

Set Warnings "-clear-no-such-hyp".

Local Open Scope string_scope.
Local Open Scope list_scope.
Local Open Scope Z_scope.

(** ** JavaScript values used by the handlers *)

(** A value thrown by [throw] or carried in the [error] field of a client
    response.  [JsError] is an instance of the [Error] class; [Rejected] is any
    other error object (for instance the plain error record of a query). *)
Inductive exn :=
| JsError (message : string)
| TypeError (message : string)
| Rejected (message : string).

(** [err instanceof Error ? err.message : fallback] *)
Definition message_or (fallback : string) (err : exn) : string :=
  match err with
  | JsError m | TypeError m => m
  | Rejected _ => fallback
  end.

Definition LF : string := String "010"%char "".

(** The code units matched by the regular expression class [\s], for strings
    whose code units are below 256: TAB, LF, VT, FF, CR, SPACE and NBSP. *)
Definition is_space (c : ascii) : bool :=
  let n := N_of_ascii c in
  ((9 <=? n) && (n <=? 13) || (n =? 32) || (n =? 160))%N.

(** [s.replace(/\s+/g, '_')]: every maximal run of white space becomes one
    underscore.  [in_run] tells that the previous code unit was white space. *)
Fixpoint replace_space_runs (in_run : bool) (s : string) : string :=
  match s with
  | "" => ""
  | String c rest =>
      if is_space c then
        if in_run then replace_space_runs true rest
        else String "_"%char (replace_space_runs true rest)
      else String c (replace_space_runs false rest)
  end.

(** [array.map((x, index) => f x index)] *)
Fixpoint map_index {A B} (f : A → nat → B) (start : nat) (l : list A) : list B :=
  match l with
  | [] => []
  | x :: rest => f x start :: map_index f (S start) rest
  end.

(** [array.join('')] *)
Definition join (l : list string) : string := foldr String.append "" l.

(** ** Remote records *)

Module Project.
Record t := mk {
  id : string;
  user_id : string;
  name : string;
  brand_name : string;
  logo_url : option string;
  product_image_url : option string;
  created_at : string
}.
End Project.

Module GeneratedCreative.
Record t := mk {
  id : string;
  project_id : string;
  image_url : string;
  caption : string;
  generation_prompt : string;
  variation_number : Z
}.
End GeneratedCreative.

(** One element of [result.creatives] in the remote function's JSON body. *)
Record RawCreative := {
  imageUrl : string;
  raw_caption : string;
  prompt : string
}.

(** The object literal inserted into [generated_creatives] (no [id]: the
    store assigns it). *)
Record NewCreative := {
  nc_project_id : string;
  nc_image_url : string;
  nc_caption : string;
  nc_generation_prompt : string;
  nc_variation_number : Z
}.

(** The object literal inserted into [projects]. *)
Record NewProject := {
  np_user_id : string;
  np_name : string;
  np_brand_name : string;
  np_logo_url : option string;
  np_product_image_url : option string
}.

Record File := { file_name : string; file_data : string }.

Record Session := { access_token : string }.
Record User := { user_uid : string }.

(** ** Observable effects *)

Inductive Table := generated_creatives | projects.
Inductive Verb := select | insert | update | delete.

Global Instance Table_eq_dec : EqDecision Table.
Proof. solve_decision. Defined.
Global Instance Verb_eq_dec : EqDecision Verb.
Proof. solve_decision. Defined.

(** The queries the handlers build with the client's query builder. *)
Inductive Query :=
| SelectCreatives (project_id : string)
    (* from('generated_creatives').select('*').eq('project_id', id)
         .order('variation_number', { ascending: true }) *)
| DeleteCreatives (project_id : string)
    (* from('generated_creatives').delete().eq('project_id', id) *)
| InsertCreatives (rows : list NewCreative)
    (* from('generated_creatives').insert(rows) *)
| SelectProjects
    (* from('projects').select('*').order('created_at', { ascending: false }) *)
| InsertProject (row : NewProject).
    (* from('projects').insert(row) *)

Definition table_of (q : Query) : Table :=
  match q with
  | SelectCreatives _ | DeleteCreatives _ | InsertCreatives _ => generated_creatives
  | SelectProjects | InsertProject _ => projects
  end.

Definition verb_of (q : Query) : Verb :=
  match q with
  | SelectCreatives _ | SelectProjects => select
  | DeleteCreatives _ => delete
  | InsertCreatives _ | InsertProject _ => insert
  end.

(** The body of the POST request to the remote function. *)
Record GenerateBody := {
  projectId : string;
  brandName : string;
  logoUrl : option string;
  productImageUrl : option string;
  variations : Z
}.

Record Request := {
  req_url : string;
  req_method : string;
  req_headers : list (string * string);
  req_body : GenerateBody
}.

(** An entry of a JSZip archive: text given as a string, or a fetched blob. *)
Inductive ZipEntry :=
| TextEntry (text : string)
| BlobEntry (data : string).

(** JSZip keeps its files in an object keyed by name; [zip.file(name, data)]
    adds the entry or replaces the one of that name. *)
Abbreviation Zip := (gmap string ZipEntry).

Inductive Blob :=
| FileBlob (f : File)
| ZipBlob (z : Zip).

Inductive Event :=
| EvGetSession
| EvGetUser
| EvSignOut
| EvQuery (q : Query)
| EvPost (r : Request)                      (* fetch(url, { method: 'POST', ... }) *)
| EvGet (url : string)                      (* fetch(url) *)
| EvImport (url : string)                   (* dynamic import(url) *)
| EvUpload (bucket path : string) (f : File)
| EvConsoleError (label : string) (e : exn)
| EvAlert (text : string)
| EvCreateObjectURL (url : string)
| EvRevokeObjectURL (url : string)
| EvDownload (download href : string) (content : option Blob).
    (* link.click() on <a download href>; [content] is what [href] resolves to *)

(** ** The world outside the components *)

Record World := {
  creatives_tbl : list GeneratedCreative.t;   (* table generated_creatives *)
  projects_tbl : list Project.t;              (* table projects *)
  next_id : N;                                (* source of fresh row ids *)
  object_urls : gmap string Blob;             (* live blob: URLs *)
  next_blob : N;                              (* source of fresh blob: URLs *)
  trace : list Event                          (* effects, oldest first *)
}.

Definition with_creatives_tbl (t : list GeneratedCreative.t) (w : World) : World :=
  {| creatives_tbl := t; projects_tbl := projects_tbl w; next_id := next_id w;
     object_urls := object_urls w; next_blob := next_blob w; trace := trace w |}.
Definition with_projects_tbl (t : list Project.t) (w : World) : World :=
  {| creatives_tbl := creatives_tbl w; projects_tbl := t; next_id := next_id w;
     object_urls := object_urls w; next_blob := next_blob w; trace := trace w |}.
Definition with_next_id (n : N) (w : World) : World :=
  {| creatives_tbl := creatives_tbl w; projects_tbl := projects_tbl w; next_id := n;
     object_urls := object_urls w; next_blob := next_blob w; trace := trace w |}.
Definition with_object_urls (u : gmap string Blob) (w : World) : World :=
  {| creatives_tbl := creatives_tbl w; projects_tbl := projects_tbl w; next_id := next_id w;
     object_urls := u; next_blob := next_blob w; trace := trace w |}.
Definition with_next_blob (n : N) (w : World) : World :=
  {| creatives_tbl := creatives_tbl w; projects_tbl := projects_tbl w; next_id := next_id w;
     object_urls := object_urls w; next_blob := n; trace := trace w |}.
Definition emit (e : Event) (w : World) : World :=
  {| creatives_tbl := creatives_tbl w; projects_tbl := projects_tbl w; next_id := next_id w;
     object_urls := object_urls w; next_blob := next_blob w; trace := trace w ++ [e] |}.

(** ** The store's answer to the five queries *)

Definition vn_le (a b : GeneratedCreative.t) : Prop :=
  (GeneratedCreative.variation_number a ≤ GeneratedCreative.variation_number b)%Z.

Global Instance vn_le_dec a b : Decision (vn_le a b).
Proof. unfold vn_le. apply _. Defined.
Global Instance vn_le_total : Total vn_le.
Proof. intros a b. unfold vn_le. lia. Qed.
Global Instance vn_le_trans : Transitive vn_le.
Proof. intros a b c. unfold vn_le. lia. Qed.

Definition newer_first (a b : Project.t) : Prop :=
  String.leb (Project.created_at b) (Project.created_at a) = true.

Global Instance newer_first_dec a b : Decision (newer_first a b).
Proof. unfold newer_first. apply _. Defined.

Definition belongs_to (pid : string) (c : GeneratedCreative.t) : Prop :=
  GeneratedCreative.project_id c = pid.

Global Instance belongs_to_dec pid c : Decision (belongs_to pid c).
Proof. unfold belongs_to. apply _. Defined.

(** [select * where project_id = pid order by variation_number asc] *)
Definition select_creatives (pid : string) (tbl : list GeneratedCreative.t)
  : list GeneratedCreative.t :=
  merge_sort vn_le (filter (belongs_to pid) tbl).

(** [delete where project_id = pid] *)
Definition delete_creatives (pid : string) (tbl : list GeneratedCreative.t)
  : list GeneratedCreative.t :=
  filter (λ c, ¬ belongs_to pid c) tbl.

Definition stored (id : N) (r : NewCreative) : GeneratedCreative.t :=
  GeneratedCreative.mk (pretty id) (nc_project_id r) (nc_image_url r)
    (nc_caption r) (nc_generation_prompt r) (nc_variation_number r).

(** The rows of one [insert], with consecutive fresh ids. *)
Fixpoint stored_rows (id : N) (rows : list NewCreative) : list GeneratedCreative.t :=
  match rows with
  | [] => []
  | r :: rest => stored id r :: stored_rows (N.succ id) rest
  end.

Definition insert_creatives (rows : list NewCreative) (w : World) : World :=
  with_next_id (next_id w + N.of_nat (length rows))%N
    (with_creatives_tbl (creatives_tbl w ++ stored_rows (next_id w) rows) w).

Definition select_projects (tbl : list Project.t) : list Project.t :=
  merge_sort newer_first tbl.

Definition insert_project (now : string) (r : NewProject) (w : World) : World :=
  with_next_id (N.succ (next_id w))
    (with_projects_tbl
       (projects_tbl w ++
          [Project.mk (pretty (next_id w)) (np_user_id r) (np_name r) (np_brand_name r)
             (np_logo_url r) (np_product_image_url r) now]) w).

(** ** The monad of the handlers *)

Inductive Res (A : Type) :=
| Ok (a : A)
| Throw (e : exn).
Arguments Ok {A} a.
Arguments Throw {A} e.

(** A handler step over a state [S]: it ends normally with a value or throws,
    and in both cases leaves a state. *)
Definition M (S A : Type) : Type := S → Res A * S.

Global Instance M_ret {S} : MRet (M S) := λ A a s, (Ok a, s).
Global Instance M_bind {S} : MBind (M S) := λ A B k m s,
  match m s with
  | (Ok a, s') => k a s'
  | (Throw e, s') => (Throw e, s')
  end.

Definition throw {S A} (e : exn) : M S A := λ s, (Throw e, s).
Definition get {S} : M S S := λ s, (Ok s, s).
Definition modify {S} (f : S → S) : M S unit := λ s, (Ok tt, f s).

(** [try { body } catch (error) { handler error }] *)
Definition try_catch {S A} (body : M S A) (handler : exn → M S A) : M S A := λ s,
  match body s with
  | (Ok a, s') => (Ok a, s')
  | (Throw e, s') => handler e s'
  end.

(** [try { body } finally { fin }] *)
Definition try_finally {S A} (body : M S A) (fin : M S unit) : M S A := λ s,
  match body s with
  | (r, s') =>
      match fin s' with
      | (Ok _, s'') => (r, s'')
      | (Throw e, s'') => (Throw e, s'')
      end
  end.

(** [try { body } catch (error) { handler error } finally { fin }] *)
Definition try_catch_finally {S A} (body : M S A) (handler : exn → M S A)
    (fin : M S unit) : M S A :=
  try_finally (try_catch body handler) fin.

(** ** Effects shared by the components *)

(** A mounted component: the world and the component's React state. *)
Record Sys (C : Type) := mkSys { world : World; ui : C }.
Arguments mkSys {C} world ui.
Arguments world {C} s.
Arguments ui {C} s.

(** The [{ data, error }] record every query resolves to.  A query does not
    throw: a failure is reported in [error]. *)
Module QueryResult.
Record t (A : Type) := mk { data : option A; error : option exn }.
Arguments mk {A} data error.
Arguments data {A} _.
Arguments error {A} _.
End QueryResult.

(** What [fetch] of the remote function resolves to. *)
Inductive JsonBody :=
| NotJson (e : exn)                              (* response.json() rejects with [e] *)
| Json (creatives : option (list RawCreative)).  (* [None]: no creatives array *)

Record Response := { ok : bool; body : JsonBody }.

Inductive HttpAnswer :=
| NetworkError (e : exn)
| Responded (r : Response).

(** What the fetch of one image resolves to. *)
Inductive ImageAnswer :=
| FetchFailed (e : exn)      (* fetch(url) rejects *)
| BlobFailed (e : exn)       (* response.blob() rejects *)
| Image (data : string).

Section Effects.
Context {C : Type}.

Definition on_world (f : World → World) : M (Sys C) unit :=
  modify (λ s, mkSys (f (world s)) (ui s)).
Definition set_ui (f : C → C) : M (Sys C) unit :=
  modify (λ s, mkSys (world s) (f (ui s))).

Definition console_error (label : string) (e : exn) : M (Sys C) unit :=
  on_world (emit (EvConsoleError label e)).
Definition alert (text : string) : M (Sys C) unit :=
  on_world (emit (EvAlert text)).

(** [supabase.auth.getSession()] *)
Definition getSession (answer : option Session) : M (Sys C) (option Session) :=
  on_world (emit EvGetSession);; mret answer.
(** [supabase.auth.getUser()] *)
Definition getUser (answer : option User) : M (Sys C) (option User) :=
  on_world (emit EvGetUser);; mret answer.
(** [supabase.auth.signOut()] *)
Definition signOut : M (Sys C) unit := on_world (emit EvSignOut).

(** [fetch(url, { method: 'POST', headers, body })] *)
Definition post (r : Request) (answer : HttpAnswer) : M (Sys C) Response :=
  on_world (emit (EvPost r));;
  match answer with
  | NetworkError e => throw e
  | Responded resp => mret resp
  end.

(** [response.json()] *)
Definition json (resp : Response) : M (Sys C) (option (list RawCreative)) :=
  match body resp with
  | NotJson e => throw e
  | Json creatives => mret creatives
  end.

(** [fetch(url)] followed by [response.blob()] *)
Definition fetch_blob (url : string) (answer : ImageAnswer) : M (Sys C) string :=
  on_world (emit (EvGet url));;
  match answer with
  | FetchFailed e | BlobFailed e => throw e
  | Image data => mret data
  end.

Definition db_select_creatives (pid : string) (answer : option exn)
  : M (Sys C) (QueryResult.t (list GeneratedCreative.t)) :=
  on_world (emit (EvQuery (SelectCreatives pid)));;
  s ← get;
  mret match answer with
       | Some e => QueryResult.mk None (Some e)
       | None => QueryResult.mk (Some (select_creatives pid (creatives_tbl (world s)))) None
       end.

Definition db_delete_creatives (pid : string) (answer : option exn)
  : M (Sys C) (QueryResult.t unit) :=
  on_world (emit (EvQuery (DeleteCreatives pid)));;
  match answer with
  | Some e => mret (QueryResult.mk None (Some e))
  | None =>
      on_world (λ w, with_creatives_tbl (delete_creatives pid (creatives_tbl w)) w);;
      mret (QueryResult.mk None None)
  end.

Definition db_insert_creatives (rows : list NewCreative) (answer : option exn)
  : M (Sys C) (QueryResult.t unit) :=
  on_world (emit (EvQuery (InsertCreatives rows)));;
  match answer with
  | Some e => mret (QueryResult.mk None (Some e))
  | None =>
      on_world (insert_creatives rows);;
      mret (QueryResult.mk None None)
  end.

Definition db_select_projects (answer : option exn)
  : M (Sys C) (QueryResult.t (list Project.t)) :=
  on_world (emit (EvQuery SelectProjects));;
  s ← get;
  mret match answer with
       | Some e => QueryResult.mk None (Some e)
       | None => QueryResult.mk (Some (select_projects (projects_tbl (world s)))) None
       end.

(** [now] is the timestamp the store gives the new row. *)
Definition db_insert_project (row : NewProject) (now : string) (answer : option exn)
  : M (Sys C) (QueryResult.t unit) :=
  on_world (emit (EvQuery (InsertProject row)));;
  match answer with
  | Some e => mret (QueryResult.mk None (Some e))
  | None =>
      on_world (insert_project now row);;
      mret (QueryResult.mk None None)
  end.

(** [supabase.storage.from(bucket).upload(path, file)] *)
Definition storage_upload (bucket path : string) (f : File) (answer : option exn)
  : M (Sys C) (QueryResult.t unit) :=
  on_world (emit (EvUpload bucket path f));;
  mret (QueryResult.mk None answer).

(** [URL.createObjectURL(blob)]: a fresh [blob:] URL, live until revoked. *)
Definition createObjectURL (b : Blob) : M (Sys C) string :=
  s ← get;
  let url := "blob:" +:+ pretty (next_blob (world s)) in
  on_world (λ w, emit (EvCreateObjectURL url)
                   (with_next_blob (N.succ (next_blob w))
                      (with_object_urls (<[url := b]> (object_urls w)) w)));;
  mret url.

(** [URL.revokeObjectURL(url)] *)
Definition revokeObjectURL (url : string) : M (Sys C) unit :=
  on_world (λ w, emit (EvRevokeObjectURL url)
                   (with_object_urls (base.delete url (object_urls w)) w)).

(** Appending [<a href download>] to the body, clicking it, removing it. *)
Definition click_download (download href : string) : M (Sys C) unit :=
  on_world (λ w, emit (EvDownload download href (object_urls w !! href)) w).
End Effects.

(** ** Component CreativeGenerator *)

Module CreativeGenerator.

Record State := mkState {
  generating : bool;
  creatives : list GeneratedCreative.t;
  loading : bool;
  progress : Z;
  downloadingZip : bool
}.

(** The [useState] initial values. *)
Definition initial : State :=
  {| generating := false; creatives := []; loading := true; progress := 0;
     downloadingZip := false |}.

Definition setGenerating (b : bool) : M (Sys State) unit :=
  set_ui (λ c, mkState b (creatives c) (loading c) (progress c) (downloadingZip c)).
Definition setCreatives (l : list GeneratedCreative.t) : M (Sys State) unit :=
  set_ui (λ c, mkState (generating c) l (loading c) (progress c) (downloadingZip c)).
Definition setLoading (b : bool) : M (Sys State) unit :=
  set_ui (λ c, mkState (generating c) (creatives c) b (progress c) (downloadingZip c)).
Definition setProgress (p : Z) : M (Sys State) unit :=
  set_ui (λ c, mkState (generating c) (creatives c) (loading c) p (downloadingZip c)).
Definition setDownloadingZip (b : bool) : M (Sys State) unit :=
  set_ui (λ c, mkState (generating c) (creatives c) (loading c) (progress c) b).

(** The answers of the outside world during one run of [generateCreatives]. *)
Record GenerateAnswers := {
  session_answer : option Session;
  http_answer : HttpAnswer;
  delete_answer : option exn;
  insert_answer : option exn;
  reload_answer : option exn
}.

(** The answers of the outside world during one run of [downloadAsZip];
    [image_answer i] is the outcome of the fetch in loop iteration [i]. *)
Record ZipAnswers := {
  import_answer : option exn;
  image_answer : nat → ImageAnswer;
  generate_answer : option exn
}.

Definition jszip_url : string := "https://cdn.jsdelivr.net/npm/jszip@3.10.1/+esm".

(** [zip.file(name, data)] *)
Definition zip_file (name : string) (e : ZipEntry) (zip : Zip) : Zip :=
  <[name := e]> zip.

(** One manifest entry: the template literal of [captionsText]. *)
Definition manifest_entry (creative : GeneratedCreative.t) (index : nat) : string :=
  "Image " +:+ pretty (Z.of_nat index + 1) +:+ ":" +:+ LF +:+
  GeneratedCreative.caption creative +:+ LF +:+ LF +:+
  "Prompt: " +:+ GeneratedCreative.generation_prompt creative +:+ LF +:+ LF +:+
  "---" +:+ LF +:+ LF.

Definition captionsText (creatives : list GeneratedCreative.t) : string :=
  join (map_index manifest_entry 0 creatives).

(** The name of an item's image file in the archive. *)
Definition image_name (creative : GeneratedCreative.t) : string :=
  "creative_" +:+ pretty (GeneratedCreative.variation_number creative) +:+ ".jpg".

(** One card of the grid. *)
Record Card := {
  card_key : string;
  card_src : string;
  card_alt : string;
  card_badge : string;
  card_caption : string;
  card_download : string
}.

Definition card (creative : GeneratedCreative.t) : Card :=
  {| card_key := GeneratedCreative.id creative;
     card_src := GeneratedCreative.image_url creative;
     card_alt := "Creative " +:+ pretty (GeneratedCreative.variation_number creative);
     card_badge := "#" +:+ pretty (GeneratedCreative.variation_number creative);
     card_caption := GeneratedCreative.caption creative;
     card_download := image_name creative |}.

(** The main area of the view: skeletons while loading, a placeholder for
    an empty list, otherwise [creatives.map(...)]. *)
Inductive Grid :=
| Skeletons
| NoCreatives
| Cards (cards : list Card).

Definition grid (c : State) : Grid :=
  if loading c then Skeletons
  else if decide (creatives c = []) then NoCreatives
  else Cards (card <$> creatives c).

Section Handlers.
(** [import.meta.env] and the component's props. *)
Context (supabaseUrl supabaseAnonKey : string) (project : Project.t).

Definition loadCreatives (answer : option exn) : M (Sys State) unit :=
  try_catch_finally
    (r ← db_select_creatives (Project.id project) answer;
     match QueryResult.error r with
     | Some e => throw e
     | None => setCreatives (default [] (QueryResult.data r))
     end)
    (λ error, console_error "Error loading creatives:" error)
    (setLoading false).

Definition generate_request (session : Session) : Request :=
  {| req_url := supabaseUrl +:+ "/functions/v1/generate-creatives";
     req_method := "POST";
     req_headers :=
       [("Authorization", "Bearer " +:+ access_token session);
        ("Content-Type", "application/json");
        ("apikey", supabaseAnonKey)];
     req_body :=
       {| projectId := Project.id project;
          brandName := Project.brand_name project;
          logoUrl := Project.logo_url project;
          productImageUrl := Project.product_image_url project;
          variations := 12 |} |}.

(** [result.creatives.map((creative, index) => ({ ... }))] *)
Definition creativesToInsert (result : list RawCreative) : list NewCreative :=
  map_index
    (λ creative index,
       {| nc_project_id := Project.id project;
          nc_image_url := imageUrl creative;
          nc_caption := raw_caption creative;
          nc_generation_prompt := prompt creative;
          nc_variation_number := Z.of_nat index + 1 |})
    0 result.

(** The [try] block of [generateCreatives]. *)
Definition generate_try (a : GenerateAnswers) : M (Sys State) unit :=
  session ← getSession (session_answer a);
  match session with
  | None => throw (JsError "Not authenticated")
  | Some session =>
      setProgress 20;;
      response ← post (generate_request session) (http_answer a);
      if negb (ok response) then throw (JsError "Failed to generate creatives")
      else
        result ← json response;
        setProgress 60;;
        db_delete_creatives (Project.id project) (delete_answer a);;
        match result with
        | None => throw (TypeError "Cannot read properties of undefined (reading 'map')")
        | Some creatives =>
            r ← db_insert_creatives (creativesToInsert creatives) (insert_answer a);
            match QueryResult.error r with
            | Some insertError => throw insertError
            | None =>
                setProgress 100;;
                loadCreatives (reload_answer a)
            end
        end
  end.

Definition generateCreatives (a : GenerateAnswers) : M (Sys State) unit :=
  setGenerating true;;
  setProgress 0;;
  try_catch_finally
    (generate_try a)
    (λ error,
       console_error "Error generating creatives:" error;;
       alert "Failed to generate creatives. Please try again.")
    (setGenerating false;; setProgress 0).

(** How the [try] block of a run of [generateCreatives] started in [s]
    ends: [Ok] when it reaches its last statement, [Throw] when the
    [catch] clause takes over. *)
Definition generate_outcome (a : GenerateAnswers) (s : Sys State) : Res unit :=
  (generate_try a ((setGenerating true;; setProgress 0) s).2).1.

(** One iteration of the image loop, on item [creative] at index [i]. *)
Definition fetch_image (a : ZipAnswers) (i : nat) (creative : GeneratedCreative.t)
    (zip : Zip) : M (Sys State) Zip :=
  try_catch
    (blob ← fetch_blob (GeneratedCreative.image_url creative) (image_answer a i);
     mret (zip_file (image_name creative) (BlobEntry blob) zip))
    (λ error,
       console_error ("Failed to fetch image " +:+ pretty (Z.of_nat i + 1) +:+ ":") error;;
       mret zip).

(** [for (let i = 0; i < creatives.length; i++) { ... }], from index [i]
    over the items not yet visited. *)
Fixpoint fetch_images (a : ZipAnswers) (i : nat) (rest : list GeneratedCreative.t)
    (zip : Zip) : M (Sys State) Zip :=
  match rest with
  | [] => mret zip
  | creative :: rest' =>
      zip' ← fetch_image a i creative zip;
      fetch_images a (S i) rest' zip'
  end.

Definition download_name : string :=
  replace_space_runs false (Project.name project) +:+ "_creatives.zip".

(** The [try] block of [downloadAsZip]. *)
Definition download_try (a : ZipAnswers) : M (Sys State) unit :=
  on_world (emit (EvImport jszip_url));;
  match import_answer a with
  | Some e => throw e
  | None =>
      s ← get;
      let creatives := creatives (ui s) in
      let zip := zip_file "captions.txt" (TextEntry (captionsText creatives)) ∅ in
      zip ← fetch_images a 0 creatives zip;
      match generate_answer a with
      | Some e => throw e
      | None =>
          url ← createObjectURL (ZipBlob zip);
          click_download download_name url;;
          revokeObjectURL url
      end
  end.

(** How the [try] block of a run of [downloadAsZip] started in [s] ends. *)
Definition download_outcome (a : ZipAnswers) (s : Sys State) : Res unit :=
  (download_try a (setDownloadingZip true s).2).1.

Definition downloadAsZip (a : ZipAnswers) : M (Sys State) unit :=
  setDownloadingZip true;;
  try_catch_finally
    (download_try a)
    (λ error,
       console_error "Error creating zip:" error;;
       alert "Failed to download zip file. Please try again.")
    (setDownloadingZip false).
End Handlers.

End CreativeGenerator.

(** ** Component ProjectForm *)

Module ProjectForm.

Record State := mkState {
  name : string;
  brandName : string;
  logoFile : option File;
  productFile : option File;
  logoPreview : string;
  productPreview : string;
  loading : bool;
  error : string
}.

Definition initial : State :=
  {| name := ""; brandName := ""; logoFile := None; productFile := None;
     logoPreview := ""; productPreview := ""; loading := false; error := "" |}.

(** The answers of the outside world during one run of [handleSubmit]. *)
Record SubmitAnswers := {
  user_answer : option User;
  logo_now : Z;                          (* Date.now() for the logo path *)
  logo_upload_answer : option exn;
  product_now : Z;                       (* Date.now() for the product path *)
  product_upload_answer : option exn;
  insert_answer : option exn;
  created_at_answer : string             (* timestamp given by the store *)
}.

(** [url || null] *)
Definition or_null (url : string) : option string :=
  if decide (url = "") then None else Some url.

Section Handlers.
(** The handlers run inside the application's state [D]; [get_form] and
    [put_form] give access to this component's own [useState] cells, and
    [onSuccess] is the callback prop. [getPublicUrl bucket path] is the
    client's synchronous [storage.from(bucket).getPublicUrl(path)]. *)
Context {D : Type} (get_form : D → State) (put_form : State → D → D).
Context (getPublicUrl : string → string → string).
Context (onSuccess : M (Sys D) unit).

Definition set_form (f : State → State) : M (Sys D) unit :=
  set_ui (λ d, put_form (f (get_form d)) d).

Definition setName (v : string) : M (Sys D) unit :=
  set_form (λ c, mkState v (brandName c) (logoFile c) (productFile c)
                   (logoPreview c) (productPreview c) (loading c) (error c)).
Definition setBrandName (v : string) : M (Sys D) unit :=
  set_form (λ c, mkState (name c) v (logoFile c) (productFile c)
                   (logoPreview c) (productPreview c) (loading c) (error c)).
Definition setLogoFile (v : option File) : M (Sys D) unit :=
  set_form (λ c, mkState (name c) (brandName c) v (productFile c)
                   (logoPreview c) (productPreview c) (loading c) (error c)).
Definition setProductFile (v : option File) : M (Sys D) unit :=
  set_form (λ c, mkState (name c) (brandName c) (logoFile c) v
                   (logoPreview c) (productPreview c) (loading c) (error c)).
Definition setLogoPreview (v : string) : M (Sys D) unit :=
  set_form (λ c, mkState (name c) (brandName c) (logoFile c) (productFile c)
                   v (productPreview c) (loading c) (error c)).
Definition setProductPreview (v : string) : M (Sys D) unit :=
  set_form (λ c, mkState (name c) (brandName c) (logoFile c) (productFile c)
                   (logoPreview c) v (loading c) (error c)).
Definition setLoading (v : bool) : M (Sys D) unit :=
  set_form (λ c, mkState (name c) (brandName c) (logoFile c) (productFile c)
                   (logoPreview c) (productPreview c) v (error c)).
Definition setError (v : string) : M (Sys D) unit :=
  set_form (λ c, mkState (name c) (brandName c) (logoFile c) (productFile c)
                   (logoPreview c) (productPreview c) (loading c) v).

Definition handleLogoSelect (file : File) : M (Sys D) unit :=
  setLogoFile (Some file);;
  url ← createObjectURL (FileBlob file);
  setLogoPreview url.

Definition handleProductSelect (file : File) : M (Sys D) unit :=
  setProductFile (Some file);;
  url ← createObjectURL (FileBlob file);
  setProductPreview url.

(** The [onClear] closure given to the logo's [FileUpload]. *)
Definition onClearLogo : M (Sys D) unit :=
  setLogoFile None;;
  setLogoPreview "".

(** The [onClear] closure given to the product image's [FileUpload]. *)
Definition onClearProduct : M (Sys D) unit :=
  setProductFile None;;
  setProductPreview "".

(** [if (file) { upload; throw on error; url = publicUrl }], from [url = ''] *)
Definition upload_asset (user : User) (file : option File) (now : Z)
    (answer : option exn) : M (Sys D) string :=
  match file with
  | None => mret ""
  | Some f =>
      let path := user_uid user +:+ "/" +:+ pretty now +:+ "-" +:+ file_name f in
      r ← storage_upload "brand-assets" path f answer;
      match QueryResult.error r with
      | Some uploadError => throw uploadError
      | None => mret (getPublicUrl "brand-assets" path)
      end
  end.

(** The [try] block of [handleSubmit]. *)
Definition submit_try (a : SubmitAnswers) : M (Sys D) unit :=
  user ← getUser (user_answer a);
  match user with
  | None => throw (JsError "Not authenticated")
  | Some user =>
      s ← get;
      let c := get_form (ui s) in
      logoUrl ← upload_asset user (logoFile c) (logo_now a) (logo_upload_answer a);
      productUrl ← upload_asset user (productFile c) (product_now a)
                     (product_upload_answer a);
      r ← db_insert_project
            {| np_user_id := user_uid user;
               np_name := name c;
               np_brand_name := brandName c;
               np_logo_url := or_null logoUrl;
               np_product_image_url := or_null productUrl |}
            (created_at_answer a) (insert_answer a);
      match QueryResult.error r with
      | Some insertError => throw insertError
      | None => onSuccess
      end
  end.

Definition handleSubmit (a : SubmitAnswers) : M (Sys D) unit :=
  setLoading true;;
  setError "";;
  try_catch_finally
    (submit_try a)
    (λ err, setError (message_or "Failed to create project" err))
    (setLoading false).
End Handlers.

End ProjectForm.

(** ** Component Dashboard *)

Module Dashboard.

Record State := mkState {
  projects : list Project.t;
  selectedProject : option Project.t;
  showNewProject : bool;
  loading : bool
}.

Definition initial : State :=
  {| projects := []; selectedProject := None; showNewProject := false;
     loading := true |}.

Section Handlers.
Context {D : Type} (get_dash : D → State) (put_dash : State → D → D).
(** The callback prop [onLogout]. *)
Context (onLogout : M (Sys D) unit).

Definition set_dash (f : State → State) : M (Sys D) unit :=
  set_ui (λ d, put_dash (f (get_dash d)) d).

Definition setProjects (v : list Project.t) : M (Sys D) unit :=
  set_dash (λ c, mkState v (selectedProject c) (showNewProject c) (loading c)).
Definition setSelectedProject (v : option Project.t) : M (Sys D) unit :=
  set_dash (λ c, mkState (projects c) v (showNewProject c) (loading c)).
Definition setShowNewProject (v : bool) : M (Sys D) unit :=
  set_dash (λ c, mkState (projects c) (selectedProject c) v (loading c)).
Definition setLoading (v : bool) : M (Sys D) unit :=
  set_dash (λ c, mkState (projects c) (selectedProject c) (showNewProject c) v).

Definition loadProjects (answer : option exn) : M (Sys D) unit :=
  try_catch_finally
    (r ← db_select_projects answer;
     match QueryResult.error r with
     | Some e => throw e
     | None => setProjects (default [] (QueryResult.data r))
     end)
    (λ error, console_error "Error loading projects:" error)
    (setLoading false).

Definition handleProjectCreated (answer : option exn) : M (Sys D) unit :=
  setShowNewProject false;;
  loadProjects answer.

Definition handleLogout : M (Sys D) unit :=
  signOut;;
  onLogout.
End Handlers.

End Dashboard.

(** ** The application: component tree and user actions *)

Module App.

(** The React state of the whole tree.  A child component's cells are
    meaningful while it is mounted and are reset when it mounts. *)
Record UI := mkUI {
  session : option Session;
  loading : bool;
  dashboard : Dashboard.State;
  generator : CreativeGenerator.State;
  form : ProjectForm.State
}.

Definition initial : UI :=
  {| session := None; loading := true; dashboard := Dashboard.initial;
     generator := CreativeGenerator.initial; form := ProjectForm.initial |}.

Definition put_session (v : option Session) (u : UI) : UI :=
  mkUI v (loading u) (dashboard u) (generator u) (form u).
Definition put_loading (v : bool) (u : UI) : UI :=
  mkUI (session u) v (dashboard u) (generator u) (form u).
Definition put_dashboard (v : Dashboard.State) (u : UI) : UI :=
  mkUI (session u) (loading u) v (generator u) (form u).
Definition put_generator (v : CreativeGenerator.State) (u : UI) : UI :=
  mkUI (session u) (loading u) (dashboard u) v (form u).
Definition put_form (v : ProjectForm.State) (u : UI) : UI :=
  mkUI (session u) (loading u) (dashboard u) (generator u) v.

(** What the nested conditionals of [App] and [Dashboard] render. *)
Inductive Screen :=
| Spinner
| AuthForm
| ProjectList
| NewProject
| Generator (project : Project.t).

Definition screen (u : UI) : Screen :=
  if loading u then Spinner
  else match session u with
       | None => AuthForm
       | Some _ =>
           match Dashboard.selectedProject (dashboard u) with
           | Some p => Generator p
           | None =>
               if Dashboard.showNewProject (dashboard u) then NewProject
               else ProjectList
           end
       end.

Definition dashboard_mounted (u : UI) : bool :=
  match screen u with
  | Spinner | AuthForm => false
  | _ => true
  end.

(** Run a handler of a child component on its own cells. *)
Definition zoom {C A} (get_c : UI → C) (put_c : C → UI → UI) (m : M (Sys C) A)
  : M (Sys UI) A := λ s,
  match m (mkSys (world s) (get_c (ui s))) with
  | (r, s') => (r, mkSys (world s') (put_c (ui s') (ui s)))
  end.

Inductive Action :=
(* App *)
| SessionLoaded (s : option Session) (projects_answer : option exn)
| AuthStateChange (s : option Session) (projects_answer : option exn)
(* Dashboard *)
| ClickLogout
| ClickNewProject
| ClickProject (i : nat) (load_answer : option exn)
(* CreativeGenerator *)
| ClickBack
| ClickGenerate (a : CreativeGenerator.GenerateAnswers)
| ClickDownloadZip (a : CreativeGenerator.ZipAnswers)
(* ProjectForm *)
| TypeName (v : string)
| TypeBrandName (v : string)
| SelectLogo (f : File)
| SelectProduct (f : File)
| ClearLogo
| ClearProduct
| ClickCancel
| Submit (a : ProjectForm.SubmitAnswers) (reload_answer : option exn).

Definition is_submit (act : Action) : bool :=
  match act with Submit _ _ => true | _ => false end.

Section Actions.
Context (supabaseUrl supabaseAnonKey : string).
Context (getPublicUrl : string → string → string).

(** [() => setSession(null)] *)
Definition onLogout : M (Sys UI) unit := set_ui (put_session None).

Definition loadProjects := Dashboard.loadProjects dashboard put_dashboard.

(** A change of the [App] cells; when it makes the [Dashboard] appear, the
    component mounts with fresh cells and its effect loads the projects. *)
Definition app_update (f : UI → UI) (projects_answer : option exn)
  : M (Sys UI) unit :=
  s ← get;
  set_ui f;;
  s' ← get;
  if negb (dashboard_mounted (ui s)) && dashboard_mounted (ui s') then
    set_ui (put_dashboard Dashboard.initial);;
    loadProjects projects_answer
  else mret tt.

Definition when (b : bool) (m : M (Sys UI) unit) : M (Sys UI) unit :=
  if b then m else mret tt.

(** One user action or auth notification; it has an effect only when the
    control it comes from is on screen and enabled. *)
Definition step (act : Action) : M (Sys UI) unit :=
  s ← get;
  let u := ui s in
  match act, screen u with
  | SessionLoaded v pa, _ =>
      on_world (emit EvGetSession);;
      app_update (λ u, put_loading false (put_session v u)) pa
  | AuthStateChange v pa, _ =>
      app_update (put_session v) pa
  | ClickLogout, ProjectList =>
      Dashboard.handleLogout onLogout
  | ClickNewProject, ProjectList =>
      Dashboard.setShowNewProject dashboard put_dashboard true;;
      set_ui (put_form ProjectForm.initial)
  | ClickProject i la, ProjectList =>
      match Dashboard.projects (dashboard u) !! i with
      | None => mret tt
      | Some project =>
          Dashboard.setSelectedProject dashboard put_dashboard (Some project);;
          set_ui (put_generator CreativeGenerator.initial);;
          zoom generator put_generator (CreativeGenerator.loadCreatives project la)
      end
  | ClickBack, Generator _ =>
      Dashboard.setSelectedProject dashboard put_dashboard None
  | ClickGenerate a, Generator project =>
      when (negb (CreativeGenerator.generating (generator u)))
        (zoom generator put_generator
           (CreativeGenerator.generateCreatives supabaseUrl supabaseAnonKey project a))
  | ClickDownloadZip a, Generator project =>
      when (bool_decide (CreativeGenerator.creatives (generator u) ≠ [])
            && negb (CreativeGenerator.downloadingZip (generator u)))
        (zoom generator put_generator (CreativeGenerator.downloadAsZip project a))
  | TypeName v, NewProject => ProjectForm.setName form put_form v
  | TypeBrandName v, NewProject => ProjectForm.setBrandName form put_form v
  | SelectLogo f, NewProject => ProjectForm.handleLogoSelect form put_form f
  | SelectProduct f, NewProject => ProjectForm.handleProductSelect form put_form f
  | ClearLogo, NewProject => ProjectForm.onClearLogo form put_form
  | ClearProduct, NewProject => ProjectForm.onClearProduct form put_form
  | ClickCancel, NewProject =>
      Dashboard.setShowNewProject dashboard put_dashboard false
  | Submit a ra, NewProject =>
      when (bool_decide (ProjectForm.name (form u) ≠ "")
            && bool_decide (ProjectForm.brandName (form u) ≠ "")
            && negb (ProjectForm.loading (form u)))
        (ProjectForm.handleSubmit form put_form getPublicUrl
           (Dashboard.handleProjectCreated dashboard put_dashboard ra) a)
  | _, _ => mret tt
  end.

(** A session of use: the actions one after the other. *)
Definition run (acts : list Action) (s : Sys UI) : Sys UI :=
  foldl (λ s act, (step act s).2) s acts.
End Actions.

End App.

(** ** Sample data *)

Module Demo.
Import CreativeGenerator.

Definition url : string := "https://demo.supabase.co".
Definition key : string := "anon-key".

Definition project : Project.t :=
  Project.mk "p1" "u1" "Summer Campaign 2024" "Nike" None
    (Some "https://cdn/p.png") "2024-06-01T10:00:00Z".

(** A store holding a batch of two creatives of [project] and one creative
    of another project. *)
Definition world : World :=
  {| creatives_tbl :=
       [GeneratedCreative.mk "0" "p1" "https://img/old1" "old one" "old prompt 1" 1;
        GeneratedCreative.mk "1" "p2" "https://img/other" "other" "other prompt" 1;
        GeneratedCreative.mk "2" "p1" "https://img/old2" "old two" "old prompt 2" 2];
     projects_tbl := [project];
     next_id := 3;
     object_urls := ∅;
     next_blob := 0;
     trace := [] |}.

Definition result : list RawCreative :=
  [ {| imageUrl := "https://img/a"; raw_caption := "A"; prompt := "prompt a" |};
    {| imageUrl := "https://img/b"; raw_caption := "B"; prompt := "prompt b" |};
    {| imageUrl := "https://img/c"; raw_caption := "C"; prompt := "prompt c" |} ].

Definition signed_in : Session := {| access_token := "token" |}.

Definition responded : HttpAnswer :=
  Responded {| ok := true; body := Json (Some result) |}.

(** Every remote call is served. *)
Definition all_served : GenerateAnswers :=
  {| session_answer := Some signed_in; http_answer := responded;
     delete_answer := None; insert_answer := None; reload_answer := None |}.

(** The delete resolves to [{ error }]; the rest is served. *)
Definition delete_rejected : GenerateAnswers :=
  {| session_answer := Some signed_in; http_answer := responded;
     delete_answer := Some (Rejected "permission denied");
     insert_answer := None; reload_answer := None |}.

(** The delete is served; the insert resolves to [{ error }]. *)
Definition insert_rejected : GenerateAnswers :=
  {| session_answer := Some signed_in; http_answer := responded;
     delete_answer := None;
     insert_answer := Some (Rejected "connection lost"); reload_answer := None |}.

Definition signed_out : GenerateAnswers :=
  {| session_answer := None; http_answer := responded;
     delete_answer := None; insert_answer := None; reload_answer := None |}.

(** The generator view of [project] after its creatives were loaded. *)
Definition loaded : Sys State :=
  (loadCreatives project None (mkSys world initial)).2.

Definition logo : File := {| file_name := "logo.png"; file_data := "png bytes" |}.

(** The project form alone, after a logo was picked, and after it was
    cleared again. *)
Definition picked : Sys ProjectForm.State :=
  (ProjectForm.handleLogoSelect id (λ c _, c) logo (mkSys world ProjectForm.initial)).2.
Definition cleared : Sys ProjectForm.State :=
  (ProjectForm.onClearLogo id (λ c _, c) picked).2.

Definition getPublicUrl (bucket path : string) : string :=
  url +:+ "/storage/v1/object/public/" +:+ bucket +:+ "/" +:+ path.

(** Sign in, open the form, fill it in and submit it; every call is served. *)
Definition create_project : list App.Action :=
  [App.SessionLoaded (Some signed_in) None;
   App.ClickNewProject;
   App.TypeName "Winter Sale";
   App.TypeBrandName "Acme";
   App.SelectLogo logo;
   App.Submit
     {| ProjectForm.user_answer := Some {| user_uid := "u1" |};
        ProjectForm.logo_now := 1717236000000;
        ProjectForm.logo_upload_answer := None;
        ProjectForm.product_now := 1717236000001;
        ProjectForm.product_upload_answer := None;
        ProjectForm.insert_answer := None;
        ProjectForm.created_at_answer := "2024-06-02T09:00:00Z" |}
     None].

(** Sign in, open the sample project, generate, all served. *)
Definition open_and_generate : list App.Action :=
  [App.SessionLoaded (Some signed_in) None;
   App.ClickProject 0 None;
   App.ClickGenerate all_served].

(** The fetch of the second image fails; everything else works. *)
Definition second_image_fails : ZipAnswers :=
  {| import_answer := None;
     image_answer := λ i, if decide (i = 1%nat) then FetchFailed (TypeError "Failed to fetch")
                          else Image "jpeg bytes";
     generate_answer := None |}.
End Demo.

(** * Properties *)

(** ** Reading a trace *)

Definition queries (t : list Event) : list Query :=
  omap (λ e, match e with EvQuery q => Some q | _ => None end) t.
Definition posts (t : list Event) : list Request :=
  omap (λ e, match e with EvPost r => Some r | _ => None end) t.
Definition image_fetches (t : list Event) : list string :=
  omap (λ e, match e with EvGet url => Some url | _ => None end) t.
Definition alerts (t : list Event) : list string :=
  omap (λ e, match e with EvAlert text => Some text | _ => None end) t.
Definition console_errors (t : list Event) : list (string * exn) :=
  omap (λ e, match e with EvConsoleError l x => Some (l, x) | _ => None end) t.
Definition revoked (t : list Event) : list string :=
  omap (λ e, match e with EvRevokeObjectURL u => Some u | _ => None end) t.
Definition inserted_batches (t : list Event) : list (list NewCreative) :=
  omap (λ e, match e with EvQuery (InsertCreatives rows) => Some rows | _ => None end) t.
Definition project_inserts (t : list Event) : list NewProject :=
  omap (λ e, match e with EvQuery (InsertProject row) => Some row | _ => None end) t.
Definition downloads (t : list Event) : list (string * option Blob) :=
  omap (λ e, match e with EvDownload n _ b => Some (n, b) | _ => None end) t.

(** The events a run added to the trace. *)
Definition emitted {C D} (before : Sys C) (after : Sys D) : list Event :=
  drop (length (trace (world before))) (trace (world after)).

(** The numbers are exactly 1, 2, ..., N in list order. *)
Definition dense (l : list Z) : Prop :=
  l = Z.of_nat <$> seq 1 (length l).

(** What a handler may do to the world: append events, of which at most [k]
    are inserts into [projects], append at most as many records to the
    [projects] table as it issued inserts, and insert only batches of
    creatives numbered 1..N. *)
Definition frame (k : nat) (w w' : World) : Prop :=
  ∃ evs added,
    trace w' = trace w ++ evs ∧
    projects_tbl w' = projects_tbl w ++ added ∧
    (length added ≤ length (project_inserts evs))%nat ∧
    (length (project_inserts evs) ≤ k)%nat ∧
    Forall (λ rows, dense (nc_variation_number <$> rows)) (inserted_batches evs).

(** Clearing revokes the preview: the object URL shown as the logo preview in
    [picked] is revoked during the step to [cleared] and is no longer live. *)
Definition preview_revoked (picked cleared : Sys ProjectForm.State) : Prop :=
  let url := ProjectForm.logoPreview (ui picked) in
  url ∈ revoked (emitted picked cleared) ∧ object_urls (world cleared) !! url = None.

(** The world after the events [evs] were appended to its trace. *)
Definition emit_all (evs : list Event) (w : World) : World :=
  {| creatives_tbl := creatives_tbl w; projects_tbl := projects_tbl w; next_id := next_id w;
     object_urls := object_urls w; next_blob := next_blob w; trace := trace w ++ evs |}.

(** The items of the image loop whose fetch succeeded, with the bytes
    received; [i] is the index of the first item of [rest]. *)
Fixpoint fetched (a : CreativeGenerator.ZipAnswers) (i : nat)
    (rest : list GeneratedCreative.t) : list (GeneratedCreative.t * string) :=
  match rest with
  | [] => []
  | c :: rest' =>
      match CreativeGenerator.image_answer a i with
      | Image data => (c, data) :: fetched a (S i) rest'
      | _ => fetched a (S i) rest'
      end
  end.

(** The console entries expected for the items whose fetch failed. *)
Fixpoint failures (a : CreativeGenerator.ZipAnswers) (i : nat)
    (rest : list GeneratedCreative.t) : list (string * exn) :=
  match rest with
  | [] => []
  | c :: rest' =>
      match CreativeGenerator.image_answer a i with
      | Image _ => failures a (S i) rest'
      | FetchFailed e | BlobFailed e =>
          ("Failed to fetch image " +:+ pretty (Z.of_nat i + 1) +:+ ":", e)
          :: failures a (S i) rest'
      end
  end.

(** The events of the image loop. *)
Fixpoint loop_events (a : CreativeGenerator.ZipAnswers) (i : nat)
    (rest : list GeneratedCreative.t) : list Event :=
  match rest with
  | [] => []
  | c :: rest' =>
      EvGet (GeneratedCreative.image_url c) ::
      match CreativeGenerator.image_answer a i with
      | Image _ => loop_events a (S i) rest'
      | FetchFailed e | BlobFailed e =>
          EvConsoleError ("Failed to fetch image " +:+ pretty (Z.of_nat i + 1) +:+ ":") e
          :: loop_events a (S i) rest'
      end
  end.

Definition add_image (zip : Zip) (p : GeneratedCreative.t * string) : Zip :=
  CreativeGenerator.zip_file (CreativeGenerator.image_name p.1) (BlobEntry p.2) zip.

(** The archive holding the manifest of [items] and nothing else. *)
Definition manifest_zip (items : list GeneratedCreative.t) : Zip :=
  CreativeGenerator.zip_file "captions.txt"
    (TextEntry (CreativeGenerator.captionsText items)) ∅.

(** The archive built from the manifest of all [items] and the images of the
    items whose fetch succeeded. *)
Definition archive (a : CreativeGenerator.ZipAnswers) (items : list GeneratedCreative.t)
  : Zip :=
  foldl add_image (manifest_zip items) (fetched a 0 items).

(** One image file for each fetched item: the run hands over an archive that
    holds, besides the manifest, as many files as there are items whose fetch
    succeeded. *)
Definition archive_file_per_fetched_item (project : Project.t)
    (a : CreativeGenerator.ZipAnswers) (s : Sys CreativeGenerator.State) : Prop :=
  ∃ zip : Zip,
    downloads (emitted s (CreativeGenerator.downloadAsZip project a s).2)
    = [(CreativeGenerator.download_name project, Some (ZipBlob zip))] ∧
    "captions.txt" ∈ dom zip ∧
    size zip = S (length (fetched a 0 (CreativeGenerator.creatives (ui s)))).

(** The object URLs created during a trace. *)
Definition created_urls (t : list Event) : list string :=
  omap (λ e, match e with EvCreateObjectURL u => Some u | _ => None end) t.

(** The two notifications that come from the auth client rather than from a
    control on screen. *)
Definition is_auth_notification (act : App.Action) : bool :=
  match act with
  | App.SessionLoaded _ _ | App.AuthStateChange _ _ => true
  | _ => false
  end.

(** What holds of the application between two actions:
    - the generator's list holds only creatives of the selected project;
    - no handler is left busy;
    - the projects listed, and the selected one, are records of the store;
    - the form and a project are never open together. *)
Definition app_inv (s : Sys App.UI) : Prop :=
  let u := ui s in
  (∀ p, Dashboard.selectedProject (App.dashboard u) = Some p →
        Forall (λ c, GeneratedCreative.project_id c = Project.id p)
          (CreativeGenerator.creatives (App.generator u))) ∧
  (CreativeGenerator.generating (App.generator u) = false ∧
   CreativeGenerator.progress (App.generator u) = 0 ∧
   CreativeGenerator.downloadingZip (App.generator u) = false ∧
   ProjectForm.loading (App.form u) = false) ∧
  (Forall (λ p, p ∈ projects_tbl (world s)) (Dashboard.projects (App.dashboard u)) ∧
   ∀ p, Dashboard.selectedProject (App.dashboard u) = Some p →
        p ∈ projects_tbl (world s)) ∧
  (Dashboard.selectedProject (App.dashboard u) = None ∨
   Dashboard.showNewProject (App.dashboard u) = false).

(** More sample data. *)
Module Scenario.
Import CreativeGenerator.

(** The remote function answers 200 with a JSON object without [creatives]. *)
Definition no_array : GenerateAnswers :=
  {| session_answer := Some Demo.signed_in;
     http_answer := Responded {| ok := true; body := Json None |};
     delete_answer := None; insert_answer := None; reload_answer := None |}.

(** The remote function answers 500. *)
Definition server_error : GenerateAnswers :=
  {| session_answer := Some Demo.signed_in;
     http_answer :=
       Responded {| ok := false; body := NotJson (JsError "Unexpected token I in JSON") |};
     delete_answer := None; insert_answer := None; reload_answer := None |}.

(** The remote function answers 200 with an HTML page: [response.json()]
    rejects. *)
Definition not_json : GenerateAnswers :=
  {| session_answer := Some Demo.signed_in;
     http_answer :=
       Responded {| ok := true;
                    body := NotJson (JsError "Unexpected token < in JSON at position 0") |};
     delete_answer := None; insert_answer := None; reload_answer := None |}.

(** The generator view of the sample project after a generation whose delete
    was rejected: it lists the two earlier creatives and the three new ones,
    numbered 1, 1, 2, 2, 3. *)
Definition appended : Sys State :=
  (generateCreatives Demo.url Demo.key Demo.project Demo.delete_rejected
     (mkSys Demo.world initial)).2.

(** Every image is served; the image at index [i] is made of the bytes
    [image i]. *)
Definition all_images : ZipAnswers :=
  {| import_answer := None;
     image_answer := λ i, Image ("image " +:+ pretty i);
     generate_answer := None |}.

(** Everything is served except the reload after the insert. *)
Definition reload_rejected : GenerateAnswers :=
  {| session_answer := Some Demo.signed_in; http_answer := Demo.responded;
     delete_answer := None; insert_answer := None;
     reload_answer := Some (Rejected "timeout") |}.

Definition second_result : list RawCreative :=
  [ {| imageUrl := "https://img/x"; raw_caption := "X"; prompt := "prompt x" |} ].

(** A second generation, every call served, returning one creative. *)
Definition served_again : GenerateAnswers :=
  {| session_answer := Some Demo.signed_in;
     http_answer := Responded {| ok := true; body := Json (Some second_result) |};
     delete_answer := None; insert_answer := None; reload_answer := None |}.

(** The ZIP library cannot be imported. *)
Definition import_fails : ZipAnswers :=
  {| import_answer := Some (TypeError "Failed to fetch dynamically imported module");
     image_answer := λ _, Image "jpeg bytes";
     generate_answer := None |}.

(** The images are fetched but the archive cannot be generated. *)
Definition generation_fails : ZipAnswers :=
  {| import_answer := None;
     image_answer := λ _, Image "jpeg bytes";
     generate_answer := Some (JsError "out of memory") |}.

Definition plain_project : Project.t :=
  Project.mk "p3" "u1" "Acme" "Acme Corp" None None "2024-06-03T08:00:00Z".

Definition product : File := {| file_name := "shoe.png"; file_data := "png bytes" |}.

(** The project form alone, filled in, with a logo and a product image. *)
Definition filled : Sys ProjectForm.State :=
  mkSys Demo.world
    (ProjectForm.mkState "Winter Sale" "Acme" (Some Demo.logo) (Some product)
       "blob:0" "blob:1" false "").

Definition submit_answers (user : option User) (logo_upload product_upload insert : option exn)
  : ProjectForm.SubmitAnswers :=
  {| ProjectForm.user_answer := user;
     ProjectForm.logo_now := 1717236000000;
     ProjectForm.logo_upload_answer := logo_upload;
     ProjectForm.product_now := 1717236000001;
     ProjectForm.product_upload_answer := product_upload;
     ProjectForm.insert_answer := insert;
     ProjectForm.created_at_answer := "2024-06-02T09:00:00Z" |}.

Definition user : User := {| user_uid := "u1" |}.

(** The application on the filled-in form: signed in, form opened, name and
    brand typed, a logo picked. *)
Definition form_open : Sys App.UI :=
  App.run Demo.url Demo.key Demo.getPublicUrl (take 5 Demo.create_project)
    (mkSys Demo.world App.initial).

(** The application on the project list. *)
Definition on_list : Sys App.UI :=
  App.run Demo.url Demo.key Demo.getPublicUrl [App.SessionLoaded (Some Demo.signed_in) None]
    (mkSys Demo.world App.initial).

(** Clicks made while no dashboard is on screen. *)
Definition clicks : list App.Action :=
  [App.ClickNewProject; App.ClickProject 0 None; App.ClickGenerate Demo.all_served;
   App.TypeName "x"; App.ClickLogout].
End Scenario.

(** The rows of one project, in table order. *)
Definition project_rows (pid : string) (tbl : list GeneratedCreative.t)
  : list GeneratedCreative.t :=
  filter (belongs_to pid) tbl.

Lemma emitted_app {C D} (s : Sys C) (s' : Sys D) evs :
  trace (world s') = trace (world s) ++ evs → emitted s s' = evs.
Proof. intros E. unfold emitted. rewrite E. apply drop_app_length. Qed.

Ltac flatten_trace := simpl; rewrite <- ?app_assoc; simpl.

(** Replace [emitted s s'] by the list of events the run appended. *)
Ltac run_emitted := erewrite emitted_app by (flatten_trace; reflexivity).

(** ** Frames *)

Lemma frame_refl k w : frame k w w.
Proof. exists [], []. rewrite !app_nil_r. simpl. repeat split; try done; lia. Qed.

Lemma frame_trans k1 k2 w1 w2 w3 :
  frame k1 w1 w2 → frame k2 w2 w3 → frame (k1 + k2) w1 w3.
Proof.
  intros (e1 & a1 & Ht1 & Hp1 & Ha1 & Hk1 & Hd1) (e2 & a2 & Ht2 & Hp2 & Ha2 & Hk2 & Hd2).
  exists (e1 ++ e2), (a1 ++ a2).
  rewrite Ht2, Ht1, Hp2, Hp1, <- !app_assoc.
  unfold project_inserts, inserted_batches in *. rewrite !omap_app, !length_app.
  repeat split; try done; try lia. by apply Forall_app.
Qed.

Lemma frame_weaken k k' w w' : (k ≤ k')%nat → frame k w w' → frame k' w w'.
Proof.
  intros Hk (e & a & ? & ? & ? & ? & ?). exists e, a. repeat split; try done; lia.
Qed.

(** A run that appends events, none of them an insert into [projects], and
    keeps the [projects] table. *)
Lemma frame_events w w' evs :
  trace w' = trace w ++ evs →
  projects_tbl w' = projects_tbl w →
  project_inserts evs = [] →
  Forall (λ rows, dense (nc_variation_number <$> rows)) (inserted_batches evs) →
  frame 0 w w'.
Proof.
  intros Ht Hp Hi Hd. exists evs, []. rewrite app_nil_r, Hi. by repeat split.
Qed.

Lemma omap_cons_app {A B} (f : A → option B) x l1 l2 :
  omap f (x :: l1 ++ l2) = omap f [x] ++ omap f l1 ++ omap f l2.
Proof. change (x :: l1 ++ l2) with ([x] ++ l1 ++ l2). by rewrite !omap_app. Qed.

(** ** Lists and the store *)

Lemma map_index_length {A B} (f : A → nat → B) k l :
  length (map_index f k l) = length l.
Proof. revert k. induction l as [|x l IH]; intros k; simpl; [done|]. by rewrite IH. Qed.

Lemma map_index_lookup {A B} (f : A → nat → B) k l (i : nat) :
  map_index f k l !! i = (λ x, f x (k + i)%nat) <$> l !! i.
Proof.
  revert k i. induction l as [|x l IH]; intros k [|i]; simpl; try done.
  - by rewrite Nat.add_0_r.
  - rewrite IH. by replace (S k + i)%nat with (k + S i)%nat by lia.
Qed.

Lemma stored_rows_length id rows : length (stored_rows id rows) = length rows.
Proof. revert id. induction rows as [|r rows IH]; intros id; simpl; [done|]. by rewrite IH. Qed.

Lemma stored_rows_numbers id rows :
  GeneratedCreative.variation_number <$> stored_rows id rows
  = nc_variation_number <$> rows.
Proof. revert id. induction rows as [|r rows IH]; intros id; simpl; [done|]. by rewrite IH. Qed.

Lemma project_rows_stored pid id rows :
  Forall (λ r, nc_project_id r = pid) rows →
  project_rows pid (stored_rows id rows) = stored_rows id rows.
Proof.
  unfold project_rows. intros H. revert id.
  induction H as [|r rows Hr _ IH]; intros id; simpl; [done|].
  rewrite filter_cons, decide_True by exact Hr. by rewrite IH.
Qed.

Lemma project_rows_app pid l1 l2 :
  project_rows pid (l1 ++ l2) = project_rows pid l1 ++ project_rows pid l2.
Proof. apply filter_app. Qed.

Lemma project_rows_stored_other pid pid' id rows :
  Forall (λ r, nc_project_id r = pid) rows → pid' ≠ pid →
  project_rows pid' (stored_rows id rows) = [].
Proof.
  unfold project_rows. intros H Hne. revert id.
  induction H as [|r rows Hr _ IH]; intros id; simpl; [done|].
  rewrite filter_cons, decide_False; [apply IH|].
  unfold belongs_to. simpl. congruence.
Qed.

Lemma project_rows_deleted pid tbl :
  project_rows pid (delete_creatives pid tbl) = [].
Proof.
  unfold project_rows, delete_creatives.
  induction tbl as [|c tbl IH]; [done|].
  rewrite (filter_cons (λ c, ¬ belongs_to pid c)).
  destruct (decide (¬ belongs_to pid c)) as [Hc|Hc]; [|done].
  by rewrite filter_cons, decide_False.
Qed.

Lemma project_rows_other_deleted pid pid' tbl :
  pid' ≠ pid →
  project_rows pid' (delete_creatives pid tbl) = project_rows pid' tbl.
Proof.
  intros Hne. unfold project_rows, delete_creatives.
  induction tbl as [|c tbl IH]; [done|].
  rewrite (filter_cons (λ c, ¬ belongs_to pid c)), (filter_cons (belongs_to pid') c tbl).
  destruct (decide (¬ belongs_to pid c)) as [Hc|Hc].
  - rewrite filter_cons, IH. done.
  - rewrite IH, decide_False; [done|].
    intros Hc'. apply Hc. unfold belongs_to in *. congruence.
Qed.

Lemma select_creatives_sorted pid tbl : Sorted vn_le (select_creatives pid tbl).
Proof. apply Sorted_merge_sort. apply _. Qed.

Lemma select_creatives_perm pid tbl : select_creatives pid tbl ≡ₚ project_rows pid tbl.
Proof. apply merge_sort_Permutation. Qed.

Lemma sorted_numbers (l : list GeneratedCreative.t) :
  Sorted vn_le l → Sorted Z.le (GeneratedCreative.variation_number <$> l).
Proof. apply Sorted_fmap. by intros x y. Qed.

Lemma sorted_seq k n : Sorted Z.le (Z.of_nat <$> seq k n).
Proof.
  revert k. induction n as [|n IH]; intros k; simpl; [constructor|].
  constructor; [apply IH|]. destruct n; simpl; constructor. lia.
Qed.

(** Selecting a batch whose numbers are 1..N yields them in that order. *)
Lemma select_creatives_dense pid tbl :
  dense (GeneratedCreative.variation_number <$> project_rows pid tbl) →
  dense (GeneratedCreative.variation_number <$> select_creatives pid tbl).
Proof.
  unfold dense. rewrite !length_fmap. intros Hd.
  assert (Hp := select_creatives_perm pid tbl).
  rewrite (Permutation_length Hp).
  rewrite <- Hd.
  apply (Sorted_unique Z.le).
  - apply sorted_numbers, select_creatives_sorted.
  - rewrite Hd. apply sorted_seq.
  - by apply fmap_Permutation.
Qed.

(** ** generateCreatives *)

Section GenerateCreatives.
Import CreativeGenerator.
Context (supabaseUrl supabaseAnonKey : string) (project : Project.t).

Local Abbreviation generateCreatives := (generateCreatives supabaseUrl supabaseAnonKey project).
Local Abbreviation generate_outcome := (generate_outcome supabaseUrl supabaseAnonKey project).
Local Abbreviation generate_request := (generate_request supabaseUrl supabaseAnonKey project).
Local Abbreviation creativesToInsert := (creativesToInsert project).
Local Abbreviation pid := (Project.id project).

(** The try block ends normally exactly when a session exists, the remote
    function answers 2xx with a JSON body holding a creatives array, and the
    insert reports no error.  The answer to the delete plays no part. *)
Lemma generate_outcome_Ok a s :
  generate_outcome a s = Ok tt ↔
  ∃ sess result,
    session_answer a = Some sess ∧
    http_answer a = Responded {| ok := true; body := Json (Some result) |} ∧
    insert_answer a = None.
Proof.
  destruct s as [w c].
  destruct a as [[sess|] [e|[[|] [je|[cs|]]]] [de|] [ie|] [re|]];
    unfold generate_outcome; simpl; split;
    try discriminate; try done; try (intros (? & ? & ? & ? & ?); discriminate);
    try (intros _; by eexists _, _).
Qed.

Lemma creativesToInsert_numbers result :
  nc_variation_number <$> creativesToInsert result
  = Z.of_nat <$> seq 1 (length result).
Proof.
  unfold CreativeGenerator.creativesToInsert. generalize 0%nat.
  induction result as [|r result IH]; intros k; simpl; [done|].
  f_equal; [lia|]. apply IH.
Qed.

Lemma creativesToInsert_project result :
  Forall (λ r, nc_project_id r = pid) (creativesToInsert result).
Proof.
  unfold CreativeGenerator.creativesToInsert. generalize 0%nat.
  induction result as [|r result IH]; intros k; simpl; constructor; [done|apply IH].
Qed.

Lemma creativesToInsert_length result :
  length (creativesToInsert result) = length result.
Proof. apply map_index_length. Qed.

(** When every call including the delete is served, the project's stored
    rows are exactly the new batch and the other projects keep theirs. *)
Lemma generateCreatives_replaces a w c sess result :
  session_answer a = Some sess →
  http_answer a = Responded {| ok := true; body := Json (Some result) |} →
  delete_answer a = None →
  insert_answer a = None →
  let s' := (generateCreatives a (mkSys w c)).2 in
  project_rows pid (creatives_tbl (world s'))
  = stored_rows (next_id w) (creativesToInsert result) ∧
  ∀ pid', pid' ≠ pid →
    project_rows pid' (creatives_tbl (world s')) = project_rows pid' (creatives_tbl w).
Proof.
  destruct a as [? ? ? ? [re|]]; simpl; intros -> -> -> ->; simpl.
  all: split; [|intros pid' Hne]; rewrite project_rows_app.
  all: rewrite ?project_rows_deleted, ?project_rows_other_deleted by done.
  all: rewrite ?(project_rows_stored _ _ _ (creativesToInsert_project result)).
  all: rewrite ?(project_rows_stored_other _ _ _ _ (creativesToInsert_project result)) by done.
  all: by rewrite ?app_nil_r.
Qed.

(** When the delete resolves to an error and the rest is served, the try
    block still ends normally and the new batch is appended to the rows the
    project already had. *)
Lemma generateCreatives_delete_error_appends a w c sess result deleteError :
  session_answer a = Some sess →
  http_answer a = Responded {| ok := true; body := Json (Some result) |} →
  delete_answer a = Some deleteError →
  insert_answer a = None →
  let s' := (generateCreatives a (mkSys w c)).2 in
  generate_outcome a (mkSys w c) = Ok tt ∧
  project_rows pid (creatives_tbl (world s'))
  = project_rows pid (creatives_tbl w)
    ++ stored_rows (next_id w) (creativesToInsert result).
Proof.
  destruct a as [? ? ? ? [re|]]; simpl; intros -> -> -> ->;
    unfold CreativeGenerator.generate_outcome; simpl.
  all: split; [done|]; rewrite project_rows_app.
  all: by rewrite (project_rows_stored _ _ _ (creativesToInsert_project result)).
Qed.

Lemma delete_changes_store tbl :
  project_rows pid tbl ≠ [] → delete_creatives pid tbl ≠ tbl.
Proof.
  intros Hne Heq. apply Hne. rewrite <- Heq. apply project_rows_deleted.
Qed.

(** C5. A run of [generateCreatives] whose try block throws [e] is caught by
    the handler's own catch clause: the handler itself ends normally, it logs
    [e] once, raises the one generic alert and resets its flags.  No remote
    call is repeated (at most one POST, and of the queries at most the
    delete followed by the insert), and nothing is written back: the table
    afterwards is the table before, or the table before without the
    project's rows.  In particular, when the delete was served and the
    insert reports an error, the project is left with no stored row, so the
    store differs from the one before the run whenever a prior batch
    existed. *)
Theorem generateCreatives_failure_no_rollback a s e :
  generate_outcome a s = Throw e →
  let s' := (generateCreatives a s).2 in
  (generateCreatives a s).1 = Ok tt ∧
  console_errors (emitted s s') = [("Error generating creatives:", e)] ∧
  alerts (emitted s s') = ["Failed to generate creatives. Please try again."] ∧
  generating (ui s') = false ∧ progress (ui s') = 0 ∧
  creatives (ui s') = creatives (ui s) ∧
  (length (posts (emitted s s')) ≤ 1)%nat ∧
  (queries (emitted s s') = [] ∨
   queries (emitted s s') = [DeleteCreatives pid] ∨
   ∃ rows, queries (emitted s s') = [DeleteCreatives pid; InsertCreatives rows]) ∧
  (creatives_tbl (world s') = creatives_tbl (world s) ∨
   creatives_tbl (world s') = delete_creatives pid (creatives_tbl (world s))) ∧
  (∀ sess result insertError,
     session_answer a = Some sess →
     http_answer a = Responded {| ok := true; body := Json (Some result) |} →
     delete_answer a = None → insert_answer a = Some insertError →
     e = insertError ∧
     queries (emitted s s')
       = [DeleteCreatives pid; InsertCreatives (creativesToInsert result)] ∧
     creatives_tbl (world s') = delete_creatives pid (creatives_tbl (world s)) ∧
     project_rows pid (creatives_tbl (world s')) = [] ∧
     (project_rows pid (creatives_tbl (world s)) ≠ [] →
      creatives_tbl (world s') ≠ creatives_tbl (world s))).
Proof.
  destruct s as [w c].
  destruct a as [[sess|] [e'|[[|] [je|[cs|]]]] [de|] [ie|] [re|]];
    unfold CreativeGenerator.generate_outcome; simpl; intros He; try discriminate He;
    injection He as <-.
  all: run_emitted; simpl.
  all: repeat lazymatch goal with |- _ ∧ _ => split end; try done; try lia; eauto.
  all: try (intros ? ? ? [=] [=] [=] [=]; subst).
  all: repeat lazymatch goal with |- _ ∧ _ => split end;
         auto using project_rows_deleted, delete_changes_store.
Qed.

(** C6. With a session, a run performs exactly one POST, to the
    [generate-creatives] function endpoint, carrying the session's access
    token as a bearer token; when the response is 2xx with a JSON array, one
    insert is issued with one row per array element, in order, whose
    [image_url], [caption] and [generation_prompt] are the element's
    [imageUrl], [caption] and [prompt], and when that insert is served the
    rows are in the table.  Without a session no POST and no query is
    issued and the run fails with the alert. *)
Theorem generateCreatives_remote_call a s :
  let s' := (generateCreatives a s).2 in
  (∀ sess, session_answer a = Some sess →
     posts (emitted s s') = [generate_request sess] ∧
     req_url (generate_request sess)
       = supabaseUrl +:+ "/functions/v1/generate-creatives" ∧
     req_headers (generate_request sess) !! 0%nat
       = Some ("Authorization", "Bearer " +:+ access_token sess) ∧
     image_fetches (emitted s s') = [] ∧
     ∀ result,
       http_answer a = Responded {| ok := true; body := Json (Some result) |} →
       inserted_batches (emitted s s') = [creativesToInsert result] ∧
       (λ r, (nc_image_url r, nc_caption r, nc_generation_prompt r))
         <$> creativesToInsert result
       = (λ r, (imageUrl r, raw_caption r, prompt r)) <$> result ∧
       (insert_answer a = None →
        ∃ kept new_rows,
          creatives_tbl (world s') = kept ++ new_rows ∧
          (λ c, (GeneratedCreative.image_url c, GeneratedCreative.caption c,
                 GeneratedCreative.generation_prompt c)) <$> new_rows
          = (λ r, (imageUrl r, raw_caption r, prompt r)) <$> result)) ∧
  (session_answer a = None →
     posts (emitted s s') = [] ∧
     queries (emitted s s') = [] ∧
     generate_outcome a s = Throw (JsError "Not authenticated") ∧
     alerts (emitted s s') = ["Failed to generate creatives. Please try again."] ∧
     creatives_tbl (world s') = creatives_tbl (world s)).
Proof.
  assert (Hfields : ∀ result,
    (λ r, (nc_image_url r, nc_caption r, nc_generation_prompt r))
      <$> creativesToInsert result
    = (λ r, (imageUrl r, raw_caption r, prompt r)) <$> result).
  { intros result. unfold CreativeGenerator.creativesToInsert. generalize 0%nat.
    induction result as [|r result IH]; intros k; simpl; [done|]. by rewrite IH. }
  assert (Hstored : ∀ n rows,
    (λ c, (GeneratedCreative.image_url c, GeneratedCreative.caption c,
           GeneratedCreative.generation_prompt c)) <$> stored_rows n rows
    = (λ r, (nc_image_url r, nc_caption r, nc_generation_prompt r)) <$> rows).
  { intros n rows. revert n.
    induction rows as [|r rows IH]; intros n; simpl; [done|]. by rewrite IH. }
  destruct s as [w c].
  destruct a as [[sess|] [e'|[[|] [je|[cs|]]]] [de|] [ie|] [re|]];
    unfold CreativeGenerator.generate_outcome; simpl.
  all: run_emitted; simpl.
  all: split; [intros ? [=]; subst | intros [=]; try done].
  all: repeat lazymatch goal with |- _ ∧ _ => split end; try done.
  all: intros ? [=]; subst.
  all: repeat lazymatch goal with |- _ ∧ _ => split end; try done.
  all: intros _; eexists _, _; split; [reflexivity|]; by rewrite Hstored.
Qed.

(** One run.  A run whose try block ends normally asked the remote
    function for 12 variations and inserted one batch: one row per element
    of the response, numbered 1, 2, ..., N in the order of the response.
    These rows end the table.  When the delete was served they are all the
    rows the store holds for the project, and the list the view reloads
    carries the numbers 1..N in order. *)
Lemma generateCreatives_batch_numbers a s :
  generate_outcome a s = Ok tt →
  let s' := (generateCreatives a s).2 in
  ∃ sess result,
    session_answer a = Some sess ∧
    http_answer a = Responded {| ok := true; body := Json (Some result) |} ∧
    posts (emitted s s') = [generate_request sess] ∧
    variations (req_body (generate_request sess)) = 12 ∧
    inserted_batches (emitted s s') = [creativesToInsert result] ∧
    nc_variation_number <$> creativesToInsert result
      = Z.of_nat <$> seq 1 (length result) ∧
    (∃ kept, creatives_tbl (world s')
             = kept ++ stored_rows (next_id (world s)) (creativesToInsert result)) ∧
    (delete_answer a = None →
       GeneratedCreative.variation_number
         <$> project_rows pid (creatives_tbl (world s'))
       = Z.of_nat <$> seq 1 (length result) ∧
       (reload_answer a = None →
        GeneratedCreative.variation_number <$> creatives (ui s')
        = Z.of_nat <$> seq 1 (length result))).
Proof.
  intros Hok. destruct (proj1 (generate_outcome_Ok a s) Hok) as (sess & result & Hs & Hh & Hi).
  clear Hok. exists sess, result. destruct s as [w c].
  assert (Hbatch : ∀ s', project_rows pid (creatives_tbl s')
                          = stored_rows (next_id w) (creativesToInsert result) →
    GeneratedCreative.variation_number <$> project_rows pid (creatives_tbl s')
    = Z.of_nat <$> seq 1 (length result)).
  { intros s' ->. by rewrite stored_rows_numbers, creativesToInsert_numbers. }
  split; [done|]. split; [done|].
  destruct a as [? ? [de|] ? [re|]]; simpl in *; subst; simpl.
  all: run_emitted; simpl.
  all: repeat lazymatch goal with |- _ ∧ _ => split end; try done;
         eauto using creativesToInsert_numbers.
  all: intros _.
  all: assert (Hrows : project_rows pid
           (delete_creatives pid (creatives_tbl w)
            ++ stored_rows (next_id w) (creativesToInsert result))
         = stored_rows (next_id w) (creativesToInsert result))
       by (rewrite project_rows_app, project_rows_deleted;
           apply (project_rows_stored _ _ _ (creativesToInsert_project result))).
  all: split; [rewrite Hrows; by rewrite stored_rows_numbers, creativesToInsert_numbers|].
  all: intros [=].
  pose proof (select_creatives_dense pid
    (delete_creatives pid (creatives_tbl w)
     ++ stored_rows (next_id w) (creativesToInsert result))) as Hd.
  unfold dense in Hd. rewrite Hrows, stored_rows_numbers, creativesToInsert_numbers in Hd.
  rewrite !length_fmap, length_seq in Hd.
  specialize (Hd eq_refl).
  rewrite Hd. f_equal. f_equal.
  rewrite (Permutation_length (select_creatives_perm _ _)), Hrows.
  by rewrite stored_rows_length, creativesToInsert_length.
Qed.

Lemma creativesToInsert_dense result :
  dense (nc_variation_number <$> creativesToInsert result).
Proof.
  unfold dense. by rewrite creativesToInsert_numbers, length_fmap, length_seq.
Qed.

Ltac solve_frame :=
  eapply frame_events;
  [ flatten_trace; reflexivity | reflexivity | reflexivity
  | simpl; repeat constructor; apply creativesToInsert_dense ].

(** [loadCreatives] writes nothing; the list it leaves in the view is
    sorted by variation number. *)
Lemma loadCreatives_frame answer s :
  let s' := (loadCreatives project answer s).2 in
  frame 0 (world s) (world s') ∧
  (Sorted vn_le (creatives (ui s)) → Sorted vn_le (creatives (ui s'))).
Proof.
  destruct s as [w c]. destruct answer; simpl; (split; [solve_frame|]); try done.
  intros _. apply select_creatives_sorted.
Qed.

Lemma generateCreatives_frame a s :
  let s' := (generateCreatives a s).2 in
  frame 0 (world s) (world s') ∧
  (Sorted vn_le (creatives (ui s)) → Sorted vn_le (creatives (ui s'))).
Proof.
  destruct s as [w c].
  destruct a as [[sess|] [e'|[[|] [je|[cs|]]]] [de|] [ie|] [re|]]; simpl.
  all: (split; [solve_frame|]); try done.
  all: intros _; apply select_creatives_sorted.
Qed.

End GenerateCreatives.

(** ** downloadAsZip *)

(** ** The manifest and the files of the archive *)

Lemma string_app_assoc (s t u : string) : (s +:+ t) +:+ u = s +:+ t +:+ u.
Proof.
  induction s as [|c s IH]; [done|].
  change (String c ((s +:+ t) +:+ u) = String c (s +:+ t +:+ u)). by rewrite IH.
Qed.

Lemma join_app (l1 l2 : list string) : join (l1 ++ l2) = join l1 +:+ join l2.
Proof.
  induction l1 as [|s l1 IH]; [done|].
  change (s +:+ join (l1 ++ l2) = (s +:+ join l1) +:+ join l2).
  by rewrite IH, string_app_assoc.
Qed.

Lemma map_index_app {A B} (f : A → nat → B) k l1 l2 :
  map_index f k (l1 ++ l2)
  = map_index f k l1 ++ map_index f (k + length l1) l2.
Proof.
  revert k. induction l1 as [|x l1 IH]; intros k; simpl.
  - by rewrite Nat.add_0_r.
  - rewrite IH. by replace (S k + length l1)%nat with (k + S (length l1))%nat by lia.
Qed.

Section DownloadAsZip.
Import CreativeGenerator.
Context (project : Project.t).

Local Abbreviation downloadAsZip := (downloadAsZip project).
Local Abbreviation download_outcome := (download_outcome project).
Local Abbreviation download_name := (download_name project).

Lemma emit_all_nil w : emit_all [] w = w.
Proof. destruct w. unfold emit_all. simpl. by rewrite app_nil_r. Qed.

Lemma emit_all_emit e evs w : emit_all evs (emit e w) = emit_all (e :: evs) w.
Proof. unfold emit_all, emit. simpl. by rewrite <- app_assoc. Qed.

(** The image loop never throws: it visits every item, adds a file for each
    fetch that succeeded and logs each one that failed. *)
Lemma fetch_images_run a i rest zip w c :
  fetch_images a i rest zip (mkSys w c)
  = (Ok (foldl add_image zip (fetched a i rest)),
     mkSys (emit_all (loop_events a i rest) w) c).
Proof.
  revert i zip w. induction rest as [|x rest IH]; intros i zip w.
  - simpl. by rewrite emit_all_nil.
  - cbn [fetch_images fetched loop_events].
    change (fetch_images a i (x :: rest) zip)
      with (fetch_image a i x zip ≫= λ zip', fetch_images a (S i) rest zip').
    unfold mbind, M_bind, fetch_image, try_catch, fetch_blob.
    destruct (image_answer a i); simpl; rewrite IH; simpl;
      by rewrite !emit_all_emit.
Qed.

Lemma image_name_not_manifest c : image_name c ≠ "captions.txt".
Proof. unfold image_name. simpl. discriminate. Qed.

Lemma archive_manifest a items :
  archive a items !! "captions.txt" = Some (TextEntry (captionsText items)).
Proof.
  unfold archive.
  assert (H : manifest_zip items !! "captions.txt" = Some (TextEntry (captionsText items)))
    by apply lookup_insert_eq.
  revert H. generalize (manifest_zip items). generalize (fetched a 0 items).
  induction l as [|[c d] l IH]; intros zip H; simpl; [done|].
  apply IH. unfold add_image, zip_file. simpl.
  rewrite lookup_insert_ne; [done|apply image_name_not_manifest].
Qed.

Lemma foldl_add_image_dom l (zip : Zip) :
  dom (foldl add_image zip l) = dom zip ∪ list_to_set (image_name <$> l.*1).
Proof.
  revert zip. induction l as [|[c d] l IH]; intros zip; simpl.
  - set_solver.
  - rewrite IH. unfold add_image, zip_file. simpl. rewrite dom_insert_L. set_solver.
Qed.

(** The files of the archive: the manifest and one file per fetched item. *)
Lemma archive_dom a items :
  dom (archive a items)
  = {["captions.txt"]} ∪ list_to_set (image_name <$> (fetched a 0 items).*1).
Proof.
  unfold archive. rewrite foldl_add_image_dom.
  unfold manifest_zip, zip_file. rewrite dom_insert_L, dom_empty_L. set_solver.
Qed.

Lemma fetched_spec a k rest c d :
  (c, d) ∈ fetched a k rest ↔
  ∃ i, rest !! i = Some c ∧ image_answer a (k + i) = Image d.
Proof.
  revert k. induction rest as [|x rest IH]; intros k; simpl.
  - split; [by intros ?%elem_of_nil | by intros (i & ? & _)].
  - assert (Hrest : (∃ i, rest !! i = Some c ∧ image_answer a (S k + i) = Image d) ↔
                    (∃ i, (x :: rest) !! S i = Some c ∧ image_answer a (k + S i) = Image d)).
    { split; intros (i & ? & ?); exists i; by rewrite <- ?Nat.add_succ_comm in *. }
    destruct (image_answer a k) as [e|e|data] eqn:Hk.
    1,2: rewrite IH, Hrest; split;
      [ intros (i & ? & ?); by exists (S i)
      | intros ([|i] & Hi & Hd); [rewrite Nat.add_0_r in Hd; congruence | by exists i] ].
    rewrite elem_of_cons, IH, Hrest. split.
    + intros [[= -> ->]|(i & ? & ?)]; [exists 0%nat; by rewrite Nat.add_0_r | by exists (S i)].
    + intros ([|i] & Hi & Hd).
      * left. rewrite Nat.add_0_r in Hd. simpl in Hi. congruence.
      * right. by exists i.
Qed.

Lemma failures_spec a k rest i c e :
  rest !! i = Some c →
  image_answer a (k + i) = FetchFailed e ∨ image_answer a (k + i) = BlobFailed e →
  ("Failed to fetch image " +:+ pretty (Z.of_nat (k + i) + 1) +:+ ":", e)
    ∈ failures a k rest.
Proof.
  revert k i. induction rest as [|x rest IH]; intros k [|i] Hi He; simpl in *; try done.
  - rewrite Nat.add_0_r in *.
    destruct He as [-> | ->]; apply elem_of_cons; by left.
  - rewrite <- Nat.add_succ_comm in *.
    destruct (image_answer a k); rewrite ?elem_of_cons; eauto.
Qed.

Lemma loop_events_fetches a i rest :
  image_fetches (loop_events a i rest) = GeneratedCreative.image_url <$> rest.
Proof.
  revert i. induction rest as [|x rest IH]; intros i; [done|].
  simpl. destruct (image_answer a i); simpl; by rewrite ?IH.
Qed.

Lemma loop_events_console a i rest :
  console_errors (loop_events a i rest) = failures a i rest.
Proof.
  revert i. induction rest as [|x rest IH]; intros i; [done|].
  simpl. destruct (image_answer a i); simpl; by rewrite ?IH.
Qed.

Lemma loop_events_quiet a i rest :
  alerts (loop_events a i rest) = [] ∧ downloads (loop_events a i rest) = [] ∧
  queries (loop_events a i rest) = [] ∧ revoked (loop_events a i rest) = [].
Proof.
  revert i. induction rest as [|x rest IH]; intros i; [done|].
  simpl. destruct (image_answer a i); simpl; apply IH.
Qed.

Ltac step_download :=
  cbv beta iota zeta delta
    [mbind M_bind mret M_ret get modify throw on_world set_ui world ui
     try_catch_finally try_finally try_catch console_error alert
     createObjectURL revokeObjectURL click_download
     setDownloadingZip CreativeGenerator.downloadAsZip download_try
     CreativeGenerator.download_outcome import_answer generate_answer].

(** What the try block of [downloadAsZip] throws, if anything. *)
Lemma download_outcome_eq a s :
  download_outcome a s =
  match import_answer a, generate_answer a with
  | Some e, _ => Throw e
  | None, Some e => Throw e
  | None, None => Ok tt
  end.
Proof.
  destruct s as [w c]. destruct a as [[ie|] img [ge|]]; step_download;
    rewrite ?fetch_images_run; by step_download.
Qed.

(** The events of a run of [downloadAsZip]. *)
Lemma downloadAsZip_trace a w c :
  let url := "blob:" +:+ pretty (next_blob w) in
  let failed e :=
    [EvConsoleError "Error creating zip:" e;
     EvAlert "Failed to download zip file. Please try again."] in
  trace (world (downloadAsZip a (mkSys w c)).2)
  = trace w ++ EvImport jszip_url ::
      match import_answer a with
      | Some e => failed e
      | None =>
          loop_events a 0 (creatives c) ++
          match generate_answer a with
          | Some e => failed e
          | None =>
              [EvCreateObjectURL url;
               EvDownload download_name url (Some (ZipBlob (archive a (creatives c))));
               EvRevokeObjectURL url]
          end
      end.
Proof.
  destruct a as [[ie|] img [ge|]]; step_download;
    rewrite ?fetch_images_run; step_download; simpl;
    rewrite ?lookup_insert_eq, <- ?app_assoc; reflexivity.
Qed.

(** The observable part of a run whose import succeeded. *)
Lemma downloadAsZip_emitted a s :
  import_answer a = None →
  let s' := (downloadAsZip a s).2 in
  let items := creatives (ui s) in
  image_fetches (emitted s s') = GeneratedCreative.image_url <$> items ∧
  match generate_answer a with
  | Some e =>
      console_errors (emitted s s') = failures a 0 items ++ [("Error creating zip:", e)] ∧
      alerts (emitted s s') = ["Failed to download zip file. Please try again."] ∧
      downloads (emitted s s') = []
  | None =>
      console_errors (emitted s s') = failures a 0 items ∧
      alerts (emitted s s') = [] ∧
      downloads (emitted s s') = [(download_name, Some (ZipBlob (archive a items)))]
  end.
Proof.
  intros Hi. destruct s as [w c]. cbv zeta.
  pose proof (downloadAsZip_trace a w c) as Ht. cbv beta zeta in Ht.
  unfold emitted. change (world (mkSys w c)) with w. change (ui (mkSys w c)) with c.
  rewrite Ht, drop_app_length. clear Ht. rewrite Hi.
  destruct (loop_events_quiet a 0 (creatives c)) as (Ha & Hd & _ & _).
  unfold image_fetches, console_errors, alerts, downloads in *.
  rewrite !omap_cons_app.
  fold (image_fetches (loop_events a 0 (creatives c))).
  fold (console_errors (loop_events a 0 (creatives c))).
  rewrite loop_events_fetches, loop_events_console, Ha, Hd.
  destruct (generate_answer a); simpl; by rewrite ?app_nil_r.
Qed.

Lemma archive_files a items name :
  name ∈ dom (archive a items) ↔
  name = "captions.txt" ∨
  ∃ (i : nat) c d, items !! i = Some c ∧ image_answer a i = Image d ∧
                   name = image_name c.
Proof.
  rewrite archive_dom, elem_of_union, elem_of_singleton, elem_of_list_to_set.
  rewrite list_elem_of_fmap. setoid_rewrite list_elem_of_fmap.
  split; (intros [->|H]; [by left|right]).
  - destruct H as (c & -> & [c' d] & -> & H). simpl.
    apply fetched_spec in H as (i & ? & ?). by exists i, c', d.
  - destruct H as (i & c & d & Hi & Hd & ->).
    exists c. split; [done|]. exists (c, d). split; [done|].
    apply fetched_spec. by exists i.
Qed.

(** The manifest of a list is the manifest of the items before position [i],
    then the entry of the item at [i], written out, then the entries of the
    items after it. *)
Lemma captionsText_entry (items : list GeneratedCreative.t) (i : nat) c :
  items !! i = Some c →
  ∃ rest,
    captionsText items
    = captionsText (take i items) +:+
      "Image " +:+ pretty (Z.of_nat i + 1) +:+ ":" +:+ LF +:+
      GeneratedCreative.caption c +:+ LF +:+ LF +:+
      "Prompt: " +:+ GeneratedCreative.generation_prompt c +:+ LF +:+ LF +:+
      "---" +:+ LF +:+ LF +:+ rest ∧
    (S i = length items → rest = "").
Proof.
  intros Hi.
  exists (join (map_index manifest_entry (S i) (drop (S i) items))). split.
  - rewrite <- (take_drop_middle items i c Hi) at 1.
    unfold captionsText. rewrite map_index_app, join_app.
    rewrite length_take_le by (apply Nat.lt_le_incl; by eapply lookup_lt_Some).
    simpl map_index.
    change (join (?x :: ?l)) with (x +:+ join l).
    unfold manifest_entry. by rewrite !string_app_assoc.
  - intros Hl. rewrite drop_ge by lia. done.
Qed.

Lemma fetched_snoc a k l x :
  fetched a k (l ++ [x])
  = fetched a k l ++
    match image_answer a (k + length l) with
    | Image d => [(x, d)]
    | _ => []
    end.
Proof.
  revert k. induction l as [|y l IH]; intros k; simpl.
  - rewrite Nat.add_0_r. by destruct (image_answer a k).
  - replace (k + S (length l))%nat with (S k + length l)%nat by lia.
    rewrite IH. by destruct (image_answer a k).
Qed.

(** The image files of the archive built over [items], starting from an
    archive [zip0] without image file: the file named [name] holds the bytes
    received for the last item bearing that name whose fetch succeeded. *)
Lemma foldl_add_image_lookup a (zip0 : Zip) items name d :
  (∀ n b, zip0 !! n ≠ Some (BlobEntry b)) →
  foldl add_image zip0 (fetched a 0 items) !! name = Some (BlobEntry d) ↔
  ∃ (i : nat) c,
    items !! i = Some c ∧ image_answer a i = Image d ∧ image_name c = name ∧
    ∀ (j : nat) c' d', (i < j)%nat → items !! j = Some c' →
                       image_answer a j = Image d' → image_name c' ≠ name.
Proof.
  intros H0. revert d. induction items as [|x items IH] using rev_ind; intros d.
  - simpl. split; [intros H; by apply H0 in H | by intros (i & c & ? & _)].
  - rewrite fetched_snoc, foldl_app. simpl.
    set (n := length items).
    assert (Hlast : ∀ (i : nat) c, (items ++ [x]) !! i = Some c →
                      (i < n)%nat ∧ items !! i = Some c ∨ i = n ∧ x = c).
    { intros i c. by rewrite lookup_snoc_Some. }
    assert (Hkeep : ∀ d0, image_name x ≠ name ∨ (∀ d', image_answer a n ≠ Image d') →
      (∃ (i : nat) c,
         items !! i = Some c ∧ image_answer a i = Image d0 ∧ image_name c = name ∧
         ∀ (j : nat) c' d', (i < j)%nat → items !! j = Some c' →
                            image_answer a j = Image d' → image_name c' ≠ name) ↔
      (∃ (i : nat) c,
         (items ++ [x]) !! i = Some c ∧ image_answer a i = Image d0 ∧
         image_name c = name ∧
         ∀ (j : nat) c' d', (i < j)%nat → (items ++ [x]) !! j = Some c' →
                            image_answer a j = Image d' → image_name c' ≠ name)).
    { intros d0 Hx. split.
      - intros (i & c & Hi & Hd & Hn & Hlater). exists i, c.
        split; [by apply lookup_app_l_Some|]. split; [done|]. split; [done|].
        intros j c' d' Hij Hj Hd'.
        apply Hlast in Hj as [[_ Hj]|[-> <-]]; [by eapply Hlater|].
        destruct Hx as [Hx|Hx]; [done|]. by apply Hx in Hd'.
      - intros (i & c & Hi & Hd & Hn & Hlater).
        apply Hlast in Hi as [[Hlt Hi]|[-> <-]].
        + exists i, c. split; [done|]. split; [done|]. split; [done|].
          intros j c' d' Hij Hj Hd'. eapply Hlater; [done| |done].
          by apply lookup_app_l_Some.
        + destruct Hx as [Hx|Hx]; [done|]. by apply Hx in Hd. }
    destruct (image_answer a n) as [e|e|dx] eqn:Hn; simpl.
    1,2: rewrite IH; apply Hkeep; right; intros d'; rewrite ?Hn; discriminate.
    unfold add_image, zip_file. simpl.
    destruct (decide (image_name x = name)) as [Hx|Hx].
    + rewrite Hx, lookup_insert_eq. split.
      * intros [= <-]. exists n, x.
        split; [by apply list_lookup_middle|]. split; [done|]. split; [done|].
        intros j c' d' Hj Hc'. apply lookup_lt_Some in Hc'.
        rewrite length_app in Hc'. simpl in Hc'. unfold n in Hj. lia.
      * intros (i & c & Hi & Hd & _ & Hlater).
        apply Hlast in Hi as [[Hlt _]|[-> _]]; [|congruence].
        exfalso. apply (Hlater n x dx Hlt); [by apply list_lookup_middle|done|done].
    + rewrite lookup_insert_ne by done. rewrite IH. apply Hkeep. by left.
Qed.

(** The archive of a run: which bytes the file [name] holds. *)
Lemma archive_blob a items name d :
  archive a items !! name = Some (BlobEntry d) ↔
  ∃ (i : nat) c,
    items !! i = Some c ∧ image_answer a i = Image d ∧ image_name c = name ∧
    ∀ (j : nat) c' d', (i < j)%nat → items !! j = Some c' →
                       image_answer a j = Image d' → image_name c' ≠ name.
Proof.
  apply foldl_add_image_lookup. intros n b. unfold manifest_zip, zip_file.
  destruct (decide (n = "captions.txt")) as [->|Hn].
  - by rewrite lookup_insert_eq.
  - by rewrite lookup_insert_ne, lookup_empty.
Qed.

(** The iterations over the first [k] items leave the archive built from the
    items among them whose fetch succeeded. *)
Lemma fetch_images_prefix a (k : nat) items zip0 (s0 : Sys State) :
  (fetch_images a 0 (take k items) zip0 s0).1
  = Ok (foldl add_image zip0 (fetched a 0 (take k items))).
Proof. destruct s0 as [w c]. by rewrite fetch_images_run. Qed.

(** The iteration of an item whose fetch throws leaves the archive as the
    iterations before it left it. *)
Lemma failed_iteration_adds_nothing a items (i : nat) c e zip0 (s0 : Sys State) :
  items !! i = Some c →
  image_answer a i = FetchFailed e ∨ image_answer a i = BlobFailed e →
  (fetch_images a 0 (take (S i) items) zip0 s0).1
  = (fetch_images a 0 (take i items) zip0 s0).1.
Proof.
  intros Hi He. rewrite !fetch_images_prefix.
  rewrite (take_S_r _ _ _ Hi), fetched_snoc. simpl.
  rewrite length_take_le by (apply Nat.lt_le_incl; by eapply lookup_lt_Some).
  destruct He as [-> | ->]; by rewrite app_nil_r.
Qed.

(** C3. Whether the try block of [downloadAsZip] ends normally depends only
    on the import of the ZIP library and on the generation of the archive,
    never on the image fetches.  Once the library is imported every item is
    fetched, in list order, whatever happened to the items before it; a
    fetch that throws is logged under the item's position, and its iteration
    leaves the archive as the iterations before it left it.  When the
    archive is generated it is handed over for download without an alert.
    Its [captions.txt] is the manifest of the whole list: for every item,
    fetched or not, it holds the entry headed by the item's position, with
    its caption and prompt, after the entries of the items before it.  Every
    item whose fetch succeeded has its file in the archive, and a file holds
    bytes [d] exactly when [d] was received for an item bearing the file's
    name and no later item bearing that name was fetched.  No file stems
    from a failed fetch: the file name of a failed item is absent exactly
    when no item that was fetched bears the same name. *)
Theorem downloadAsZip_fetch_failures_not_fatal a s :
  let s' := (downloadAsZip a s).2 in
  let items := creatives (ui s) in
  (download_outcome a s = Ok tt ↔ import_answer a = None ∧ generate_answer a = None) ∧
  (import_answer a = None →
     image_fetches (emitted s s') = GeneratedCreative.image_url <$> items ∧
     ∀ (i : nat) c e, items !! i = Some c →
       image_answer a i = FetchFailed e ∨ image_answer a i = BlobFailed e →
       ("Failed to fetch image " +:+ pretty (Z.of_nat i + 1) +:+ ":", e)
         ∈ console_errors (emitted s s') ∧
       ∀ zip0 (s0 : Sys State),
         (fetch_images a 0 (take (S i) items) zip0 s0).1
         = (fetch_images a 0 (take i items) zip0 s0).1) ∧
  (import_answer a = None → generate_answer a = None →
     ∃ zip,
       downloads (emitted s s') = [(download_name, Some (ZipBlob zip))] ∧
       alerts (emitted s s') = [] ∧
       zip !! "captions.txt" = Some (TextEntry (captionsText items)) ∧
       length (map_index manifest_entry 0 items) = length items ∧
       (∀ (i : nat) c, items !! i = Some c →
          ∃ rest,
            captionsText items
            = captionsText (take i items) +:+
              "Image " +:+ pretty (Z.of_nat i + 1) +:+ ":" +:+ LF +:+
              GeneratedCreative.caption c +:+ LF +:+ LF +:+
              "Prompt: " +:+ GeneratedCreative.generation_prompt c +:+ LF +:+ LF +:+
              "---" +:+ LF +:+ LF +:+ rest ∧
            (S i = length items → rest = "")) ∧
       (∀ name, name ∈ dom zip → name ≠ "captions.txt" →
          ∃ (i : nat) c d, items !! i = Some c ∧ image_answer a i = Image d ∧
                           name = image_name c) ∧
       (∀ (i : nat) c d, items !! i = Some c → image_answer a i = Image d →
          image_name c ∈ dom zip) ∧
       (∀ name d,
          zip !! name = Some (BlobEntry d) ↔
          ∃ (i : nat) c,
            items !! i = Some c ∧ image_answer a i = Image d ∧ image_name c = name ∧
            ∀ (j : nat) c' d', (i < j)%nat → items !! j = Some c' →
                               image_answer a j = Image d' → image_name c' ≠ name) ∧
       (∀ (i : nat) c e, items !! i = Some c →
          image_answer a i = FetchFailed e ∨ image_answer a i = BlobFailed e →
          (zip !! image_name c = None ↔
           ∀ (j : nat) c' d, items !! j = Some c' → image_answer a j = Image d →
                             image_name c' ≠ image_name c))).
Proof.
  simpl. split; [|split].
  - rewrite download_outcome_eq.
    destruct (import_answer a), (generate_answer a); naive_solver.
  - intros Hi. destruct (downloadAsZip_emitted a s Hi) as [Hf Hrest].
    split; [done|]. intros i c e Hc He. split.
    + pose proof (failures_spec a 0 _ i c e Hc He) as Hin.
      destruct (generate_answer a); destruct Hrest as (-> & _ & _);
        [apply elem_of_app; by left | done].
    + intros zip0 s0. by eapply failed_iteration_adds_nothing.
  - intros Hi Hg. destruct (downloadAsZip_emitted a s Hi) as [_ Hrest].
    rewrite Hg in Hrest. destruct Hrest as (_ & Ha & Hd).
    exists (archive a (creatives (ui s))).
    split; [done|]. split; [done|]. split; [apply archive_manifest|].
    split; [apply map_index_length|].
    split; [intros i c Hc; by apply captionsText_entry|].
    split; [|split; [|split; [apply archive_blob|]]].
    + intros name Hin Hne. apply archive_files in Hin as [?|?]; done.
    + intros i c d Hc Hd'. apply archive_files. right. by exists i, c, d.
    + intros i c e Hc He. rewrite <- not_elem_of_dom. split.
      * intros Hout j c' d Hj Hd' Hn. apply Hout, archive_files. right.
        by exists j, c', d.
      * intros Hother Hin.
        apply archive_files in Hin as [Hm|(j & c' & d & Hj & Hd' & Hn)].
        -- by apply image_name_not_manifest in Hm.
        -- by apply (Hother j c' d Hj Hd').
Qed.

Lemma loop_events_no_inserts a i rest :
  project_inserts (loop_events a i rest) = [] ∧
  inserted_batches (loop_events a i rest) = [].
Proof.
  revert i. induction rest as [|x rest IH]; intros i; [done|].
  simpl. destruct (image_answer a i); simpl; apply IH.
Qed.

(** [downloadAsZip] writes nothing to the store and keeps the list. *)
Lemma downloadAsZip_frame a s :
  let s' := (downloadAsZip a s).2 in
  frame 0 (world s) (world s') ∧ creatives (ui s') = creatives (ui s).
Proof.
  destruct s as [w c]. cbv zeta.
  pose proof (downloadAsZip_trace a w c) as Ht. cbv beta zeta in Ht.
  destruct (loop_events_no_inserts a 0 (creatives c)) as [Hp Hb].
  revert Ht.
  destruct a as [[ie|] img [ge|]]; step_download;
    rewrite ?fetch_images_run; step_download.
  all: intros Ht; (split; [|done]).
  all: eapply frame_events; [exact Ht|reflexivity|..].
  all: unfold project_inserts, inserted_batches in *;
       rewrite ?omap_cons_app, ?Hp, ?Hb; simpl; try done.
Qed.

End DownloadAsZip.

(** ** Strings *)

Lemma string_length_app (s t : string) :
  String.length (s +:+ t) = (String.length s + String.length t)%nat.
Proof.
  induction s as [|c s IH]; [done|].
  change (S (String.length (s +:+ t)) = S (String.length s + String.length t)).
  by rewrite IH.
Qed.

Lemma string_app_inv_tail (s1 s2 t : string) : s1 +:+ t = s2 +:+ t → s1 = s2.
Proof.
  revert s2. induction s1 as [|c s1 IH]; intros [|c' s2] H.
  - done.
  - apply (f_equal String.length) in H. rewrite !string_length_app in H.
    simpl in H. lia.
  - apply (f_equal String.length) in H. rewrite !string_length_app in H.
    simpl in H. lia.
  - change (String c (s1 +:+ t) = String c' (s2 +:+ t)) in H.
    injection H as -> H. f_equal. by apply IH.
Qed.

Section Numbering.
Import CreativeGenerator.

(** Files named alike carry the same variation number. *)
Lemma image_name_number c (n : Z) :
  image_name c = "creative_" +:+ pretty n +:+ ".jpg" ↔
  GeneratedCreative.variation_number c = n.
Proof.
  unfold image_name. split; [|by intros ->].
  intros H. apply (inj (String.append "creative_")) in H.
  apply string_app_inv_tail in H. by apply (inj pretty) in H.
Qed.

Lemma numbers_by_position (items : list GeneratedCreative.t) :
  (∀ (i : nat) c, items !! i = Some c →
     GeneratedCreative.variation_number c = Z.of_nat i + 1) ↔
  GeneratedCreative.variation_number <$> items = Z.of_nat <$> seq 1 (length items).
Proof.
  split.
  - intros H. apply list_eq. intros i.
    rewrite !list_lookup_fmap.
    destruct (items !! i) as [c|] eqn:Hi; simpl.
    + rewrite (lookup_seq_lt _ _ _ (lookup_lt_Some _ _ _ Hi)). simpl.
      f_equal. rewrite (H i c Hi). lia.
    + rewrite lookup_seq_ge; [done|]. by apply lookup_ge_None.
  - intros H i c Hi.
    assert (Hi' := f_equal (.!! i) H). simpl in Hi'.
    rewrite !list_lookup_fmap, Hi in Hi'.
    rewrite (lookup_seq_lt _ _ _ (lookup_lt_Some _ _ _ Hi)) in Hi'. simpl in Hi'.
    injection Hi' as ->. lia.
Qed.

(** C10. In the manifest the item at (0-based) index [i] is headed
    [Image i+1:], whatever its stored number, while its image file is
    called [creative_<variation_number>.jpg].  Every file carries the number
    printed in the manifest entry of its item if and only if the variation
    numbers of the list are exactly 1, 2, ..., N in list order. *)
Theorem manifest_numbering_vs_file_names (items : list GeneratedCreative.t) :
  captionsText items = join (map_index manifest_entry 0 items) ∧
  (∀ (i : nat) c, items !! i = Some c →
     map_index manifest_entry 0 items !! i = Some (manifest_entry c i) ∧
     (∃ rest, manifest_entry c i = "Image " +:+ pretty (Z.of_nat i + 1) +:+ ":" +:+ rest) ∧
     image_name c
     = "creative_" +:+ pretty (GeneratedCreative.variation_number c) +:+ ".jpg") ∧
  ((∀ (i : nat) c, items !! i = Some c →
      image_name c = "creative_" +:+ pretty (Z.of_nat i + 1) +:+ ".jpg") ↔
   GeneratedCreative.variation_number <$> items
   = Z.of_nat <$> seq 1 (length items)).
Proof.
  split; [done|]. split.
  - intros i c Hi. split; [|split; [|done]].
    + by rewrite map_index_lookup, Hi.
    + by eexists.
  - rewrite <- numbers_by_position.
    split; intros H i c Hi; apply image_name_number; by apply H.
Qed.

End Numbering.

(** ** The files of the archive *)

Section ArchiveContents.
Import CreativeGenerator.
Context (project : Project.t).

Local Abbreviation file := (λ n : Z, "creative_" +:+ pretty n +:+ ".jpg").
Local Abbreviation number := GeneratedCreative.variation_number.

Lemma file_inj (n m : Z) : file n = file m → n = m.
Proof.
  intros H. apply (inj (String.append "creative_")) in H.
  apply string_app_inv_tail in H. by apply (inj pretty) in H.
Qed.

(** The file named for a fetched item is an image file. *)
Lemma archive_file_exists a items (i : nat) c d :
  items !! i = Some c → image_answer a i = Image d →
  ∃ d', archive a items !! image_name c = Some (BlobEntry d').
Proof.
  intros Hc Hd.
  assert (Hin : (c, d) ∈ fetched a 0 items) by (apply fetched_spec; by exists i).
  unfold archive. revert Hin. generalize (manifest_zip items).
  generalize (fetched a 0 items).
  assert (Hkeep : ∀ l (zip : Zip) d0,
            zip !! image_name c = Some (BlobEntry d0) →
            ∃ d', foldl add_image zip l !! image_name c = Some (BlobEntry d')).
  { induction l as [|[c1 d1] l IH]; intros zip d0 Hz; simpl; [by eexists|].
    unfold add_image at 2, zip_file. simpl.
    destruct (decide (image_name c1 = image_name c)) as [->|Hne].
    - apply (IH _ d1). apply lookup_insert_eq.
    - apply (IH _ d0). by rewrite lookup_insert_ne. }
  induction l as [|[c1 d1] l IH]; intros zip Hin; [by apply elem_of_nil in Hin|].
  simpl. apply elem_of_cons in Hin as [[= <- <-]|Hin]; [|by apply IH].
  apply (Hkeep _ _ d). unfold add_image, zip_file. simpl. apply lookup_insert_eq.
Qed.

(** The archive has one file besides the manifest for each variation number
    borne by a fetched item. *)
Lemma archive_size a items :
  ∃ numbers : list Z,
    NoDup numbers ∧
    (∀ n, n ∈ numbers ↔
          ∃ (i : nat) c d, items !! i = Some c ∧ image_answer a i = Image d ∧
                           number c = n) ∧
    size (archive a items) = S (length numbers).
Proof.
  exists (remove_dups (number <$> (fetched a 0 items).*1)).
  split; [apply NoDup_remove_dups|]. split.
  - intros n. rewrite elem_of_remove_dups, list_elem_of_fmap.
    setoid_rewrite list_elem_of_fmap. split.
    + intros (c & -> & [c' d] & -> & Hin). simpl.
      apply fetched_spec in Hin as (i & ? & ?). by exists i, c', d.
    + intros (i & c & d & Hi & Hd & <-). exists c. split; [done|].
      exists (c, d). split; [done|]. apply fetched_spec. by exists i.
  - rewrite <- size_dom, archive_dom.
    assert (Hset : list_to_set (image_name <$> (fetched a 0 items).*1)
                   =@{gset string}
                   list_to_set (file <$> remove_dups (number <$> (fetched a 0 items).*1))).
    { apply set_eq. intros name. rewrite !elem_of_list_to_set. split.
      - intros (c & -> & Hc)%list_elem_of_fmap. apply list_elem_of_fmap.
        exists (number c). split; [done|].
        apply elem_of_remove_dups, list_elem_of_fmap. by exists c.
      - intros (n & -> & Hn)%list_elem_of_fmap.
        apply elem_of_remove_dups, list_elem_of_fmap in Hn as (c & -> & Hc).
        apply list_elem_of_fmap. by exists c. }
    rewrite Hset, size_union, size_singleton, size_list_to_set, length_fmap; [done| |].
    + apply NoDup_fmap_2_strong; [|apply NoDup_remove_dups].
      intros n m _ _. apply file_inj.
    + intros name ->%elem_of_singleton Hin.
      apply elem_of_list_to_set, list_elem_of_fmap in Hin as (n & Hn & _). discriminate Hn.
Qed.

(** C4, as stated, fails.  After a generation whose delete was rejected the
    view lists five creatives numbered 1, 1, 2, 2, 3.  All five images are
    fetched, but the archive handed over holds the manifest and three image
    files, not five. *)
Lemma downloadAsZip_shared_number_shares_file :
  ¬ archive_file_per_fetched_item Demo.project Scenario.all_images Scenario.appended.
Proof.
  intros (zip & Hd & _ & Hsize).
  destruct (downloadAsZip_emitted Demo.project Scenario.all_images Scenario.appended
              eq_refl) as [_ (_ & _ & Hd')].
  rewrite Hd' in Hd. injection Hd as <-.
  vm_compute in Hsize. discriminate Hsize.
Qed.

(** C4, amended.  When the list is not empty and the try block of
    [downloadAsZip] ends normally, exactly one download is triggered; its
    file name is the project name with each run of white space replaced by
    an underscore, followed by [_creatives.zip]; its content is a ZIP
    archive whose files are [captions.txt], holding the manifest, and, for
    every item whose fetch succeeded, a binary file
    [creative_<variation_number>.jpg], and no other file.  The file of a
    number holds the bytes received for the last item of the list that bears
    this number and was fetched: items that share a variation number share
    one file, so the archive has one image file for each number borne by a
    fetched item.  When the variation numbers of the list are pairwise
    distinct, every fetched item has its own file, holding its own image. *)
Theorem downloadAsZip_archive_contents a s :
  creatives (ui s) ≠ [] →
  download_outcome project a s = Ok tt →
  let s' := (downloadAsZip project a s).2 in
  let items := creatives (ui s) in
  ∃ zip : Zip,
    downloads (emitted s s')
    = [(replace_space_runs false (Project.name project) +:+ "_creatives.zip",
        Some (ZipBlob zip))] ∧
    zip !! "captions.txt" = Some (TextEntry (captionsText items)) ∧
    (∀ name, name ∈ dom zip ↔
       name = "captions.txt" ∨
       ∃ (i : nat) c d, items !! i = Some c ∧ image_answer a i = Image d ∧
         name = "creative_" +:+ pretty (GeneratedCreative.variation_number c) +:+ ".jpg") ∧
    (∀ (n : Z) d,
       zip !! ("creative_" +:+ pretty n +:+ ".jpg") = Some (BlobEntry d) ↔
       ∃ (i : nat) c,
         items !! i = Some c ∧ image_answer a i = Image d ∧
         GeneratedCreative.variation_number c = n ∧
         ∀ (j : nat) c' d', (i < j)%nat → items !! j = Some c' →
                            image_answer a j = Image d' →
                            GeneratedCreative.variation_number c' ≠ n) ∧
    (∀ (i : nat) c d, items !! i = Some c → image_answer a i = Image d →
       ∃ (j : nat) c' d',
         (i ≤ j)%nat ∧ items !! j = Some c' ∧ image_answer a j = Image d' ∧
         GeneratedCreative.variation_number c' = GeneratedCreative.variation_number c ∧
         zip !! ("creative_" +:+ pretty (GeneratedCreative.variation_number c) +:+ ".jpg")
         = Some (BlobEntry d')) ∧
    (∃ numbers : list Z,
       NoDup numbers ∧
       (∀ n, n ∈ numbers ↔
             ∃ (i : nat) c d, items !! i = Some c ∧ image_answer a i = Image d ∧
                              GeneratedCreative.variation_number c = n) ∧
       size zip = S (length numbers)) ∧
    (NoDup (GeneratedCreative.variation_number <$> items) →
     ∀ (i : nat) c d, items !! i = Some c → image_answer a i = Image d →
       zip !! ("creative_" +:+ pretty (GeneratedCreative.variation_number c) +:+ ".jpg")
       = Some (BlobEntry d)).
Proof.
  intros _ Hok. simpl.
  rewrite download_outcome_eq in Hok.
  destruct (import_answer a) eqn:Hi; [done|].
  destruct (generate_answer a) eqn:Hg; [done|].
  destruct (downloadAsZip_emitted project a s Hi) as [_ Hrest].
  rewrite Hg in Hrest. destruct Hrest as (_ & _ & Hd).
  set (items := creatives (ui s)) in *.
  assert (Hblob : ∀ (n : Z) d,
    archive a items !! file n = Some (BlobEntry d) ↔
    ∃ (i : nat) c,
      items !! i = Some c ∧ image_answer a i = Image d ∧ number c = n ∧
      ∀ (j : nat) c' d', (i < j)%nat → items !! j = Some c' →
                         image_answer a j = Image d' → number c' ≠ n).
  { intros n d. rewrite archive_blob. split.
    - intros (i & c & Hc & Hd' & Hn & Hlater). exists i, c.
      split; [done|]. split; [done|]. split; [by apply image_name_number|].
      intros j c' d' Hij Hj Hd'' Hn'. apply (Hlater j c' d' Hij Hj Hd'').
      by apply image_name_number.
    - intros (i & c & Hc & Hd' & Hn & Hlater). exists i, c.
      split; [done|]. split; [done|]. split; [by apply image_name_number|].
      intros j c' d' Hij Hj Hd'' Hn'. apply (Hlater j c' d' Hij Hj Hd'').
      by apply image_name_number. }
  exists (archive a items).
  split; [done|]. split; [apply archive_manifest|]. split; [apply archive_files|].
  split; [exact Hblob|]. split; [|split; [apply archive_size|]].
  - intros i c d Hc Hd'.
    destruct (archive_file_exists a items i c d Hc Hd') as [d' Hfile].
    destruct (proj1 (Hblob (number c) d') Hfile) as (j & c' & Hj & Hd'' & Hn & Hlater).
    exists j, c', d'. split; [|done].
    destruct (decide (i ≤ j)%nat) as [|Hlt]; [done|].
    exfalso. apply (Hlater i c d); [lia|done|done|done].
  - intros Hnd i c d Hc Hd'. apply Hblob. exists i, c.
    split; [done|]. split; [done|]. split; [done|].
    intros j c' d' Hij Hj _ Hn.
    assert (i = j); [|lia].
    apply (NoDup_lookup _ _ _ (number c) Hnd); rewrite list_lookup_fmap.
    + by rewrite Hc.
    + rewrite Hj. simpl. by rewrite Hn.
Qed.

End ArchiveContents.

(** ** The application as a whole *)

Section Application.
Import App.
Context (supabaseUrl supabaseAnonKey : string).
Context (getPublicUrl : string → string → string).

Local Abbreviation step := (step supabaseUrl supabaseAnonKey getPublicUrl).
Local Abbreviation run := (run supabaseUrl supabaseAnonKey getPublicUrl).

Ltac solve_frame :=
  eapply frame_events;
  [ flatten_trace; reflexivity | reflexivity | reflexivity
  | simpl; repeat constructor ].

Lemma zoom_run {C A} (get_c : UI → C) (put_c : C → UI → UI) (m : M (Sys C) A) s :
  (zoom get_c put_c m s).2
  = mkSys (world (m (mkSys (world s) (get_c (ui s)))).2)
          (put_c (ui (m (mkSys (world s) (get_c (ui s)))).2) (ui s)).
Proof. unfold zoom. by destruct (m _). Qed.

Lemma loadProjects_frame answer s :
  frame 0 (world s) (world (loadProjects answer s).2).
Proof. destruct s as [w u]. destruct answer; simpl; solve_frame. Qed.

Lemma loadProjects_generator answer s :
  generator (ui (loadProjects answer s).2) = generator (ui s).
Proof. destruct s as [w u]. by destruct answer. Qed.

Lemma app_update_frame f answer s :
  frame 0 (world s) (world (app_update f answer s).2).
Proof.
  destruct s as [w u]. unfold app_update.
  cbv beta iota zeta delta [mbind M_bind get set_ui modify world ui].
  destruct (_ && _); [|apply frame_refl].
  apply (loadProjects_frame answer (mkSys w _)).
Qed.

Lemma app_update_generator f answer s :
  (∀ u, generator (f u) = generator u) →
  generator (ui (app_update f answer s).2) = generator (ui s).
Proof.
  intros Hf. destruct s as [w u]. unfold app_update.
  cbv beta iota zeta delta [mbind M_bind get set_ui modify world ui].
  destruct (_ && _); [|simpl; apply Hf].
  change (generator (ui (loadProjects answer
            (mkSys w (put_dashboard Dashboard.initial (f u)))).2) = generator u).
  rewrite loadProjects_generator. simpl. apply Hf.
Qed.

(** A submit issues at most one insert into [projects] and appends at most
    one record. *)
Lemma handleSubmit_frame a ra s :
  let s' := (ProjectForm.handleSubmit form put_form getPublicUrl
               (Dashboard.handleProjectCreated dashboard put_dashboard ra) a s).2 in
  frame 1 (world s) (world s') ∧ generator (ui s') = generator (ui s).
Proof.
  destruct s as [w [sess load dash gen [nm bn lf pf lp pp ld er]]].
  destruct a as [[user|] ln [le|] pn [pe|] [ie|] now], lf as [lf|], pf as [pf|], ra as [re|].
  all: simpl; (split; [|done]).
  all: try (eapply (frame_weaken 0 1); [lia|]; solve_frame).
  all: first
    [ eexists _, []; split; [flatten_trace; reflexivity|];
        split; [by rewrite app_nil_r|]; simpl; repeat split; try lia; constructor
    | eexists _, [_]; split; [flatten_trace; reflexivity|];
        split; [reflexivity|]; simpl; repeat split; try lia; constructor ].
Qed.

(** One action: at most one insert into [projects], and only for a submit;
    the generator's list stays sorted. *)
Lemma step_frame act s :
  let s' := (step act s).2 in
  frame (if is_submit act then 1 else 0) (world s) (world s') ∧
  (Sorted vn_le (CreativeGenerator.creatives (generator (ui s))) →
   Sorted vn_le (CreativeGenerator.creatives (generator (ui s')))).
Proof.
  destruct s as [w u]. cbv zeta.
  destruct act; unfold App.step.
  all: cbv beta iota zeta delta [mbind M_bind get is_submit].
  all: change (ui (mkSys w u)) with u.
  3-16: destruct (screen u) as [| | | |prj] eqn:Hscr;
          try (split; [apply frame_refl|done]).
  - (* SessionLoaded *)
    change (on_world (emit EvGetSession) (mkSys w u))
      with ((Ok tt, mkSys (emit EvGetSession w) u) : Res unit * Sys UI).
    cbv beta iota. split.
    + apply (frame_trans 0 0 _ (emit EvGetSession w)); [solve_frame|].
      apply (app_update_frame _ _ (mkSys _ u)).
    + by rewrite app_update_generator.
  - (* AuthStateChange *)
    split; [apply app_update_frame|]. by rewrite app_update_generator.
  - (* ClickLogout *)
    simpl. split; [solve_frame|done].
  - (* ClickProject *)
    destruct (_ !! _) as [selected|]; [|split; [apply frame_refl|done]].
    cbv beta iota zeta delta [Dashboard.setSelectedProject Dashboard.set_dash set_ui modify].
    rewrite zoom_run. simpl.
    destruct (loadCreatives_frame selected load_answer (mkSys w CreativeGenerator.initial))
      as [Hf Hs].
    split; [exact Hf|]. intros _. apply Hs. constructor.
  - (* ClickGenerate *)
    unfold when. destruct (negb _); [|split; [apply frame_refl|done]].
    rewrite zoom_run. simpl.
    apply (generateCreatives_frame _ _ _ _ (mkSys w _)).
  - (* ClickDownloadZip *)
    unfold when. destruct (_ && _); [|split; [apply frame_refl|done]].
    rewrite zoom_run. simpl.
    destruct (downloadAsZip_frame prj a (mkSys w (generator u))) as [Hf Hc].
    split; [exact Hf|]. simpl in Hc. by rewrite Hc.
  - (* SelectLogo *) simpl. split; [solve_frame|done].
  - (* SelectProduct *) simpl. split; [solve_frame|done].
  - (* Submit *)
    unfold when. destruct (_ && _); [|split; [apply frame_refl|done]].
    destruct (handleSubmit_frame a reload_answer (mkSys w u)) as [Hf Hg].
    split; [exact Hf|]. by rewrite Hg.
Qed.

Lemma run_frame acts s :
  frame (length (filter (λ act, is_submit act = true) acts)) (world s) (world (run acts s)).
Proof.
  revert s. induction acts as [|act acts IH]; intros s; simpl.
  - apply frame_refl.
  - rewrite filter_cons.
    destruct (step_frame act s) as [Hstep _].
    destruct (decide (is_submit act = true)) as [Hs|Hs].
    + rewrite Hs in Hstep. apply (frame_trans 1 _ _ _ _ Hstep), IH.
    + destruct (is_submit act); [done|].
      apply (frame_trans 0 _ _ _ _ Hstep), IH.
Qed.

Lemma run_sorted acts s :
  Sorted vn_le (CreativeGenerator.creatives (generator (ui s))) →
  Sorted vn_le (CreativeGenerator.creatives (generator (ui (run acts s)))).
Proof.
  revert s. induction acts as [|act acts IH]; intros s Hs; simpl; [done|].
  apply IH. by apply step_frame.
Qed.

(** C7. Whatever the sequence of actions, the records present in the
    [projects] table stay where they are, unchanged: the table afterwards is
    the table before followed by new records, at most one per submit of the
    project form.  Every query the actions issue against [projects] is a
    select or an insert, and there are no more inserts than submits. *)
Theorem projects_immutable_after_creation acts s :
  let s' := run acts s in
  let submits := length (filter (λ act, is_submit act = true) acts) in
  (∃ added, projects_tbl (world s') = projects_tbl (world s) ++ added ∧
            (length added ≤ submits)%nat) ∧
  (∀ (i : nat) p, projects_tbl (world s) !! i = Some p →
                  projects_tbl (world s') !! i = Some p) ∧
  Forall (λ q, table_of q = projects → verb_of q = select ∨ verb_of q = insert)
    (queries (emitted s s')) ∧
  (length (project_inserts (emitted s s')) ≤ submits)%nat.
Proof.
  cbv zeta. destruct (run_frame acts s) as (evs & added & Ht & Hp & Ha & Hk & _).
  rewrite (emitted_app _ _ _ Ht). repeat split.
  - exists added. split; [done|lia].
  - intros i p Hi. rewrite Hp. by apply lookup_app_l_Some.
  - apply Forall_forall. intros [] _; simpl; auto; discriminate.
  - done.
Qed.

(** C9. From the initial application state, after any sequence of actions,
    the list held by the generator view is sorted by ascending variation
    number.  The list comes from [loadCreatives], which stores the rows of
    the project as the store returns them, ordered by variation number.  The
    grid renders one card per element in list order, and a ZIP download
    started in that state writes the manifest entries and fetches the images
    in the same order. *)
Theorem generator_creatives_sorted acts w :
  let s' := run acts (mkSys w App.initial) in
  let view := generator (ui s') in
  let items := CreativeGenerator.creatives view in
  Sorted Z.le (GeneratedCreative.variation_number <$> items) ∧
  (∀ project w0 c,
     CreativeGenerator.creatives
       (ui (CreativeGenerator.loadCreatives project None (mkSys w0 c)).2)
     = select_creatives (Project.id project) (creatives_tbl w0) ∧
     Sorted Z.le (GeneratedCreative.variation_number
                    <$> select_creatives (Project.id project) (creatives_tbl w0))) ∧
  (CreativeGenerator.loading view = false → items ≠ [] →
     CreativeGenerator.grid view
     = CreativeGenerator.Cards (CreativeGenerator.card <$> items)) ∧
  (∀ project a,
     CreativeGenerator.import_answer a = None →
     let s0 := mkSys (world s') view in
     let s1 := (CreativeGenerator.downloadAsZip project a s0).2 in
     image_fetches (emitted s0 s1) = GeneratedCreative.image_url <$> items ∧
     (CreativeGenerator.generate_answer a = None →
      ∃ zip, downloads (emitted s0 s1)
             = [(CreativeGenerator.download_name project, Some (ZipBlob zip))] ∧
             zip !! "captions.txt"
             = Some (TextEntry
                       (join (map_index CreativeGenerator.manifest_entry 0 items))))).
Proof.
  cbv zeta. split; [|split; [|split]].
  - apply sorted_numbers, run_sorted. constructor.
  - intros project w0 c. split; [done|].
    apply sorted_numbers, select_creatives_sorted.
  - intros Hl Hne. unfold CreativeGenerator.grid. rewrite Hl.
    by rewrite decide_False.
  - intros project a Hi.
    destruct (downloadAsZip_emitted project a (mkSys (world (run acts (mkSys w App.initial)))
                (generator (ui (run acts (mkSys w App.initial))))) Hi) as [Hf Hrest].
    split; [exact Hf|]. intros Hg. rewrite Hg in Hrest. destruct Hrest as (_ & _ & Hd).
    eexists. split; [exact Hd|]. apply archive_manifest.
Qed.

End Application.

(** ** Variation numbers *)

(** The numbering of an inserted batch.  (One run.)  A run of
    [generateCreatives] whose try block ends normally
    asked the remote function for 12 variations and inserted one batch: one
    row per element of the response, numbered 1, 2, ..., N in the order of
    the response.  These rows end the table; when the delete was served they
    are all the rows stored for the project, and when moreover the reload is
    served the view holds them with the numbers 1..N in order.
    (Any session of use.)  Every batch inserted by any sequence of actions
    carries the numbers 1..N in order. *)
Lemma inserted_batches_numbered :
  (∀ supabaseUrl supabaseAnonKey project a s,
     CreativeGenerator.generate_outcome supabaseUrl supabaseAnonKey project a s = Ok tt →
     let s' := (CreativeGenerator.generateCreatives supabaseUrl supabaseAnonKey project a s).2 in
     let request := CreativeGenerator.generate_request supabaseUrl supabaseAnonKey project in
     let batch := CreativeGenerator.creativesToInsert project in
     ∃ sess result,
       CreativeGenerator.session_answer a = Some sess ∧
       CreativeGenerator.http_answer a
         = Responded {| ok := true; body := Json (Some result) |} ∧
       posts (emitted s s') = [request sess] ∧
       variations (req_body (request sess)) = 12 ∧
       inserted_batches (emitted s s') = [batch result] ∧
       nc_variation_number <$> batch result = Z.of_nat <$> seq 1 (length result) ∧
       (∃ kept, creatives_tbl (world s')
                = kept ++ stored_rows (next_id (world s)) (batch result)) ∧
       (CreativeGenerator.delete_answer a = None →
          GeneratedCreative.variation_number
            <$> project_rows (Project.id project) (creatives_tbl (world s'))
          = Z.of_nat <$> seq 1 (length result) ∧
          (CreativeGenerator.reload_answer a = None →
           GeneratedCreative.variation_number <$> CreativeGenerator.creatives (ui s')
           = Z.of_nat <$> seq 1 (length result)))) ∧
  (∀ supabaseUrl supabaseAnonKey getPublicUrl acts s,
     Forall (λ rows, dense (nc_variation_number <$> rows))
       (inserted_batches
          (emitted s (App.run supabaseUrl supabaseAnonKey getPublicUrl acts s)))).
Proof.
  split.
  - intros. by apply generateCreatives_batch_numbers.
  - intros url key gpu acts s.
    destruct (run_frame url key gpu acts s) as (evs & added & Ht & _ & _ & _ & Hd).
    by rewrite (emitted_app _ _ _ Ht).
Qed.

(** ** Replacing the stored batch *)

(** C1. In the sample store the project has a batch of two creatives.  The
    remote function returns three creatives, the delete resolves to an error
    (which [generateCreatives] does not look at) and the insert is served.
    The try block ends normally and no alert is raised, yet the project's
    stored rows are the two old rows followed by the three new ones, and the
    view shows five creatives numbered 1, 1, 2, 2, 3. *)
Theorem generateCreatives_unchecked_delete_appends :
  let s := mkSys Demo.world CreativeGenerator.initial in
  let s' := (CreativeGenerator.generateCreatives Demo.url Demo.key Demo.project
               Demo.delete_rejected s).2 in
  CreativeGenerator.generate_outcome Demo.url Demo.key Demo.project Demo.delete_rejected s
  = Ok tt ∧
  alerts (emitted s s') = [] ∧
  console_errors (emitted s s') = [] ∧
  project_rows "p1" (creatives_tbl (world s'))
  = project_rows "p1" (creatives_tbl Demo.world)
    ++ stored_rows 3 (CreativeGenerator.creativesToInsert Demo.project Demo.result) ∧
  length (project_rows "p1" (creatives_tbl Demo.world)) = 2%nat ∧
  GeneratedCreative.variation_number <$> CreativeGenerator.creatives (ui s')
  = [1; 1; 2; 2; 3].
Proof. vm_compute. repeat split. Qed.

(** ** Numbering after an unchecked delete *)

Lemma seq_not_after_rows (old : list Z) (n : nat) :
  old ≠ [] → n ≠ 0%nat → ¬ dense (old ++ (Z.of_nat <$> seq 1 n)).
Proof.
  intros Hold Hn Hd. unfold dense in Hd.
  assert (Hm : (0 < length old)%nat) by (destruct old; [done|simpl; lia]).
  apply (f_equal (.!! length old)) in Hd.
  rewrite lookup_app_r, Nat.sub_diag in Hd by lia.
  rewrite !list_lookup_fmap, length_app, length_fmap, length_seq in Hd.
  rewrite !lookup_seq_lt in Hd by lia. simpl in Hd.
  injection Hd as Hd. lia.
Qed.

Lemma dense_NoDup (l : list Z) : dense l → NoDup l.
Proof.
  intros ->. apply (NoDup_fmap_2 _). apply NoDup_seq.
Qed.

(** C2.  A run of [generateCreatives] whose delete resolves to an error,
    the other calls being served, ends normally and without an alert.  The
    batch it inserts is numbered 1, 2, ..., N in the order of the response,
    but the rows stored for the project are then the rows it had before
    followed by that batch: when the project had a row and the response an
    element, their variation numbers are not 1..N' in order.  When the
    reload is served, the view shows these rows sorted, and as soon as one
    of the earlier rows bears a number between 1 and N the numbers shown are
    not 1..N' either: some number is shown twice. *)
Theorem generateCreatives_unchecked_delete_breaks_density
    supabaseUrl supabaseAnonKey project a s sess result deleteError :
  CreativeGenerator.session_answer a = Some sess →
  CreativeGenerator.http_answer a
    = Responded {| ok := true; body := Json (Some result) |} →
  CreativeGenerator.delete_answer a = Some deleteError →
  CreativeGenerator.insert_answer a = None →
  project_rows (Project.id project) (creatives_tbl (world s)) ≠ [] →
  result ≠ [] →
  let s' := (CreativeGenerator.generateCreatives supabaseUrl supabaseAnonKey project a s).2 in
  let before :=
    GeneratedCreative.variation_number
      <$> project_rows (Project.id project) (creatives_tbl (world s)) in
  let stored :=
    GeneratedCreative.variation_number
      <$> project_rows (Project.id project) (creatives_tbl (world s')) in
  let shown := GeneratedCreative.variation_number <$> CreativeGenerator.creatives (ui s') in
  CreativeGenerator.generate_outcome supabaseUrl supabaseAnonKey project a s = Ok tt ∧
  alerts (emitted s s') = [] ∧
  inserted_batches (emitted s s') = [CreativeGenerator.creativesToInsert project result] ∧
  nc_variation_number <$> CreativeGenerator.creativesToInsert project result
    = Z.of_nat <$> seq 1 (length result) ∧
  stored = before ++ (Z.of_nat <$> seq 1 (length result)) ∧
  ¬ dense stored ∧
  (CreativeGenerator.reload_answer a = None →
     shown ≡ₚ stored ∧ Sorted Z.le shown ∧
     ((∃ n, n ∈ before ∧ 1 ≤ n ≤ Z.of_nat (length result)) → ¬ dense shown)).
Proof.
  intros Hs Hh Hd Hi Hrows Hres. cbv zeta. destruct s as [w c].
  destruct (generateCreatives_delete_error_appends supabaseUrl supabaseAnonKey project
              a w c sess result deleteError Hs Hh Hd Hi) as [Hok Happ].
  cbv zeta in Happ.
  assert (Hstored :
    GeneratedCreative.variation_number
      <$> project_rows (Project.id project)
            (creatives_tbl (world (CreativeGenerator.generateCreatives supabaseUrl
                                     supabaseAnonKey project a (mkSys w c)).2))
    = (GeneratedCreative.variation_number
         <$> project_rows (Project.id project) (creatives_tbl w))
      ++ (Z.of_nat <$> seq 1 (length result))).
  { rewrite Happ, fmap_app, stored_rows_numbers. f_equal.
    apply creativesToInsert_numbers. }
  split; [exact Hok|].
  destruct (generateCreatives_batch_numbers supabaseUrl supabaseAnonKey project a
              (mkSys w c) Hok) as (sess' & result' & _ & Hh' & _ & _ & Hb & _).
  rewrite Hh in Hh'. injection Hh' as <-.
  assert (Ha : alerts (emitted (mkSys w c)
                 (CreativeGenerator.generateCreatives supabaseUrl supabaseAnonKey project a
                    (mkSys w c)).2) = []).
  { destruct a as [? ? ? ? [re|]]; simpl in *; subst; simpl; by run_emitted. }
  split; [exact Ha|]. split; [exact Hb|].
  split; [apply creativesToInsert_numbers|]. split; [exact Hstored|].
  split.
  { rewrite Hstored. apply seq_not_after_rows.
    - intros Hnil. apply fmap_nil_inv in Hnil. by apply Hrows.
    - destruct result; [done|simpl; lia]. }
  intros Hr.
  assert (Hview : CreativeGenerator.creatives
                    (ui (CreativeGenerator.generateCreatives supabaseUrl supabaseAnonKey
                           project a (mkSys w c)).2)
                  = select_creatives (Project.id project)
                      (creatives_tbl (world (CreativeGenerator.generateCreatives supabaseUrl
                                               supabaseAnonKey project a (mkSys w c)).2))).
  { destruct a as [? ? ? ? ?]; simpl in *; subst; by simpl. }
  rewrite Hview. split; [apply fmap_Permutation, select_creatives_perm|].
  split; [apply sorted_numbers, select_creatives_sorted|].
  intros (n & Hn & Hrange) Hdense. apply dense_NoDup in Hdense.
  rewrite (fmap_Permutation _ _ _ (select_creatives_perm _ _)), Hstored in Hdense.
  apply NoDup_app in Hdense as (_ & Hdisj & _).
  apply (Hdisj n Hn). apply list_elem_of_fmap.
  exists (Z.to_nat n). split; [lia|]. apply elem_of_seq. lia.
Qed.


(** ** Clearing an upload *)

Section ClearUpload.
Import ProjectForm.

(** The form's handlers over the form's own cells. *)
Local Abbreviation handleLogoSelect := (handleLogoSelect id (λ c _, c)).
Local Abbreviation handleProductSelect := (handleProductSelect id (λ c _, c)).
Local Abbreviation onClearLogo := (onClearLogo id (λ c _, c)).
Local Abbreviation onClearProduct := (onClearProduct id (λ c _, c)).

(** C8, as stated, fails: after picking a logo and clearing it, the preview's
    object URL has not been revoked. *)
Lemma clear_does_not_revoke_preview : ¬ preview_revoked Demo.picked Demo.cleared.
Proof. intros [H _]. vm_compute in H. by apply elem_of_nil in H. Qed.

(** C8, amended.  Picking a file stores it and shows a fresh object URL as
    its preview.  Clearing resets the file to [null] and the preview to the
    empty string.  The clear handler emits no event, so it revokes nothing,
    and the object URL created at selection time is still live. *)
Theorem clear_resets_preview_without_revoking file (s : Sys State) :
  let url := "blob:" +:+ pretty (next_blob (world s)) in
  (let picked := (handleLogoSelect file s).2 in
   let cleared := (onClearLogo picked).2 in
   logoFile (ui picked) = Some file ∧ logoPreview (ui picked) = url ∧
   object_urls (world picked) !! url = Some (FileBlob file) ∧
   logoFile (ui cleared) = None ∧ logoPreview (ui cleared) = "" ∧
   emitted picked cleared = [] ∧
   object_urls (world cleared) !! url = Some (FileBlob file)) ∧
  (let picked := (handleProductSelect file s).2 in
   let cleared := (onClearProduct picked).2 in
   productFile (ui picked) = Some file ∧ productPreview (ui picked) = url ∧
   object_urls (world picked) !! url = Some (FileBlob file) ∧
   productFile (ui cleared) = None ∧ productPreview (ui cleared) = "" ∧
   emitted picked cleared = [] ∧
   object_urls (world cleared) !! url = Some (FileBlob file)).
Proof.
  destruct s as [w c]. unfold emitted. simpl.
  rewrite drop_all, lookup_insert_eq. by repeat split.
Qed.

End ClearUpload.

(** ** The theorems at the sample data *)

Lemma generateCreatives_unchecked_delete_breaks_density_witness :
  let s := mkSys Demo.world CreativeGenerator.initial in
  let s' := (CreativeGenerator.generateCreatives Demo.url Demo.key Demo.project
               Demo.delete_rejected s).2 in
  project_rows "p1" (creatives_tbl Demo.world) ≠ [] ∧ Demo.result ≠ [] ∧
  GeneratedCreative.variation_number <$> project_rows "p1" (creatives_tbl (world s'))
  = [1; 2; 1; 2; 3] ∧
  ¬ dense (GeneratedCreative.variation_number
             <$> project_rows "p1" (creatives_tbl (world s'))) ∧
  GeneratedCreative.variation_number <$> CreativeGenerator.creatives (ui s') = [1; 1; 2; 2; 3] ∧
  ¬ dense (GeneratedCreative.variation_number <$> CreativeGenerator.creatives (ui s')).
Proof.
  cbv zeta.
  assert (Hrows : project_rows "p1" (creatives_tbl Demo.world) ≠ [])
    by (vm_compute; discriminate).
  assert (Hres : Demo.result ≠ []) by discriminate.
  split; [exact Hrows|]. split; [exact Hres|].
  destruct (generateCreatives_unchecked_delete_breaks_density Demo.url Demo.key
              Demo.project Demo.delete_rejected (mkSys Demo.world CreativeGenerator.initial)
              Demo.signed_in Demo.result (Rejected "permission denied")
              eq_refl eq_refl eq_refl eq_refl Hrows Hres)
    as (_ & _ & _ & _ & Hstored & Hnd & Hview).
  split; [exact Hstored|]. split; [exact Hnd|]. split; [reflexivity|].
  apply (proj2 (proj2 (Hview eq_refl))).
  exists 1. split; [|split; [lia|vm_compute; discriminate]].
  vm_compute. apply elem_of_cons. by left.
Defined.

Lemma downloadAsZip_fetch_failures_not_fatal_witness :
  let s' := (CreativeGenerator.downloadAsZip Demo.project Demo.second_image_fails
               Demo.loaded).2 in
  CreativeGenerator.import_answer Demo.second_image_fails = None ∧
  CreativeGenerator.generate_answer Demo.second_image_fails = None ∧
  ∃ zip,
    downloads (emitted Demo.loaded s')
    = [(CreativeGenerator.download_name Demo.project, Some (ZipBlob zip))] ∧
    zip !! "captions.txt"
    = Some (TextEntry (CreativeGenerator.captionsText
                         (CreativeGenerator.creatives (ui Demo.loaded)))) ∧
    zip !! "creative_1.jpg" = Some (BlobEntry "jpeg bytes") ∧
    zip !! "creative_2.jpg" = None.
Proof.
  cbv zeta. split; [reflexivity|]. split; [reflexivity|].
  destruct (downloadAsZip_fetch_failures_not_fatal Demo.project Demo.second_image_fails
              Demo.loaded) as (_ & _ & H).
  destruct (H eq_refl eq_refl) as (zip & Hd & _ & Hm & _ & _ & _ & _ & Hblob & Habsent).
  exists zip. split; [exact Hd|]. split; [exact Hm|]. split.
  - apply Hblob.
    exists 0%nat,
      (GeneratedCreative.mk "0" "p1" "https://img/old1" "old one" "old prompt 1" 1).
    split; [reflexivity|]. split; [reflexivity|]. split; [reflexivity|].
    intros [|[|[|j]]] c' d' Hlt Hj Himg; [lia| | |]; vm_compute in Hj, Himg; discriminate.
  - apply (proj2 (Habsent 1%nat
             (GeneratedCreative.mk "2" "p1" "https://img/old2" "old two" "old prompt 2" 2)
             (TypeError "Failed to fetch") eq_refl (or_introl eq_refl))).
    intros [|[|j]] c' d Hj Himg.
    + injection Hj as <-. vm_compute. discriminate.
    + vm_compute in Himg. discriminate.
    + vm_compute in Hj. discriminate.
Defined.

Lemma downloadAsZip_archive_contents_witness :
  let s' := (CreativeGenerator.downloadAsZip Demo.project Scenario.all_images
               Scenario.appended).2 in
  CreativeGenerator.creatives (ui Scenario.appended) ≠ [] ∧
  CreativeGenerator.download_outcome Demo.project Scenario.all_images Scenario.appended
  = Ok tt ∧
  GeneratedCreative.variation_number <$> CreativeGenerator.creatives (ui Scenario.appended)
  = [1; 1; 2; 2; 3] ∧
  ∃ zip : Zip,
    downloads (emitted Scenario.appended s')
    = [("Summer_Campaign_2024_creatives.zip", Some (ZipBlob zip))] ∧
    zip !! "creative_1.jpg" = Some (BlobEntry "image 1") ∧
    zip !! "creative_2.jpg" = Some (BlobEntry "image 3") ∧
    zip !! "creative_3.jpg" = Some (BlobEntry "image 4").
Proof.
  cbv zeta.
  assert (Hne : CreativeGenerator.creatives (ui Scenario.appended) ≠ [])
    by (vm_compute; discriminate).
  assert (Hok : CreativeGenerator.download_outcome Demo.project Scenario.all_images
                  Scenario.appended = Ok tt) by reflexivity.
  split; [exact Hne|]. split; [exact Hok|]. split; [reflexivity|].
  destruct (downloadAsZip_archive_contents Demo.project Scenario.all_images
              Scenario.appended Hne Hok) as (zip & Hd & _ & _ & Hblob & _).
  exists zip. split; [exact Hd|].
  assert (Hlast : ∀ (i : nat) c (n : Z),
            CreativeGenerator.creatives (ui Scenario.appended) !! i = Some c →
            GeneratedCreative.variation_number c = n →
            (∀ (j : nat) c', (i < j)%nat →
               CreativeGenerator.creatives (ui Scenario.appended) !! j = Some c' →
               GeneratedCreative.variation_number c' ≠ n) →
            zip !! ("creative_" +:+ pretty n +:+ ".jpg")
            = Some (BlobEntry ("image " +:+ pretty i))).
  { intros i c n Hi Hn Hlater. apply Hblob. exists i, c.
    split; [exact Hi|]. split; [reflexivity|]. split; [exact Hn|].
    intros j c' d' Hij Hj _. by apply (Hlater j c'). }
  split; [|split].
  - apply (Hlast 1%nat _ 1 eq_refl eq_refl).
    intros [|[|[|[|[|j]]]]] c' Hij Hj; try lia; vm_compute in Hj;
      try discriminate Hj; injection Hj as <-; vm_compute; discriminate.
  - apply (Hlast 3%nat _ 2 eq_refl eq_refl).
    intros [|[|[|[|[|j]]]]] c' Hij Hj; try lia; vm_compute in Hj;
      try discriminate Hj; injection Hj as <-; vm_compute; discriminate.
  - apply (Hlast 4%nat _ 3 eq_refl eq_refl).
    intros [|[|[|[|[|j]]]]] c' Hij Hj; try lia; vm_compute in Hj;
      try discriminate Hj; injection Hj as <-; vm_compute; discriminate.
Defined.

Lemma generateCreatives_failure_no_rollback_witness :
  let s := mkSys Demo.world CreativeGenerator.initial in
  let s' := (CreativeGenerator.generateCreatives Demo.url Demo.key Demo.project
               Demo.insert_rejected s).2 in
  CreativeGenerator.generate_outcome Demo.url Demo.key Demo.project Demo.insert_rejected s
  = Throw (Rejected "connection lost") ∧
  alerts (emitted s s') = ["Failed to generate creatives. Please try again."] ∧
  project_rows "p1" (creatives_tbl (world s')) = [] ∧
  creatives_tbl (world s') ≠ creatives_tbl (world s).
Proof.
  cbv zeta.
  destruct (generateCreatives_failure_no_rollback Demo.url Demo.key Demo.project
              Demo.insert_rejected (mkSys Demo.world CreativeGenerator.initial)
              (Rejected "connection lost") eq_refl)
    as (_ & _ & Ha & _ & _ & _ & _ & _ & _ & H).
  destruct (H Demo.signed_in Demo.result (Rejected "connection lost")
              eq_refl eq_refl eq_refl eq_refl) as (_ & _ & _ & Hempty & Hchanged).
  split; [reflexivity|]. split; [exact Ha|]. split; [exact Hempty|].
  apply Hchanged. vm_compute. discriminate.
Defined.

Lemma generateCreatives_remote_call_witness :
  let s := mkSys Demo.world CreativeGenerator.initial in
  CreativeGenerator.session_answer Demo.all_served = Some Demo.signed_in ∧
  posts (emitted s (CreativeGenerator.generateCreatives Demo.url Demo.key Demo.project
                      Demo.all_served s).2)
  = [CreativeGenerator.generate_request Demo.url Demo.key Demo.project Demo.signed_in] ∧
  CreativeGenerator.session_answer Demo.signed_out = None ∧
  posts (emitted s (CreativeGenerator.generateCreatives Demo.url Demo.key Demo.project
                      Demo.signed_out s).2)
  = [].
Proof.
  cbv zeta. split; [reflexivity|]. split.
  - exact (proj1 (proj1 (generateCreatives_remote_call Demo.url Demo.key Demo.project
                           Demo.all_served (mkSys Demo.world CreativeGenerator.initial))
                    Demo.signed_in eq_refl)).
  - split; [reflexivity|].
    exact (proj1 (proj2 (generateCreatives_remote_call Demo.url Demo.key Demo.project
                           Demo.signed_out (mkSys Demo.world CreativeGenerator.initial))
                    eq_refl)).
Defined.

Lemma projects_immutable_after_creation_witness :
  let s := mkSys Demo.world App.initial in
  let s' := App.run Demo.url Demo.key Demo.getPublicUrl Demo.create_project s in
  projects_tbl (world s) !! 0%nat = Some Demo.project ∧
  projects_tbl (world s') !! 0%nat = Some Demo.project ∧
  length (projects_tbl (world s')) = 2%nat.
Proof.
  cbv zeta.
  assert (H0 : projects_tbl Demo.world !! 0%nat = Some Demo.project) by reflexivity.
  split; [exact H0|]. split; [|reflexivity].
  exact (proj1 (proj2 (projects_immutable_after_creation Demo.url Demo.key
                         Demo.getPublicUrl Demo.create_project
                         (mkSys Demo.world App.initial)))
           0%nat Demo.project H0).
Defined.

Lemma generator_creatives_sorted_witness :
  let s' := App.run Demo.url Demo.key Demo.getPublicUrl Demo.open_and_generate
              (mkSys Demo.world App.initial) in
  let view := App.generator (ui s') in
  let s0 := mkSys (world s') view in
  CreativeGenerator.import_answer Demo.second_image_fails = None ∧
  GeneratedCreative.variation_number <$> CreativeGenerator.creatives view = [1; 2; 3] ∧
  image_fetches
    (emitted s0 (CreativeGenerator.downloadAsZip Demo.project Demo.second_image_fails s0).2)
  = GeneratedCreative.image_url <$> CreativeGenerator.creatives view.
Proof.
  cbv zeta. split; [reflexivity|]. split; [reflexivity|].
  exact (proj1 (proj2 (proj2 (proj2 (generator_creatives_sorted Demo.url Demo.key
                                       Demo.getPublicUrl Demo.open_and_generate Demo.world)))
                  Demo.project Demo.second_image_fails eq_refl)).
Defined.

Lemma manifest_numbering_vs_file_names_witness :
  let items := CreativeGenerator.creatives (ui Demo.loaded) in
  GeneratedCreative.variation_number <$> items = Z.of_nat <$> seq 1 (length items) ∧
  ∀ (i : nat) c, items !! i = Some c →
    CreativeGenerator.image_name c = "creative_" +:+ pretty (Z.of_nat i + 1) +:+ ".jpg".
Proof.
  cbv zeta.
  assert (H : GeneratedCreative.variation_number <$> CreativeGenerator.creatives (ui Demo.loaded)
              = Z.of_nat <$> seq 1 (length (CreativeGenerator.creatives (ui Demo.loaded))))
    by reflexivity.
  split; [exact H|].
  exact (proj2 (proj2 (proj2 (manifest_numbering_vs_file_names
                                (CreativeGenerator.creatives (ui Demo.loaded))))) H).
Defined.

(** * Further properties of the handlers *)

(** ** loadCreatives and generateCreatives *)

Section GeneratorMore.
Import CreativeGenerator.
Context (supabaseUrl supabaseAnonKey : string) (project : Project.t).

Local Abbreviation generateCreatives := (generateCreatives supabaseUrl supabaseAnonKey project).
Local Abbreviation generate_outcome := (generate_outcome supabaseUrl supabaseAnonKey project).
Local Abbreviation generate_request := (generate_request supabaseUrl supabaseAnonKey project).
Local Abbreviation creativesToInsert := (creativesToInsert project).
Local Abbreviation loadCreatives := (loadCreatives project).
Local Abbreviation pid := (Project.id project).

Lemma elem_of_project_rows p tbl c :
  c ∈ project_rows p tbl ↔ c ∈ tbl ∧ GeneratedCreative.project_id c = p.
Proof. unfold project_rows. rewrite list_elem_of_filter. unfold belongs_to. tauto. Qed.

(** X1. A served [loadCreatives] puts in the view exactly the rows the
    store holds for the project (each once, none of another project),
    arranged by ascending variation number; it ends the loading state, issues
    the one select and writes nothing. *)
Theorem loadCreatives_served s :
  let s' := (loadCreatives None s).2 in
  creatives (ui s') ≡ₚ project_rows pid (creatives_tbl (world s)) ∧
  Sorted Z.le (GeneratedCreative.variation_number <$> creatives (ui s')) ∧
  (∀ c, c ∈ creatives (ui s') ↔
        c ∈ creatives_tbl (world s) ∧ GeneratedCreative.project_id c = pid) ∧
  loading (ui s') = false ∧
  creatives_tbl (world s') = creatives_tbl (world s) ∧
  emitted s s' = [EvQuery (SelectCreatives pid)].
Proof.
  destruct s as [w c]. cbv zeta. run_emitted. simpl.
  split; [apply select_creatives_perm|].
  split; [apply sorted_numbers, select_creatives_sorted|].
  split; [|done].
  intros x. rewrite (select_creatives_perm pid (creatives_tbl w)).
  apply elem_of_project_rows.
Qed.

(** X2. When the select reports an error, [loadCreatives] swallows it: the
    handler ends normally, the error is logged once and no alert is raised;
    the list shown keeps its previous content while the loading state ends,
    so the view cannot tell a failed load from a served one. *)
Theorem loadCreatives_error_keeps_list e s :
  let r := loadCreatives (Some e) s in
  r.1 = Ok tt ∧
  creatives (ui r.2) = creatives (ui s) ∧
  loading (ui r.2) = false ∧
  emitted s r.2 = [EvQuery (SelectCreatives pid);
                   EvConsoleError "Error loading creatives:" e] ∧
  creatives_tbl (world r.2) = creatives_tbl (world s).
Proof. destruct s as [w c]. cbv zeta. run_emitted. by simpl. Qed.

(** X3. No run of [generateCreatives], whatever the outside world answers,
    changes a row of another project or the [projects] table; the only
    queries it issues are on [generated_creatives] and name this project. *)
Theorem generateCreatives_touches_own_rows_only a s :
  let s' := (generateCreatives a s).2 in
  (∀ pid', pid' ≠ pid →
     project_rows pid' (creatives_tbl (world s'))
     = project_rows pid' (creatives_tbl (world s))) ∧
  projects_tbl (world s') = projects_tbl (world s) ∧
  Forall (λ q, q = DeleteCreatives pid ∨ q = SelectCreatives pid ∨
               ∃ rows, q = InsertCreatives rows ∧
                       Forall (λ r, nc_project_id r = pid) rows)
    (queries (emitted s s')).
Proof.
  destruct s as [w c].
  destruct a as [[sess|] [e'|[[|] [je|[cs|]]]] [de|] [ie|] [re|]]; cbv zeta.
  all: run_emitted; simpl.
  all: split; [intros pid' Hne|split; [done|]].
  all: rewrite ?project_rows_app, ?project_rows_other_deleted by done.
  all: rewrite ?(project_rows_stored_other _ _ _ _ (creativesToInsert_project _ cs)) by done.
  all: rewrite ?app_nil_r; try done.
  all: repeat apply Forall_cons_2; try apply Forall_nil_2;
         eauto 7 using creativesToInsert_project.
Qed.

(** X4. A run that fails before the delete is reached leaves the store as it
    was and issues no query at all.  This is so without a session (nothing is
    posted either), when the POST is rejected by the network, when the
    response is not 2xx (its body is not read: any body gives the same
    error), and when [response.json()] rejects the body of a 2xx response.
    The value thrown is then, in this order of precedence, the
    "Not authenticated" error, the network's rejection, the
    "Failed to generate creatives" error, or whatever value
    [response.json()] rejected with. *)
Theorem generateCreatives_early_failure_keeps_store a s :
  session_answer a = None ∨
  (∃ e, http_answer a = NetworkError e) ∨
  (∃ b, http_answer a = Responded {| ok := false; body := b |}) ∨
  (∃ e, http_answer a = Responded {| ok := true; body := NotJson e |}) →
  let s' := (generateCreatives a s).2 in
  queries (emitted s s') = [] ∧
  creatives_tbl (world s') = creatives_tbl (world s) ∧
  alerts (emitted s s') = ["Failed to generate creatives. Please try again."] ∧
  (session_answer a = None →
     generate_outcome a s = Throw (JsError "Not authenticated")) ∧
  (∀ sess, session_answer a = Some sess →
     (∀ e, http_answer a = NetworkError e → generate_outcome a s = Throw e) ∧
     (∀ b, http_answer a = Responded {| ok := false; body := b |} →
           generate_outcome a s = Throw (JsError "Failed to generate creatives")) ∧
     (∀ e, http_answer a = Responded {| ok := true; body := NotJson e |} →
           generate_outcome a s = Throw e ∧
           console_errors (emitted s s') = [("Error generating creatives:", e)])).
Proof.
  destruct s as [w c].
  destruct a as [[sess|] [e'|[[|] [je|[cs|]]]] [de|] [ie|] [re|]]; cbv zeta.
  all: intros [H|[[? H]|[[? H]|[? H]]]]; try discriminate H.
  all: unfold CreativeGenerator.generate_outcome; run_emitted; simpl.
  all: repeat lazymatch goal with |- _ ∧ _ => split end; try done.
  all: try (intros ? _).
  all: repeat lazymatch goal with |- _ ∧ _ => split end; by intros ? [=]; subst.
Qed.

(** X5. A 2xx response whose JSON carries no [creatives] array is noticed
    only after the delete was issued: when that delete is served, the
    project's stored batch is gone and nothing is inserted in its place.  The
    run fails with a [TypeError], the alert is raised and the view keeps
    showing the list it had. *)
Theorem generateCreatives_missing_array_wipes_batch a s sess :
  session_answer a = Some sess →
  http_answer a = Responded {| ok := true; body := Json None |} →
  delete_answer a = None →
  let s' := (generateCreatives a s).2 in
  project_rows pid (creatives_tbl (world s')) = [] ∧
  queries (emitted s s') = [DeleteCreatives pid] ∧
  (∃ msg, generate_outcome a s = Throw (TypeError msg)) ∧
  alerts (emitted s s') = ["Failed to generate creatives. Please try again."] ∧
  creatives (ui s') = creatives (ui s).
Proof.
  destruct s as [w c]. destruct a as [? ? ? [ie|] [re|]]; simpl; intros -> -> ->.
  all: unfold CreativeGenerator.generate_outcome; run_emitted; simpl.
  all: split; [apply project_rows_deleted|]; eauto 6.
Qed.

(** X6. Two generations in a row, every call served: after the second run
    the project's stored rows are the second batch alone, stored under the
    ids that follow those of the first batch. *)
Theorem generateCreatives_twice_keeps_last a1 a2 s sess1 sess2 result1 result2 :
  session_answer a1 = Some sess1 →
  http_answer a1 = Responded {| ok := true; body := Json (Some result1) |} →
  delete_answer a1 = None → insert_answer a1 = None →
  session_answer a2 = Some sess2 →
  http_answer a2 = Responded {| ok := true; body := Json (Some result2) |} →
  delete_answer a2 = None → insert_answer a2 = None →
  let s1 := (generateCreatives a1 s).2 in
  let s2 := (generateCreatives a2 s1).2 in
  project_rows pid (creatives_tbl (world s1))
  = stored_rows (next_id (world s)) (creativesToInsert result1) ∧
  project_rows pid (creatives_tbl (world s2))
  = stored_rows (next_id (world s) + N.of_nat (length result1))%N
      (creativesToInsert result2) ∧
  length (project_rows pid (creatives_tbl (world s2))) = length result2.
Proof.
  intros Hs1 Hh1 Hd1 Hi1 Hs2 Hh2 Hd2 Hi2. cbv zeta. destruct s as [w c].
  destruct (generateCreatives_replaces supabaseUrl supabaseAnonKey project a1 w c sess1 result1 Hs1 Hh1 Hd1 Hi1)
    as [H1 _].
  assert (Hn : next_id (world (generateCreatives a1 (mkSys w c)).2)
               = (next_id w + N.of_nat (length result1))%N).
  { destruct a1 as [? ? ? ? [re|]]; simpl in *; subst; simpl;
      by rewrite creativesToInsert_length. }
  destruct (generateCreatives a1 (mkSys w c)).2 as [w1 c1] eqn:E1.
  destruct (generateCreatives_replaces supabaseUrl supabaseAnonKey project a2 w1 c1 sess2 result2 Hs2 Hh2 Hd2 Hi2)
    as [H2 _].
  simpl in *. rewrite H2, Hn. split; [done|]. split; [done|].
  by rewrite stored_rows_length, creativesToInsert_length.
Qed.

Lemma sorted_perm_strict (l1 l2 : list GeneratedCreative.t) :
  l1 ≡ₚ l2 →
  Sorted vn_le l1 →
  StronglySorted (λ a b, GeneratedCreative.variation_number a
                         < GeneratedCreative.variation_number b) l2 →
  l1 = l2.
Proof.
  intros Hp Hs1 Hs2. apply Sorted_StronglySorted in Hs1; [|apply _].
  revert l1 Hp Hs1. induction Hs2 as [|y l2 Hs2 IH Hy]; intros l1 Hp Hs1.
  - by apply Permutation_nil_r in Hp.
  - destruct l1 as [|x l1]; [by apply Permutation_nil_cons in Hp|].
    apply StronglySorted_inv in Hs1 as [Hs1 Hx].
    assert (x = y) as ->.
    { assert (Hxin : x ∈ y :: l2) by (rewrite <- Hp; left).
      apply elem_of_cons in Hxin as [?|Hxin]; [done|].
      assert (Hyin : y ∈ x :: l1) by (rewrite Hp; left).
      apply elem_of_cons in Hyin as [?|Hyin]; [done|].
      rewrite Forall_forall in Hy, Hx.
      specialize (Hy _ Hxin). specialize (Hx _ Hyin). unfold vn_le in Hx. lia. }
    f_equal. apply IH; [|done]. by apply (inj (cons y)).
Qed.

Lemma stored_batch_above n k result :
  Forall (λ c, Z.of_nat k < GeneratedCreative.variation_number c)
    (stored_rows n
       (map_index
          (λ creative index,
             {| nc_project_id := pid;
                nc_image_url := imageUrl creative;
                nc_caption := raw_caption creative;
                nc_generation_prompt := prompt creative;
                nc_variation_number := Z.of_nat index + 1 |}) k result)).
Proof.
  revert n k. induction result as [|r result IH]; intros n k; simpl; constructor.
  - simpl. lia.
  - eapply Forall_impl; [apply (IH (N.succ n) (S k))|]. simpl. intros. lia.
Qed.

Lemma stored_batch_strictly_sorted n result :
  StronglySorted (λ a b, GeneratedCreative.variation_number a
                         < GeneratedCreative.variation_number b)
    (stored_rows n (creativesToInsert result)).
Proof.
  unfold CreativeGenerator.creativesToInsert. generalize 0%nat. revert n.
  induction result as [|r result IH]; intros n k; simpl; constructor.
  - apply IH.
  - eapply Forall_impl; [apply (stored_batch_above (N.succ n) (S k))|].
    simpl. intros. lia.
Qed.

Lemma stored_batch_fields n result :
  (λ c, (GeneratedCreative.image_url c, GeneratedCreative.caption c,
         GeneratedCreative.generation_prompt c, GeneratedCreative.variation_number c))
    <$> stored_rows n (creativesToInsert result)
  = map_index (λ r index, (imageUrl r, raw_caption r, prompt r, Z.of_nat index + 1))
      0 result.
Proof.
  unfold CreativeGenerator.creativesToInsert. generalize 0%nat. revert n.
  induction result as [|r result IH]; intros n k; simpl; [done|]. by rewrite IH.
Qed.

(** X7. When every call of a run is served, reload included, the view ends
    up showing exactly the rows just stored: one creative per element of the
    response, in the order of the response, with that element's image URL,
    caption and prompt and the number of its position. *)
Theorem generateCreatives_view_shows_new_batch a s sess result :
  session_answer a = Some sess →
  http_answer a = Responded {| ok := true; body := Json (Some result) |} →
  delete_answer a = None → insert_answer a = None → reload_answer a = None →
  let s' := (generateCreatives a s).2 in
  creatives (ui s') = stored_rows (next_id (world s)) (creativesToInsert result) ∧
  (λ c, (GeneratedCreative.image_url c, GeneratedCreative.caption c,
         GeneratedCreative.generation_prompt c, GeneratedCreative.variation_number c))
    <$> creatives (ui s')
  = map_index (λ r index, (imageUrl r, raw_caption r, prompt r, Z.of_nat index + 1))
      0 result ∧
  loading (ui s') = false.
Proof.
  intros Hs Hh Hd Hi Hr. cbv zeta. destruct s as [w c].
  destruct (generateCreatives_replaces supabaseUrl supabaseAnonKey project
              a w c sess result Hs Hh Hd Hi) as [Hrows _].
  assert (Hview : creatives (ui (generateCreatives a (mkSys w c)).2)
                  = select_creatives pid
                      (creatives_tbl (world (generateCreatives a (mkSys w c)).2))).
  { destruct a; simpl in *; by subst. }
  assert (Hl : loading (ui (generateCreatives a (mkSys w c)).2) = false).
  { destruct a; simpl in *; by subst. }
  assert (Heq : creatives (ui (generateCreatives a (mkSys w c)).2)
                = stored_rows (next_id w) (creativesToInsert result)).
  { rewrite Hview. apply sorted_perm_strict.
    - rewrite select_creatives_perm. by rewrite Hrows.
    - apply select_creatives_sorted.
    - apply stored_batch_strictly_sorted. }
  simpl. rewrite Heq. split; [done|]. split; [apply stored_batch_fields|done].
Qed.

(** X8. When the batch is inserted but the reload that follows reports an
    error, the run still counts as normal: no alert is raised and only the
    load error is logged.  The new rows are in the store, yet the view keeps
    showing the list it had before the run. *)
Theorem generateCreatives_reload_error_shows_old_list a s sess result e :
  session_answer a = Some sess →
  http_answer a = Responded {| ok := true; body := Json (Some result) |} →
  insert_answer a = None →
  reload_answer a = Some e →
  let s' := (generateCreatives a s).2 in
  generate_outcome a s = Ok tt ∧
  alerts (emitted s s') = [] ∧
  console_errors (emitted s s') = [("Error loading creatives:", e)] ∧
  creatives (ui s') = creatives (ui s) ∧
  (∃ kept, creatives_tbl (world s')
           = kept ++ stored_rows (next_id (world s)) (creativesToInsert result)).
Proof.
  destruct s as [w c]. destruct a as [? ? [de|] ? ?]; simpl; intros -> -> -> ->.
  all: unfold CreativeGenerator.generate_outcome; run_emitted; simpl.
  all: repeat split; eauto.
Qed.

End GeneratorMore.

(** ** downloadAsZip *)

Section DownloadMore.
Import CreativeGenerator.
Context (project : Project.t).

Local Abbreviation downloadAsZip := (downloadAsZip project).
Local Abbreviation download_name := (download_name project).

Ltac step_download :=
  cbv beta iota zeta delta
    [mbind M_bind mret M_ret get modify throw on_world set_ui world ui
     try_catch_finally try_finally try_catch console_error alert
     createObjectURL revokeObjectURL click_download
     setDownloadingZip CreativeGenerator.downloadAsZip download_try
     CreativeGenerator.download_outcome import_answer generate_answer].

(** The whole list of events of a run, by cases on the two calls that can
    abort it. *)
Lemma downloadAsZip_events a s :
  let url := "blob:" +:+ pretty (next_blob (world s)) in
  let failed e :=
    [EvConsoleError "Error creating zip:" e;
     EvAlert "Failed to download zip file. Please try again."] in
  emitted s (downloadAsZip a s).2
  = EvImport jszip_url ::
      match import_answer a with
      | Some e => failed e
      | None =>
          loop_events a 0 (creatives (ui s)) ++
          match generate_answer a with
          | Some e => failed e
          | None =>
              [EvCreateObjectURL url;
               EvDownload download_name url
                 (Some (ZipBlob (archive a (creatives (ui s)))));
               EvRevokeObjectURL url]
          end
      end.
Proof.
  destruct s as [w c]. cbv zeta.
  pose proof (downloadAsZip_trace project a w c) as Ht. cbv beta zeta in Ht.
  unfold emitted. change (world (mkSys w c)) with w. change (ui (mkSys w c)) with c.
  by rewrite Ht, drop_app_length.
Qed.

Lemma loop_events_no_urls a i rest :
  created_urls (loop_events a i rest) = [] ∧ posts (loop_events a i rest) = [].
Proof.
  revert i. induction rest as [|x rest IH]; intros i; [done|].
  simpl. destruct (image_answer a i); simpl; apply IH.
Qed.

(** X9. [downloadAsZip] only reads: whatever the outside world answers, the
    handler ends normally, issues no query and no POST, leaves both tables
    and the list of the view as they were, and ends with the download
    button enabled again. *)
Theorem downloadAsZip_reads_only a s :
  let r := downloadAsZip a s in
  r.1 = Ok tt ∧
  queries (emitted s r.2) = [] ∧ posts (emitted s r.2) = [] ∧
  creatives_tbl (world r.2) = creatives_tbl (world s) ∧
  projects_tbl (world r.2) = projects_tbl (world s) ∧
  creatives (ui r.2) = creatives (ui s) ∧
  downloadingZip (ui r.2) = false.
Proof.
  cbv zeta. pose proof (downloadAsZip_events a s) as He. cbv beta zeta in He.
  rewrite He. clear He.
  destruct (loop_events_quiet a 0 (creatives (ui s))) as (_ & _ & Hq & _).
  destruct (loop_events_no_urls a 0 (creatives (ui s))) as [_ Hp].
  destruct s as [w c].
  destruct a as [[ie|] img [ge|]];
    cbv beta iota zeta delta [import_answer generate_answer];
    unfold queries, posts in *; rewrite ?omap_cons_app, ?Hq, ?Hp;
    step_download; rewrite ?fetch_images_run; step_download; by simpl.
Qed.

(** X10. The object URL made for the archive does not outlive the run: the
    URLs a run creates are exactly the URLs it revokes (one when the archive
    is handed over, none when the run aborts), none of them is live
    afterwards, and every other entry of the registry is as before. *)
Theorem downloadAsZip_revokes_its_url a s :
  let s' := (downloadAsZip a s).2 in
  created_urls (emitted s s') = revoked (emitted s s') ∧
  (length (created_urls (emitted s s')) ≤ 1)%nat ∧
  (∀ u, u ∈ created_urls (emitted s s') → object_urls (world s') !! u = None) ∧
  (∀ u, u ∉ created_urls (emitted s s') →
        object_urls (world s') !! u = object_urls (world s) !! u).
Proof.
  cbv zeta. pose proof (downloadAsZip_events a s) as He. cbv beta zeta in He.
  rewrite He. clear He.
  destruct (loop_events_quiet a 0 (creatives (ui s))) as (_ & _ & _ & Hr).
  destruct (loop_events_no_urls a 0 (creatives (ui s))) as [Hc _].
  destruct s as [w c].
  destruct a as [[ie|] img [ge|]];
    cbv beta iota zeta delta [import_answer generate_answer];
    unfold created_urls, revoked in *; rewrite ?omap_cons_app, ?Hc, ?Hr;
    step_download; rewrite ?fetch_images_run; step_download; simpl.
  all: repeat split; try done; try lia.
  all: try (intros u Hu; by apply elem_of_nil in Hu).
  - intros u ->%list_elem_of_singleton. apply lookup_delete_eq.
  - intros u Hu. rewrite list_elem_of_singleton in Hu.
    rewrite lookup_delete_ne, lookup_insert_ne by done. done.
Qed.

(** X11. When the ZIP library cannot be imported the run stops at once: no
    image is fetched, no object URL is created and nothing is downloaded;
    the error is logged and the alert raised, once each. *)
Theorem downloadAsZip_import_failure a s e :
  import_answer a = Some e →
  let s' := (downloadAsZip a s).2 in
  emitted s s' = [EvImport jszip_url;
                  EvConsoleError "Error creating zip:" e;
                  EvAlert "Failed to download zip file. Please try again."] ∧
  object_urls (world s') = object_urls (world s).
Proof.
  intros Hi. cbv zeta. pose proof (downloadAsZip_events a s) as He.
  cbv beta zeta in He. rewrite He, Hi. split; [done|].
  destruct s as [w c]. destruct a as [ia img ga]. simpl in Hi. subst ia.
  by step_download.
Qed.

(** X12. When the archive cannot be generated, every image has been
    fetched by then (and each failed fetch logged), but no object URL is
    created and no download is triggered; the generation error is the last
    thing logged and the alert is raised. *)
Theorem downloadAsZip_generation_failure a s e :
  import_answer a = None → generate_answer a = Some e →
  let s' := (downloadAsZip a s).2 in
  image_fetches (emitted s s') = GeneratedCreative.image_url <$> creatives (ui s) ∧
  console_errors (emitted s s')
  = failures a 0 (creatives (ui s)) ++ [("Error creating zip:", e)] ∧
  alerts (emitted s s') = ["Failed to download zip file. Please try again."] ∧
  downloads (emitted s s') = [] ∧
  created_urls (emitted s s') = [].
Proof.
  intros Hi Hg. cbv zeta.
  destruct (downloadAsZip_emitted project a s Hi) as [Hf Hrest].
  rewrite Hg in Hrest. destruct Hrest as (Hc & Ha & Hd).
  repeat split; try done.
  pose proof (downloadAsZip_events a s) as He. cbv beta zeta in He.
  rewrite He, Hi, Hg.
  destruct (loop_events_no_urls a 0 (creatives (ui s))) as [Hu _].
  unfold created_urls in *. by rewrite omap_cons_app, Hu.
Qed.
End DownloadMore.

(** ** The name of the downloaded file *)

Lemma list_ascii_of_string_app (s t : string) :
  list_ascii_of_string (s +:+ t) = list_ascii_of_string s ++ list_ascii_of_string t.
Proof.
  induction s as [|c s IH]; [done|].
  change (c :: list_ascii_of_string (s +:+ t)
          = c :: (list_ascii_of_string s ++ list_ascii_of_string t)).
  by rewrite IH.
Qed.

Lemma replace_space_runs_no_space in_run s :
  Forall (λ c, is_space c = false) (list_ascii_of_string (replace_space_runs in_run s)).
Proof.
  revert in_run. induction s as [|c s IH]; intros in_run; simpl; [constructor|].
  destruct (is_space c) eqn:Hc.
  - destruct in_run; [apply IH|]. simpl. constructor; [done|apply IH].
  - simpl. constructor; [done|apply IH].
Qed.

Lemma replace_space_runs_id in_run s :
  Forall (λ c, is_space c = false) (list_ascii_of_string s) →
  replace_space_runs in_run s = s.
Proof.
  revert in_run. induction s as [|c s IH]; intros in_run H; simpl; [done|].
  simpl in H. apply Forall_cons in H as [-> H]. by rewrite IH.
Qed.

(** X13. The file name offered for the download never contains a
    white-space character, whatever the project is called. *)
Theorem download_name_has_no_space project :
  Forall (λ c, is_space c = false)
    (list_ascii_of_string (CreativeGenerator.download_name project)).
Proof.
  unfold CreativeGenerator.download_name. rewrite list_ascii_of_string_app.
  apply Forall_app. split; [apply replace_space_runs_no_space|].
  simpl. repeat constructor.
Qed.

(** X14. A project name without white space is used unchanged in the
    download's file name. *)
Theorem download_name_keeps_plain_name project :
  Forall (λ c, is_space c = false) (list_ascii_of_string (Project.name project)) →
  CreativeGenerator.download_name project = Project.name project +:+ "_creatives.zip".
Proof.
  intros H. unfold CreativeGenerator.download_name. by rewrite replace_space_runs_id.
Qed.

(** ** ProjectForm *)

Section FormMore.
Import ProjectForm.
Context (getPublicUrl : string → string → string).
(** Any callback prop: the statements below hold whatever [onSuccess] does. *)
Context (onSuccess : M (Sys State) unit).

Local Abbreviation handleSubmit := (handleSubmit id (λ c _, c) getPublicUrl onSuccess).
Local Abbreviation handleLogoSelect := (handleLogoSelect id (λ c _, c)).

(** The storage path of an uploaded asset. *)
Local Abbreviation asset_path user now f :=
  (user_uid user +:+ "/" +:+ pretty now +:+ "-" +:+ file_name f).

(** X15. Without an authenticated user, [handleSubmit] uploads nothing and
    inserts nothing: it only asks for the user, then shows the message
    "Not authenticated" and re-enables the form; [onSuccess] is not called
    and what was entered stays in the form. *)
Theorem handleSubmit_unauthenticated a s :
  user_answer a = None →
  let r := handleSubmit a s in
  r.1 = Ok tt ∧
  emitted s r.2 = [EvGetUser] ∧
  projects_tbl (world r.2) = projects_tbl (world s) ∧
  error (ui r.2) = "Not authenticated" ∧ loading (ui r.2) = false ∧
  name (ui r.2) = name (ui s) ∧ brandName (ui r.2) = brandName (ui s) ∧
  logoFile (ui r.2) = logoFile (ui s) ∧ productFile (ui r.2) = productFile (ui s).
Proof.
  destruct s as [w [nm bn lf pf lp pp ld er]].
  destruct a as [ua ln la pn pa ia ca]. simpl. intros ->. cbv zeta.
  run_emitted. by simpl.
Qed.

(** X16. An upload error stops the submit where it occurs.  If the logo
    upload fails, the product image is not uploaded; if the product upload
    fails, the logo, when there is one, has already been uploaded and stays
    so.  In both cases no row is inserted, [onSuccess] is not called, and the
    form shows the error's message when it is an [Error] and
    "Failed to create project" otherwise. *)
Theorem handleSubmit_upload_failure a s user e :
  user_answer a = Some user →
  let r := handleSubmit a s in
  (∀ f, logoFile (ui s) = Some f → logo_upload_answer a = Some e →
     r.1 = Ok tt ∧
     emitted s r.2 = [EvGetUser;
                      EvUpload "brand-assets" (asset_path user (logo_now a) f) f] ∧
     error (ui r.2) = message_or "Failed to create project" e ∧
     loading (ui r.2) = false) ∧
  (∀ f, productFile (ui s) = Some f → product_upload_answer a = Some e →
     logoFile (ui s) = None ∨ logo_upload_answer a = None →
     r.1 = Ok tt ∧
     emitted s r.2
     = EvGetUser ::
       match logoFile (ui s) with
       | Some l => [EvUpload "brand-assets" (asset_path user (logo_now a) l) l]
       | None => []
       end ++ [EvUpload "brand-assets" (asset_path user (product_now a) f) f] ∧
     projects_tbl (world r.2) = projects_tbl (world s) ∧
     error (ui r.2) = message_or "Failed to create project" e ∧
     loading (ui r.2) = false).
Proof.
  destruct s as [w [nm bn lf pf lp pp ld er]].
  destruct a as [ua ln la pn pa ia ca]. simpl. intros ->. cbv zeta. split.
  - intros f -> ->. run_emitted. by simpl.
  - intros f -> -> [-> | ->]; [|destruct lf]; run_emitted; by simpl.
Qed.

(** X17. The insert comes last: when it reports an error the assets are
    already uploaded and nothing removes them, no record is added,
    [onSuccess] is not called and the error is shown in the form. *)
Theorem handleSubmit_insert_failure a s user e :
  user_answer a = Some user →
  logoFile (ui s) = None ∨ logo_upload_answer a = None →
  productFile (ui s) = None ∨ product_upload_answer a = None →
  insert_answer a = Some e →
  let r := handleSubmit a s in
  let uploaded (file : option File) now :=
    match file with
    | Some f => [EvUpload "brand-assets" (asset_path user now f) f]
    | None => []
    end in
  r.1 = Ok tt ∧
  (∃ row, emitted s r.2
          = EvGetUser :: uploaded (logoFile (ui s)) (logo_now a)
              ++ uploaded (productFile (ui s)) (product_now a)
              ++ [EvQuery (InsertProject row)]) ∧
  projects_tbl (world r.2) = projects_tbl (world s) ∧
  error (ui r.2) = message_or "Failed to create project" e ∧
  loading (ui r.2) = false.
Proof.
  destruct s as [w [nm bn lf pf lp pp ld er]].
  destruct a as [ua ln la pn pa ia ca]. simpl. intros -> Hl Hp ->. cbv zeta.
  destruct lf as [lf|], pf as [pf|], la as [la|], pa as [pa|];
    try (by destruct Hl); try (by destruct Hp).
  all: run_emitted; simpl; eauto 10.
Qed.

(** X19. Picking a second logo replaces the file and the preview, but the
    object URL made for the first pick is not revoked: both URLs are
    distinct and both stay live. *)
Theorem handleLogoSelect_twice_keeps_first_url f1 f2 s :
  let s1 := (handleLogoSelect f1 s).2 in
  let s2 := (handleLogoSelect f2 s1).2 in
  logoFile (ui s2) = Some f2 ∧
  logoPreview (ui s2) ≠ logoPreview (ui s1) ∧
  object_urls (world s2) !! logoPreview (ui s1) = Some (FileBlob f1) ∧
  object_urls (world s2) !! logoPreview (ui s2) = Some (FileBlob f2) ∧
  revoked (emitted s s2) = [].
Proof.
  destruct s as [w c]. cbv zeta. run_emitted. simpl.
  assert (Hne : "blob:" +:+ pretty (N.succ (next_blob w))
                ≠ "blob:" +:+ pretty (next_blob w)).
  { intros H. apply (inj (String.append "blob:")), (inj pretty) in H. lia. }
  rewrite lookup_insert_ne, !lookup_insert_eq by done. by repeat split.
Qed.
End FormMore.

(** ** Dashboard and the application *)

Lemma newer_first_total : Total newer_first.
Proof.
  intros a b. unfold newer_first.
  destruct (String.leb_total (Project.created_at a) (Project.created_at b)); auto.
Qed.

Section DashboardMore.
Import Dashboard.

Local Abbreviation loadProjects := (loadProjects id (λ c _, c)).

(** X20. A served [loadProjects] lists every record of the [projects] table
    once, the most recently created first, and ends the loading state; when
    the select reports an error the list keeps its content, the error is
    logged and no alert is raised.  Either way the handler writes nothing. *)
Theorem loadProjects_lists_newest_first (s : Sys State) :
  (let s' := (loadProjects None s).2 in
   projects (ui s') ≡ₚ projects_tbl (world s) ∧
   Sorted newer_first (projects (ui s')) ∧
   loading (ui s') = false ∧
   emitted s s' = [EvQuery SelectProjects] ∧
   projects_tbl (world s') = projects_tbl (world s)) ∧
  (∀ e,
     let r := loadProjects (Some e) s in
     r.1 = Ok tt ∧
     projects (ui r.2) = projects (ui s) ∧
     loading (ui r.2) = false ∧
     emitted s r.2 = [EvQuery SelectProjects;
                      EvConsoleError "Error loading projects:" e] ∧
     projects_tbl (world r.2) = projects_tbl (world s)).
Proof.
  destruct s as [w c]. split.
  - cbv zeta. run_emitted. simpl.
    split; [apply merge_sort_Permutation|].
    split; [apply (@Sorted_merge_sort _ newer_first _ newer_first_total)|done].
  - intros e. cbv zeta. run_emitted. by simpl.
Qed.

End DashboardMore.

Section ApplicationMore.
Import App.
Context (supabaseUrl supabaseAnonKey : string).
Context (getPublicUrl : string → string → string).

Local Abbreviation step := (step supabaseUrl supabaseAnonKey getPublicUrl).
Local Abbreviation run := (run supabaseUrl supabaseAnonKey getPublicUrl).

Lemma step_unmounted act s :
  dashboard_mounted (ui s) = false → is_auth_notification act = false →
  (step act s).2 = s.
Proof.
  destruct s as [w u]. unfold dashboard_mounted. simpl. intros Hm Ha.
  destruct act; try discriminate Ha; unfold App.step;
    cbv beta iota zeta delta [mbind M_bind get];
    change (ui (mkSys w u)) with u;
    destruct (screen u); try discriminate Hm; done.
Qed.

Lemma run_unmounted acts s :
  dashboard_mounted (ui s) = false →
  Forall (λ act, is_auth_notification act = false) acts →
  run acts s = s.
Proof.
  intros Hm Ha. induction Ha as [|act acts Hact _ IH]; simpl; [done|].
  by rewrite step_unmounted.
Qed.

(** X25. Logging out from the project list signs out at the auth client,
    issues no query, and brings up the login form; from then on the clicks
    and key strokes of the dashboard have no effect until a session is
    notified. *)
Theorem logout_closes_dashboard s acts :
  screen (ui s) = ProjectList →
  Forall (λ act, is_auth_notification act = false) acts →
  let s1 := (step ClickLogout s).2 in
  emitted s s1 = [EvSignOut] ∧
  session (ui s1) = None ∧
  screen (ui s1) = AuthForm ∧
  run acts s1 = s1.
Proof.
  intros Hscr Hacts. cbv zeta. destruct s as [w u].
  change (screen u = ProjectList) in Hscr.
  assert (Hstep : (step ClickLogout (mkSys w u)).2
                  = mkSys (emit EvSignOut w) (put_session None u)).
  { unfold App.step. cbv beta iota zeta delta [mbind M_bind get].
    change (ui (mkSys w u)) with u. by rewrite Hscr. }
  rewrite Hstep.
  assert (Hl : loading u = false).
  { unfold screen in Hscr. by destruct (loading u). }
  assert (Hs : screen (put_session None u) = AuthForm).
  { unfold screen. simpl. by rewrite Hl. }
  split; [by run_emitted|]. split; [done|]. split; [exact Hs|].
  apply run_unmounted; [|done]. unfold dashboard_mounted. simpl. by rewrite Hs.
Qed.
End ApplicationMore.

Section Invariant.
Import App.
Context (supabaseUrl supabaseAnonKey : string).
Context (getPublicUrl : string → string → string).

Local Abbreviation step := (step supabaseUrl supabaseAnonKey getPublicUrl).
Local Abbreviation run := (run supabaseUrl supabaseAnonKey getPublicUrl).

Lemma select_creatives_belongs pid tbl :
  Forall (λ c, GeneratedCreative.project_id c = pid) (select_creatives pid tbl).
Proof.
  apply Forall_forall. intros c Hc.
  rewrite (select_creatives_perm pid tbl) in Hc.
  unfold project_rows in Hc. by apply list_elem_of_filter in Hc as [? _].
Qed.

Lemma select_projects_stored tbl : Forall (λ p, p ∈ tbl) (select_projects tbl).
Proof.
  apply Forall_forall. intros p Hp. unfold select_projects in Hp.
  by rewrite merge_sort_Permutation in Hp.
Qed.

Lemma stored_grows (tbl added : list Project.t) (l : list Project.t) :
  Forall (λ p, p ∈ tbl) l → Forall (λ p, p ∈ tbl ++ added) l.
Proof. intros H. eapply Forall_impl; [exact H|]. intros p Hp. apply elem_of_app. by left. Qed.

(** How the three handlers of the generator leave its cells. *)
Lemma loadCreatives_cells project answer s :
  let s' := (CreativeGenerator.loadCreatives project answer s).2 in
  (CreativeGenerator.creatives (ui s') = CreativeGenerator.creatives (ui s) ∨
   CreativeGenerator.creatives (ui s')
   = select_creatives (Project.id project) (creatives_tbl (world s))) ∧
  CreativeGenerator.generating (ui s') = CreativeGenerator.generating (ui s) ∧
  CreativeGenerator.progress (ui s') = CreativeGenerator.progress (ui s) ∧
  CreativeGenerator.downloadingZip (ui s') = CreativeGenerator.downloadingZip (ui s) ∧
  projects_tbl (world s') = projects_tbl (world s).
Proof. destruct s as [w c]. destruct answer; simpl; auto 6. Qed.

Lemma generateCreatives_cells project a s :
  let s' := (CreativeGenerator.generateCreatives supabaseUrl supabaseAnonKey project a s).2 in
  (CreativeGenerator.creatives (ui s') = CreativeGenerator.creatives (ui s) ∨
   ∃ tbl, CreativeGenerator.creatives (ui s') = select_creatives (Project.id project) tbl) ∧
  CreativeGenerator.generating (ui s') = false ∧
  CreativeGenerator.progress (ui s') = 0 ∧
  CreativeGenerator.downloadingZip (ui s') = CreativeGenerator.downloadingZip (ui s) ∧
  projects_tbl (world s') = projects_tbl (world s).
Proof.
  destruct s as [w c].
  destruct a as [[sess|] [e'|[[|] [je|[cs|]]]] [de|] [ie|] [re|]]; simpl; eauto 7.
Qed.

Lemma downloadAsZip_cells project a s :
  let s' := (CreativeGenerator.downloadAsZip project a s).2 in
  CreativeGenerator.creatives (ui s') = CreativeGenerator.creatives (ui s) ∧
  CreativeGenerator.generating (ui s') = CreativeGenerator.generating (ui s) ∧
  CreativeGenerator.progress (ui s') = CreativeGenerator.progress (ui s) ∧
  CreativeGenerator.downloadingZip (ui s') = false ∧
  projects_tbl (world s') = projects_tbl (world s).
Proof.
  destruct s as [w c].
  destruct a as [[ie|] img [ge|]];
    cbv beta iota zeta delta
      [mbind M_bind mret M_ret get modify throw on_world set_ui world ui
       try_catch_finally try_finally try_catch console_error alert
       createObjectURL revokeObjectURL click_download
       CreativeGenerator.setDownloadingZip CreativeGenerator.downloadAsZip
       CreativeGenerator.download_try
       CreativeGenerator.import_answer CreativeGenerator.generate_answer];
    rewrite ?fetch_images_run;
    cbv beta iota zeta delta
      [mbind M_bind mret M_ret get modify throw on_world set_ui world ui
       try_catch_finally try_finally try_catch console_error alert
       createObjectURL revokeObjectURL click_download
       CreativeGenerator.setDownloadingZip CreativeGenerator.downloadAsZip
       CreativeGenerator.download_try
       CreativeGenerator.import_answer CreativeGenerator.generate_answer];
    by simpl.
Qed.

Lemma screen_generator u prj :
  screen u = Generator prj → Dashboard.selectedProject (dashboard u) = Some prj.
Proof.
  unfold screen. destruct (loading u); [done|]. destruct (session u); [|done].
  destruct (Dashboard.selectedProject (dashboard u)); [by intros [= ->]|].
  by destruct (Dashboard.showNewProject (dashboard u)).
Qed.

Lemma screen_project_list u :
  screen u = ProjectList →
  Dashboard.selectedProject (dashboard u) = None ∧
  Dashboard.showNewProject (dashboard u) = false.
Proof.
  unfold screen. destruct (loading u); [done|]. destruct (session u); [|done].
  destruct (Dashboard.selectedProject (dashboard u)); [done|].
  by destruct (Dashboard.showNewProject (dashboard u)).
Qed.

Lemma screen_new_project u :
  screen u = NewProject →
  Dashboard.selectedProject (dashboard u) = None ∧
  Dashboard.showNewProject (dashboard u) = true.
Proof.
  unfold screen. destruct (loading u); [done|]. destruct (session u); [|done].
  destruct (Dashboard.selectedProject (dashboard u)); [done|].
  by destruct (Dashboard.showNewProject (dashboard u)).
Qed.

Lemma app_update_inv f answer s :
  (∀ u, dashboard (f u) = dashboard u ∧ generator (f u) = generator u ∧
        form (f u) = form u) →
  app_inv s → app_inv (app_update f answer s).2.
Proof.
  intros Hf. destruct s as [w u]. unfold app_update.
  cbv beta iota zeta delta [mbind M_bind get set_ui modify world ui].
  destruct (Hf u) as (Hd & Hg & Hfm).
  destruct (_ && _).
  - intros (_ & I2 & _ & _).
    destruct answer; unfold app_inv; simpl; rewrite ?Hg, ?Hfm;
      (split; [done|]); (split; [exact I2|]); (split; [|auto]).
    all: split; [first [apply select_projects_stored | constructor]|done].
  - unfold app_inv. simpl. by rewrite Hd, Hg, Hfm.
Qed.
Lemma step_app_inv act s : app_inv s → app_inv (step act s).2.
Proof.
  destruct s as [w u]. intros Hinv.
  destruct act; unfold App.step.
  all: cbv beta iota zeta delta [mbind M_bind get].
  all: change (ui (mkSys w u)) with u.
  (* logging out, typing and picking or clearing a file touch no cell the
     invariant reads; these cases and the disabled ones close at once *)
  3-16: destruct (screen u) as [| | | |prj] eqn:Hscr; try exact Hinv.
  - (* SessionLoaded *)
    change (on_world (emit EvGetSession) (mkSys w u))
      with ((Ok tt, mkSys (emit EvGetSession w) u) : Res unit * Sys UI).
    cbv beta iota. apply app_update_inv; [done|exact Hinv].
  - (* AuthStateChange *)
    apply app_update_inv; [done|exact Hinv].
  - (* ClickNewProject *)
    destruct (screen_project_list u Hscr) as [Hsel _].
    destruct Hinv as (I1 & (Hg & Hp & Hd & _) & [I3 I3'] & _).
    unfold app_inv in *. simpl in *. rewrite Hsel in *. repeat split; auto.
  - (* ClickProject *)
    destruct (Dashboard.projects (dashboard u) !! i) as [selected|] eqn:Hi;
      [|exact Hinv].
    destruct (screen_project_list u Hscr) as [_ Hshow].
    destruct Hinv as (_ & (_ & _ & _ & Hfl) & [I3 _] & _).
    cbv beta iota zeta delta [Dashboard.setSelectedProject Dashboard.set_dash set_ui modify].
    rewrite zoom_run. simpl in *.
    destruct (loadCreatives_cells selected load_answer
                (mkSys w CreativeGenerator.initial)) as (Hc & Hg & Hp & Hd & Ht).
    simpl in *. unfold app_inv. simpl. rewrite Hg, Hp, Hd, Ht.
    split; [|split; [by repeat split|split; [split; [done|]|right; exact Hshow]]].
    + intros p [= <-]. destruct Hc as [-> | ->];
        [constructor|apply select_creatives_belongs].
    + intros p [= <-]. rewrite Forall_forall in I3. apply I3.
      by apply list_elem_of_lookup_2 in Hi.
  - (* ClickBack *)
    destruct Hinv as (_ & (? & ? & ? & ?) & [I3 _] & _).
    unfold app_inv in *. simpl in *. repeat split; auto; by intros ? [=].
  - (* ClickGenerate *)
    unfold when. destruct (negb _); [|exact Hinv].
    rewrite zoom_run. simpl.
    pose proof (screen_generator u prj Hscr) as Hsel.
    destruct Hinv as (I1 & (_ & _ & Hdz & Hfl) & I3 & I4).
    destruct (generateCreatives_cells prj a (mkSys w (generator u)))
      as (Hc & Hg & Hp & Hd & Ht).
    simpl in *. unfold app_inv. simpl. rewrite Hg, Hp, Hd, Ht.
    split; [|done].
    intros p Hp'. rewrite Hsel in Hp'. injection Hp' as <-.
    destruct Hc as [-> | [tbl ->]]; [by apply I1|apply select_creatives_belongs].
  - (* ClickDownloadZip *)
    unfold when. destruct (_ && _); [|exact Hinv].
    rewrite zoom_run. simpl.
    destruct Hinv as (I1 & (Hgen & Hpr & _ & Hfl) & I3 & I4).
    destruct (downloadAsZip_cells prj a (mkSys w (generator u)))
      as (Hc & Hg & Hp & Hd & Ht).
    simpl in *. unfold app_inv. simpl. by rewrite Hc, Hg, Hp, Hd, Ht.
  - (* ClickCancel *)
    destruct Hinv as (I1 & (? & ? & ? & ?) & [I3 I3'] & _).
    unfold app_inv in *. simpl in *. repeat split; auto.
  - (* Submit *)
    unfold when. destruct (_ && _); [|exact Hinv].
    destruct (screen_new_project u Hscr) as [Hsel _].
    destruct Hinv as (_ & (Hgen & Hpr & Hdz & _) & [I3 _] & _).
    destruct u as [sess load [projs sel show dl] gen [nm bn lf pf lp pp ld er]].
    simpl in *. subst sel.
    destruct a as [[user|] ln [le|] pn [pe|] [ie|] now], lf as [lf|], pf as [pf|],
      reload_answer as [re|].
    all: unfold app_inv; simpl.
    all: split; [done|]; split; [done|]; split; [|by left]; split; [|done].
    all: first [ exact I3 | by apply stored_grows | apply select_projects_stored ].
Qed.

Lemma run_app_inv acts s : app_inv s → app_inv (run acts s).
Proof.
  revert s. induction acts as [|act acts IH]; intros s Hs; simpl; [done|].
  by apply IH, step_app_inv.
Qed.

Lemma initial_app_inv w : app_inv (mkSys w App.initial).
Proof. unfold app_inv. simpl. repeat split; auto; done. Qed.
(** X22. From the initial state, after any sequence of actions, the
    generator view of a project lists creatives of that project only. *)
Theorem generator_lists_own_creatives_only acts w :
  let s' := run acts (mkSys w App.initial) in
  ∀ p, screen (ui s') = Generator p →
       Forall (λ c, GeneratedCreative.project_id c = Project.id p)
         (CreativeGenerator.creatives (generator (ui s'))).
Proof.
  cbv zeta. intros p Hscr.
  destruct (run_app_inv acts _ (initial_app_inv w)) as (I1 & _).
  by apply I1, screen_generator.
Qed.

(** X23. From the initial state, after any sequence of actions, no handler
    is left busy: the generate button is enabled and the progress is back to
    0, the download button is enabled and the form's submit button is
    enabled, also after the runs that failed. *)
Theorem controls_enabled_between_actions acts w :
  let s' := run acts (mkSys w App.initial) in
  CreativeGenerator.generating (generator (ui s')) = false ∧
  CreativeGenerator.progress (generator (ui s')) = 0 ∧
  CreativeGenerator.downloadingZip (generator (ui s')) = false ∧
  ProjectForm.loading (form (ui s')) = false.
Proof. cbv zeta. by destruct (run_app_inv acts _ (initial_app_inv w)) as (_ & I2 & _). Qed.

(** X24. From the initial state, after any sequence of actions, every
    project shown in the dashboard's list is a record of the [projects]
    table, and so is the project whose generator view is open. *)
Theorem listed_projects_are_stored acts w :
  let s' := run acts (mkSys w App.initial) in
  Forall (λ p, p ∈ projects_tbl (world s')) (Dashboard.projects (dashboard (ui s'))) ∧
  ∀ p, screen (ui s') = Generator p → p ∈ projects_tbl (world s').
Proof.
  cbv zeta. destruct (run_app_inv acts _ (initial_app_inv w)) as (_ & _ & [I3 I3'] & _).
  split; [done|]. intros p Hscr. by apply I3', screen_generator.
Qed.

(** X26. From the initial state, after any sequence of actions, the
    new-project form is never requested while a project is selected: the
    generator view never hides an open form. *)
Theorem form_and_generator_exclusive acts w :
  let s' := run acts (mkSys w App.initial) in
  ∀ p, Dashboard.selectedProject (dashboard (ui s')) = Some p →
       Dashboard.showNewProject (dashboard (ui s')) = false.
Proof.
  cbv zeta. intros p Hp.
  destruct (run_app_inv acts _ (initial_app_inv w)) as (_ & _ & _ & [I4|I4]); [|done].
  by rewrite Hp in I4.
Qed.

(** X18. A submit of the filled-in form with every call served appends one
    record to [projects]: it carries the name and brand typed in the form,
    the user's id, and for each asset the public URL of the uploaded file,
    or [null] when no file was picked.  The form is then closed, and when
    the reload of the list is served the new project is in the dashboard's
    list. *)
Theorem submit_served_creates_and_lists_project a reload_answer s user :
  screen (ui s) = NewProject →
  ProjectForm.name (form (ui s)) ≠ "" →
  ProjectForm.brandName (form (ui s)) ≠ "" →
  ProjectForm.loading (form (ui s)) = false →
  ProjectForm.user_answer a = Some user →
  ProjectForm.logoFile (form (ui s)) = None ∨ ProjectForm.logo_upload_answer a = None →
  ProjectForm.productFile (form (ui s)) = None ∨
    ProjectForm.product_upload_answer a = None →
  ProjectForm.insert_answer a = None →
  let s' := (step (Submit a reload_answer) s).2 in
  let asset_url (file : option File) now :=
    match file with
    | Some f =>
        ProjectForm.or_null
          (getPublicUrl "brand-assets"
             (user_uid user +:+ "/" +:+ pretty now +:+ "-" +:+ file_name f))
    | None => None
    end in
  ∃ p,
    projects_tbl (world s') = projects_tbl (world s) ++ [p] ∧
    Project.name p = ProjectForm.name (form (ui s)) ∧
    Project.brand_name p = ProjectForm.brandName (form (ui s)) ∧
    Project.user_id p = user_uid user ∧
    Project.created_at p = ProjectForm.created_at_answer a ∧
    Project.logo_url p
    = asset_url (ProjectForm.logoFile (form (ui s))) (ProjectForm.logo_now a) ∧
    Project.product_image_url p
    = asset_url (ProjectForm.productFile (form (ui s))) (ProjectForm.product_now a) ∧
    screen (ui s') = ProjectList ∧
    project_inserts (emitted s s') = [ {| np_user_id := Project.user_id p;
                                          np_name := Project.name p;
                                          np_brand_name := Project.brand_name p;
                                          np_logo_url := Project.logo_url p;
                                          np_product_image_url := Project.product_image_url p |} ] ∧
    (reload_answer = None → p ∈ Dashboard.projects (dashboard (ui s'))).
Proof.
  destruct s as [w u]. intros Hscr Hn Hb Hl Hu Hlogo Hprod Hins. cbv zeta.
  change (screen u = NewProject) in Hscr.
  unfold App.step. cbv beta iota zeta delta [mbind M_bind get].
  change (ui (mkSys w u)) with u. rewrite Hscr.
  simpl in Hn, Hb, Hl.
  unfold when. rewrite !bool_decide_eq_true_2, Hl by done. cbn [andb negb].
  assert (Hscr' : ∀ d g f,
            Dashboard.selectedProject d = None → Dashboard.showNewProject d = false →
            screen (mkUI (session u) (loading u) d g f) = ProjectList).
  { intros d g f Hs Hsh. unfold screen in *. simpl.
    destruct (loading u); [done|]. destruct (session u); [|done]. by rewrite Hs, Hsh. }
  destruct (screen_new_project u Hscr) as [Hsel _].
  destruct u as [sess load [projs sel show dl] gen [nm bn lf pf lp pp ld er]].
  simpl in *. subst sel.
  destruct a as [ua ln la pn pa ia now]. simpl in *. subst ua ia.
  destruct lf as [lf|], pf as [pf|], la as [la|], pa as [pa|];
    try (by destruct Hlogo); try (by destruct Hprod).
  all: destruct reload_answer as [re|]; run_emitted; simpl.
  all: eexists; split; [reflexivity|]; simpl.
  all: repeat (split; [first [done | by apply Hscr']|]).
  all: try done.
  all: intros _; unfold select_projects; rewrite merge_sort_Permutation;
         apply elem_of_app; right; apply list_elem_of_singleton; done.
Qed.

End Invariant.

(** ** The further properties at the sample data *)

Lemma generateCreatives_early_failure_keeps_store_witness :
  let s := mkSys Demo.world CreativeGenerator.initial in
  let s' := (CreativeGenerator.generateCreatives Demo.url Demo.key Demo.project
               Scenario.server_error s).2 in
  let s'' := (CreativeGenerator.generateCreatives Demo.url Demo.key Demo.project
                Scenario.not_json s).2 in
  (∃ b, CreativeGenerator.http_answer Scenario.server_error
        = Responded {| ok := false; body := b |}) ∧
  queries (emitted s s') = [] ∧
  creatives_tbl (world s') = creatives_tbl Demo.world ∧
  queries (emitted s s'') = [] ∧
  CreativeGenerator.generate_outcome Demo.url Demo.key Demo.project Scenario.not_json s
  = Throw (JsError "Unexpected token < in JSON at position 0").
Proof.
  cbv zeta.
  assert (H : ∃ b, CreativeGenerator.http_answer Scenario.server_error
                   = Responded {| ok := false; body := b |}) by (by eexists).
  split; [exact H|].
  destruct (generateCreatives_early_failure_keeps_store Demo.url Demo.key Demo.project
              Scenario.server_error (mkSys Demo.world CreativeGenerator.initial)
              (or_intror (or_intror (or_introl H)))) as (Hq & Ht & _).
  split; [exact Hq|]. split; [exact Ht|].
  destruct (generateCreatives_early_failure_keeps_store Demo.url Demo.key Demo.project
              Scenario.not_json (mkSys Demo.world CreativeGenerator.initial)
              (or_intror (or_intror (or_intror (ex_intro _ _ eq_refl)))))
    as (Hq' & _ & _ & _ & Hthrown).
  split; [exact Hq'|].
  exact (proj1 (proj2 (proj2 (Hthrown Demo.signed_in eq_refl)) _ eq_refl)).
Defined.

Lemma generateCreatives_missing_array_wipes_batch_witness :
  let s := mkSys Demo.world CreativeGenerator.initial in
  let s' := (CreativeGenerator.generateCreatives Demo.url Demo.key Demo.project
               Scenario.no_array s).2 in
  project_rows "p1" (creatives_tbl (world s)) ≠ [] ∧
  project_rows "p1" (creatives_tbl (world s')) = [] ∧
  queries (emitted s s') = [DeleteCreatives "p1"].
Proof.
  cbv zeta.
  destruct (generateCreatives_missing_array_wipes_batch Demo.url Demo.key Demo.project
              Scenario.no_array (mkSys Demo.world CreativeGenerator.initial)
              Demo.signed_in eq_refl eq_refl eq_refl) as (He & Hq & _).
  split; [vm_compute; discriminate|]. split; [exact He|exact Hq].
Defined.

Lemma generateCreatives_twice_keeps_last_witness :
  let s := mkSys Demo.world CreativeGenerator.initial in
  let s1 := (CreativeGenerator.generateCreatives Demo.url Demo.key Demo.project
               Demo.all_served s).2 in
  let s2 := (CreativeGenerator.generateCreatives Demo.url Demo.key Demo.project
               Scenario.served_again s1).2 in
  length (project_rows "p1" (creatives_tbl (world s1))) = 3%nat ∧
  length (project_rows "p1" (creatives_tbl (world s2))) = 1%nat.
Proof.
  cbv zeta.
  destruct (generateCreatives_twice_keeps_last Demo.url Demo.key Demo.project
              Demo.all_served Scenario.served_again
              (mkSys Demo.world CreativeGenerator.initial)
              Demo.signed_in Demo.signed_in Demo.result Scenario.second_result
              eq_refl eq_refl eq_refl eq_refl eq_refl eq_refl eq_refl eq_refl)
    as (H1 & _ & H2).
  split; [|exact H2]. change "p1" with (Project.id Demo.project). rewrite H1. reflexivity.
Defined.

Lemma generateCreatives_view_shows_new_batch_witness :
  let s := mkSys Demo.world CreativeGenerator.initial in
  let s' := (CreativeGenerator.generateCreatives Demo.url Demo.key Demo.project
               Demo.all_served s).2 in
  GeneratedCreative.caption <$> CreativeGenerator.creatives (ui s') = ["A"; "B"; "C"] ∧
  CreativeGenerator.creatives (ui s')
  = stored_rows 3 (CreativeGenerator.creativesToInsert Demo.project Demo.result).
Proof.
  cbv zeta. split; [reflexivity|].
  exact (proj1 (generateCreatives_view_shows_new_batch Demo.url Demo.key Demo.project
                  Demo.all_served (mkSys Demo.world CreativeGenerator.initial)
                  Demo.signed_in Demo.result eq_refl eq_refl eq_refl eq_refl eq_refl)).
Defined.

Lemma generateCreatives_reload_error_shows_old_list_witness :
  let s := Demo.loaded in
  let s' := (CreativeGenerator.generateCreatives Demo.url Demo.key Demo.project
               Scenario.reload_rejected s).2 in
  CreativeGenerator.creatives (ui s) ≠ [] ∧
  CreativeGenerator.creatives (ui s') = CreativeGenerator.creatives (ui s) ∧
  alerts (emitted s s') = [].
Proof.
  cbv zeta.
  destruct (generateCreatives_reload_error_shows_old_list Demo.url Demo.key Demo.project
              Scenario.reload_rejected Demo.loaded Demo.signed_in Demo.result
              (Rejected "timeout") eq_refl eq_refl eq_refl eq_refl)
    as (_ & Ha & _ & Hc & _).
  split; [vm_compute; discriminate|]. split; [exact Hc|exact Ha].
Defined.

Lemma downloadAsZip_import_failure_witness :
  let s' := (CreativeGenerator.downloadAsZip Demo.project Scenario.import_fails
               Demo.loaded).2 in
  CreativeGenerator.creatives (ui Demo.loaded) ≠ [] ∧
  image_fetches (emitted Demo.loaded s') = [] ∧
  downloads (emitted Demo.loaded s') = [].
Proof.
  cbv zeta.
  destruct (downloadAsZip_import_failure Demo.project Scenario.import_fails Demo.loaded
              (TypeError "Failed to fetch dynamically imported module") eq_refl)
    as [He _].
  split; [vm_compute; discriminate|]. rewrite He. split; reflexivity.
Defined.

Lemma downloadAsZip_generation_failure_witness :
  let s' := (CreativeGenerator.downloadAsZip Demo.project Scenario.generation_fails
               Demo.loaded).2 in
  length (image_fetches (emitted Demo.loaded s')) = 2%nat ∧
  downloads (emitted Demo.loaded s') = [] ∧
  created_urls (emitted Demo.loaded s') = [].
Proof.
  cbv zeta.
  destruct (downloadAsZip_generation_failure Demo.project Scenario.generation_fails
              Demo.loaded (JsError "out of memory") eq_refl eq_refl)
    as (Hf & _ & _ & Hd & Hu).
  split; [rewrite Hf; reflexivity|]. split; [exact Hd|exact Hu].
Defined.

Lemma download_name_keeps_plain_name_witness :
  Forall (λ c, is_space c = false)
    (list_ascii_of_string (Project.name Scenario.plain_project)) ∧
  CreativeGenerator.download_name Scenario.plain_project = "Acme_creatives.zip".
Proof.
  assert (H : Forall (λ c, is_space c = false)
                (list_ascii_of_string (Project.name Scenario.plain_project)))
    by (simpl; repeat constructor).
  split; [exact H|]. exact (download_name_keeps_plain_name Scenario.plain_project H).
Defined.

Lemma handleSubmit_unauthenticated_witness :
  let r := ProjectForm.handleSubmit id (λ c _, c) Demo.getPublicUrl (mret tt)
             (Scenario.submit_answers None None None None) Scenario.filled in
  emitted Scenario.filled r.2 = [EvGetUser] ∧
  ProjectForm.error (ui r.2) = "Not authenticated".
Proof.
  cbv zeta.
  destruct (handleSubmit_unauthenticated Demo.getPublicUrl (mret tt)
              (Scenario.submit_answers None None None None) Scenario.filled eq_refl)
    as (_ & He & _ & Herr & _).
  split; [exact He|exact Herr].
Defined.

Lemma handleSubmit_upload_failure_witness :
  let rejected := Some (Rejected "payload too large") in
  let r1 := ProjectForm.handleSubmit id (λ c _, c) Demo.getPublicUrl (mret tt)
              (Scenario.submit_answers (Some Scenario.user) rejected None None)
              Scenario.filled in
  let r2 := ProjectForm.handleSubmit id (λ c _, c) Demo.getPublicUrl (mret tt)
              (Scenario.submit_answers (Some Scenario.user) None rejected None)
              Scenario.filled in
  emitted Scenario.filled r1.2
  = [EvGetUser; EvUpload "brand-assets" "u1/1717236000000-logo.png" Demo.logo] ∧
  ProjectForm.error (ui r1.2) = "Failed to create project" ∧
  emitted Scenario.filled r2.2
  = [EvGetUser; EvUpload "brand-assets" "u1/1717236000000-logo.png" Demo.logo;
     EvUpload "brand-assets" "u1/1717236000001-shoe.png" Scenario.product] ∧
  projects_tbl (world r2.2) = projects_tbl Demo.world.
Proof.
  cbv zeta.
  destruct (proj1 (handleSubmit_upload_failure Demo.getPublicUrl (mret tt)
                     (Scenario.submit_answers (Some Scenario.user)
                        (Some (Rejected "payload too large")) None None)
                     Scenario.filled Scenario.user (Rejected "payload too large") eq_refl)
              Demo.logo eq_refl eq_refl) as (_ & He1 & Herr & _).
  destruct (proj2 (handleSubmit_upload_failure Demo.getPublicUrl (mret tt)
                     (Scenario.submit_answers (Some Scenario.user) None
                        (Some (Rejected "payload too large")) None)
                     Scenario.filled Scenario.user (Rejected "payload too large") eq_refl)
              Scenario.product eq_refl eq_refl (or_intror eq_refl))
    as (_ & He2 & Ht & _).
  split; [exact He1|]. split; [exact Herr|]. split; [exact He2|exact Ht].
Defined.

Lemma handleSubmit_insert_failure_witness :
  let r := ProjectForm.handleSubmit id (λ c _, c) Demo.getPublicUrl (mret tt)
             (Scenario.submit_answers (Some Scenario.user) None None
                (Some (JsError "duplicate key")))
             Scenario.filled in
  length (emitted Scenario.filled r.2) = 4%nat ∧
  projects_tbl (world r.2) = projects_tbl Demo.world ∧
  ProjectForm.error (ui r.2) = "duplicate key".
Proof.
  cbv zeta.
  destruct (handleSubmit_insert_failure Demo.getPublicUrl (mret tt)
              (Scenario.submit_answers (Some Scenario.user) None None
                 (Some (JsError "duplicate key")))
              Scenario.filled Scenario.user (JsError "duplicate key")
              eq_refl (or_intror eq_refl) (or_intror eq_refl) eq_refl)
    as (_ & [row He] & Ht & Herr & _).
  split; [rewrite He; reflexivity|]. split; [exact Ht|exact Herr].
Defined.

Lemma submit_served_creates_and_lists_project_witness :
  let a := Scenario.submit_answers (Some Scenario.user) None None None in
  let s' := (App.step Demo.url Demo.key Demo.getPublicUrl (App.Submit a None)
               Scenario.form_open).2 in
  App.screen (ui Scenario.form_open) = App.NewProject ∧
  App.screen (ui s') = App.ProjectList ∧
  ∃ p, projects_tbl (world s') = projects_tbl Demo.world ++ [p] ∧
       Project.name p = "Winter Sale" ∧
       Project.product_image_url p = None ∧
       p ∈ Dashboard.projects (App.dashboard (ui s')).
Proof.
  cbv zeta.
  assert (Hscr : App.screen (ui Scenario.form_open) = App.NewProject) by reflexivity.
  assert (Hn : ProjectForm.name (App.form (ui Scenario.form_open)) ≠ "")
    by (vm_compute; discriminate).
  assert (Hb : ProjectForm.brandName (App.form (ui Scenario.form_open)) ≠ "")
    by (vm_compute; discriminate).
  destruct (submit_served_creates_and_lists_project Demo.url Demo.key Demo.getPublicUrl
              (Scenario.submit_answers (Some Scenario.user) None None None) None
              Scenario.form_open Scenario.user Hscr Hn Hb eq_refl eq_refl
              (or_intror eq_refl) (or_introl eq_refl) eq_refl)
    as (p & Ht & Hname & _ & _ & _ & _ & Hprod & Hs & _ & Hin).
  split; [exact Hscr|]. split; [exact Hs|].
  exists p. split; [exact Ht|]. split; [exact Hname|]. split; [exact Hprod|exact (Hin eq_refl)].
Defined.

Lemma logout_closes_dashboard_witness :
  let s1 := (App.step Demo.url Demo.key Demo.getPublicUrl App.ClickLogout
               Scenario.on_list).2 in
  App.screen (ui Scenario.on_list) = App.ProjectList ∧
  App.screen (ui s1) = App.AuthForm ∧
  App.run Demo.url Demo.key Demo.getPublicUrl Scenario.clicks s1 = s1.
Proof.
  cbv zeta.
  assert (Ha : Forall (λ act, is_auth_notification act = false) Scenario.clicks)
    by (repeat constructor).
  destruct (logout_closes_dashboard Demo.url Demo.key Demo.getPublicUrl
              Scenario.on_list Scenario.clicks eq_refl Ha) as (_ & _ & Hs & Hr).
  split; [reflexivity|]. split; [exact Hs|exact Hr].
Defined.

Lemma generator_lists_own_creatives_only_witness :
  let s' := App.run Demo.url Demo.key Demo.getPublicUrl Demo.open_and_generate
              (mkSys Demo.world App.initial) in
  App.screen (ui s') = App.Generator Demo.project ∧
  length (CreativeGenerator.creatives (App.generator (ui s'))) = 3%nat ∧
  Forall (λ c, GeneratedCreative.project_id c = "p1")
    (CreativeGenerator.creatives (App.generator (ui s'))).
Proof.
  cbv zeta.
  assert (Hscr : App.screen (ui (App.run Demo.url Demo.key Demo.getPublicUrl
                   Demo.open_and_generate (mkSys Demo.world App.initial)))
                 = App.Generator Demo.project) by reflexivity.
  split; [exact Hscr|]. split; [reflexivity|].
  exact (generator_lists_own_creatives_only Demo.url Demo.key Demo.getPublicUrl
           Demo.open_and_generate Demo.world Demo.project Hscr).
Defined.

Lemma form_and_generator_exclusive_witness :
  let s' := App.run Demo.url Demo.key Demo.getPublicUrl Demo.open_and_generate
              (mkSys Demo.world App.initial) in
  Dashboard.selectedProject (App.dashboard (ui s')) = Some Demo.project ∧
  Dashboard.showNewProject (App.dashboard (ui s')) = false.
Proof.
  cbv zeta.
  assert (Hsel : Dashboard.selectedProject (App.dashboard (ui
                   (App.run Demo.url Demo.key Demo.getPublicUrl Demo.open_and_generate
                      (mkSys Demo.world App.initial)))) = Some Demo.project)
    by reflexivity.
  split; [exact Hsel|].
  exact (form_and_generator_exclusive Demo.url Demo.key Demo.getPublicUrl
           Demo.open_and_generate Demo.world Demo.project Hsel).
Defined.
